(** * Car listing API: controllers, schema hooks and auth middleware

    A shallow embedding of
      - src/models/Car.js               (schema setters, validators, pre-save hook)
      - src/controllers/carController.js (getCars, getCar, createCar, updateCar,
                                          deleteCar, getCarStats)
      - src/utils/jwt.js                (extractTokenFromHeader)
      - src/middleware/auth.js          (authenticate, authorize, optionalAuth)
    The document store is a list of documents in collection order; a
    controller is a function from the store (and the clock) to a reply and
    the next store.  Text is modelled as ASCII strings, numbers as integers. *)

From Stdlib Require Import ZArith List String Ascii Bool Lia QArith.
From Stdlib Require Import Permutation Sorted.
Import ListNotations.

Open Scope string_scope.
Open Scope Z_scope.

(* ================================================================== *)
(** ** JavaScript string primitives used by the sources *)

Module JS.

Definition code (c : ascii) : nat := nat_of_ascii c.

Definition isUpperChar (c : ascii) : bool :=
  (Nat.leb 65 (code c) && Nat.leb (code c) 90)%nat.

Definition isLowerChar (c : ascii) : bool :=
  (Nat.leb 97 (code c) && Nat.leb (code c) 122)%nat.

Definition isDigitChar (c : ascii) : bool :=
  (Nat.leb 48 (code c) && Nat.leb (code c) 57)%nat.

(** [\s] restricted to ASCII: space and the controls 9..13. *)
Definition isSpaceChar (c : ascii) : bool :=
  (Nat.eqb (code c) 32 || (Nat.leb 9 (code c) && Nat.leb (code c) 13))%nat.

(** [\w] is [A-Za-z0-9_]. *)
Definition isWordChar (c : ascii) : bool :=
  isUpperChar c || isLowerChar c || isDigitChar c || Nat.eqb (code c) 95.

Definition toUpperChar (c : ascii) : ascii :=
  if isLowerChar c then ascii_of_nat (code c - 32) else c.

Definition toLowerChar (c : ascii) : ascii :=
  if isUpperChar c then ascii_of_nat (code c + 32) else c.

Fixpoint mapString (f : ascii -> ascii) (s : string) : string :=
  match s with
  | EmptyString => EmptyString
  | String c r => String (f c) (mapString f r)
  end.

Definition toUpperCase : string -> string := mapString toUpperChar.
Definition toLowerCase : string -> string := mapString toLowerChar.

(** [s.charAt(0)]: the first character as a string, or the empty string. *)
Definition charAt0 (s : string) : string :=
  match s with
  | EmptyString => EmptyString
  | String c _ => String c EmptyString
  end.

(** [s.slice(1)]. *)
Definition slice1 (s : string) : string :=
  match s with
  | EmptyString => EmptyString
  | String _ r => r
  end.

Fixpoint trimStart (s : string) : string :=
  match s with
  | EmptyString => EmptyString
  | String c r => if isSpaceChar c then trimStart r else s
  end.

Fixpoint rev (s : string) : string :=
  match s with
  | EmptyString => EmptyString
  | String c r => rev r ++ String c EmptyString
  end.

Definition trimEnd (s : string) : string := rev (trimStart (rev s)).

Definition trim (s : string) : string := trimEnd (trimStart s).

(** [s.split(sep)] for a one-character separator. *)
Fixpoint split (sep : ascii) (s : string) : list string :=
  match s with
  | EmptyString => [EmptyString]
  | String c r =>
      if Ascii.eqb c sep then EmptyString :: split sep r
      else match split sep r with
           | h :: t => String c h :: t
           | [] => [String c EmptyString]
           end
  end.

(** Truthiness of the values that the controllers test with [if (x)],
    [!x] or [a || b]: [undefined] is [None]. *)
Definition truthyString (v : option string) : bool :=
  match v with
  | Some s => negb (String.eqb s EmptyString)
  | None => false
  end.

Definition truthyNumber (v : option Z) : bool :=
  match v with
  | Some n => negb (n =? 0)
  | None => false
  end.

(** Destructuring default [{ x = d } = obj]: the default replaces
    [undefined] only. *)
Definition orDefault {A : Type} (v : option A) (d : A) : A :=
  match v with
  | Some a => a
  | None => d
  end.

(** [Math.ceil(a / b)] for integers and [b <> 0]: the floor of [-a / b],
    negated. *)
Definition ceilDiv (a b : Z) : Z := - ((- a) / b).

End JS.

(* ================================================================== *)
(** ** A matcher for the anchored regular expressions of the schema *)

Module Regex.

Inductive re : Type :=
| Rnone
| Reps
| Rchr (p : ascii -> bool)
| Rseq (a b : re)
| Ralt (a b : re)
| Rstar (a : re).

Fixpoint nullable (r : re) : bool :=
  match r with
  | Rnone => false
  | Reps => true
  | Rchr _ => false
  | Rseq a b => nullable a && nullable b
  | Ralt a b => nullable a || nullable b
  | Rstar _ => true
  end.

Definition mkseq (a b : re) : re :=
  match a, b with
  | Rnone, _ => Rnone
  | _, Rnone => Rnone
  | Reps, _ => b
  | _, Reps => a
  | _, _ => Rseq a b
  end.

Definition mkalt (a b : re) : re :=
  match a, b with
  | Rnone, _ => b
  | _, Rnone => a
  | _, _ => Ralt a b
  end.

Fixpoint deriv (c : ascii) (r : re) : re :=
  match r with
  | Rnone => Rnone
  | Reps => Rnone
  | Rchr p => if p c then Reps else Rnone
  | Rseq a b =>
      mkalt (mkseq (deriv c a) b) (if nullable a then deriv c b else Rnone)
  | Ralt a b => mkalt (deriv c a) (deriv c b)
  | Rstar a => mkseq (deriv c a) (Rstar a)
  end.

(** [/^r$/.test(s)] *)
Fixpoint test (r : re) (s : string) : bool :=
  match s with
  | EmptyString => nullable r
  | String c t => test (deriv c r) t
  end.

Definition plus (r : re) : re := Rseq r (Rstar r).
Definition opt (r : re) : re := Ralt Reps r.

Fixpoint times (n : nat) (r : re) : re :=
  match n with
  | O => Reps
  | S k => Rseq r (times k r)
  end.

Fixpoint upto (n : nat) (r : re) : re :=
  match n with
  | O => Reps
  | S k => Ralt Reps (Rseq r (upto k r))
  end.

(** [r{lo,hi}] *)
Definition between (lo hi : nat) (r : re) : re :=
  Rseq (times lo r) (upto (hi - lo) r).

Definition chr (c : ascii) : re := Rchr (Ascii.eqb c).
Definition word : re := Rchr JS.isWordChar.

End Regex.

(* ================================================================== *)
(** ** Results of fallible calls and replies of request handlers *)

(** A thrown JavaScript error: its [name] and its [message]. *)
Record Error : Type := mkError
  { errorName : string;
    message : string }.

(** [new Error(message)] *)
Definition newError (m : string) : Error := mkError "Error" m.

(** Errors of the libraries; only their names matter to the sources. *)
Definition ValidationError : Error := mkError "ValidationError" "Validation failed".
Definition RegExpSyntaxError : Error := mkError "SyntaxError" "Invalid regular expression".
Definition StoreError : Error := mkError "MongoServerError" "Command failed".

Inductive Result (A : Type) : Type :=
| Ok (a : A)
| Throw (e : Error).
Arguments Ok {A} a.
Arguments Throw {A} e.

Definition bind {A B : Type} (m : Result A) (k : A -> Result B) : Result B :=
  match m with
  | Ok a => k a
  | Throw e => Throw e
  end.

Notation "'let*' x ':=' m 'in' k" := (bind m (fun x => k))
  (at level 10, x name, m at level 100, k at level 200).

(** [res.status(code).json({success, message, data})], or [next(error)]. *)
Inductive Reply (A : Type) : Type :=
| Json (code : Z) (success : bool) (message : option string) (data : option A)
| Next (e : Error).
Arguments Json {A} code success message data.
Arguments Next {A} e.

Definition NotFound {A : Type} : Reply A :=
  Json 404 false (Some "Car not found") None.

(* ================================================================== *)
(** ** The Car schema (src/models/Car.js) *)

(** A request's [:id], already cast to an ObjectId; the cast failure of a
    malformed id string happens inside the driver and is not modelled. *)
Definition ObjectId : Type := N.

(** Nested objects: a stored document or a request body may lack any key. *)
Record Location : Type := mkLocation
  { city : option string;
    state : option string;
    country : option string }.

Record Seller : Type := mkSeller
  { name : option string;
    phone : option string;
    email : option string }.

Record Image : Type := mkImage
  { url : option string;
    alt : option string }.

Record Car : Type := mkCar
  { _id : ObjectId;
    make : string;
    model : string;
    year : Z;
    price : Z;
    mileage : Z;
    fuelType : string;
    transmission : string;
    bodyType : string;
    color : string;
    description : option string;
    features : list string;
    images : list Image;
    location : Location;
    seller : Seller;
    status : string;
    isActive : bool;
    viewCount : Z;
    createdAt : Z;
    updatedAt : Z }.

(** [req.body] as the route hands it to the controller: the value produced
    by [validateRequest(carValidationSchema)] with [stripUnknown], so only
    these keys can occur; every key is optional in the type. *)
Module Body.
Record t : Type := mk
  { make : option string;
    model : option string;
    year : option Z;
    price : option Z;
    mileage : option Z;
    fuelType : option string;
    transmission : option string;
    bodyType : option string;
    color : option string;
    description : option string;
    features : option (list string);
    images : option (list Image);
    location : option Location;
    seller : option Seller;
    status : option string }.

Definition empty : t :=
  mk None None None None None None None None None None None None None None None.
End Body.

Module Schema.

Definition phonePattern : Regex.re :=
  Regex.Rseq (Regex.opt (Regex.chr "+"))
    (Regex.between 10 15
       (Regex.Rchr (fun c =>
          JS.isDigitChar c || JS.isSpaceChar c || Ascii.eqb c "-"
          || Ascii.eqb c "(" || Ascii.eqb c ")"))).

Definition dotOrDash : Regex.re :=
  Regex.Rchr (fun c => Ascii.eqb c "." || Ascii.eqb c "-").

Definition wordRun : Regex.re :=
  Regex.Rseq (Regex.plus Regex.word)
    (Regex.Rstar (Regex.Rseq (Regex.opt dotOrDash) (Regex.plus Regex.word))).

Definition emailPattern : Regex.re :=
  Regex.Rseq wordRun
    (Regex.Rseq (Regex.chr "@")
       (Regex.Rseq wordRun
          (Regex.plus
             (Regex.Rseq (Regex.chr ".") (Regex.between 2 3 Regex.word))))).

Definition fuelTypes : list string :=
  ["petrol"; "diesel"; "electric"; "hybrid"; "cng"; "lpg"].
Definition transmissions : list string := ["manual"; "automatic"; "cvt"].
Definition bodyTypes : list string :=
  ["sedan"; "hatchback"; "suv"; "coupe"; "convertible"; "wagon"; "pickup"; "van"].
Definition statuses : list string := ["available"; "sold"; "reserved"].

Definition oneOf (vs : list string) (s : string) : bool :=
  existsb (String.eqb s) vs.

Definition nonEmpty (s : string) : bool := negb (String.eqb s EmptyString).

Definition maxlength (n : nat) (s : string) : bool :=
  Nat.leb (String.length s) n.

Definition inRange (lo hi v : Z) : bool := (lo <=? v) && (v <=? hi).

(** A validator on an optional path passes when the path is absent. *)
Definition whenPresent {A : Type} (p : A -> bool) (v : option A) : bool :=
  match v with
  | Some a => p a
  | None => true
  end.

Definition present {A : Type} (v : option A) : bool :=
  match v with
  | Some _ => true
  | None => false
  end.

(** The [match] validator lets the empty string through. *)
Definition matchOrEmpty (r : Regex.re) (s : string) : bool :=
  String.eqb s EmptyString || Regex.test r s.

(** Setters: [trim: true], [lowercase: true]. *)
Definition trimmed (v : option string) : option string := option_map JS.trim v.
Definition lowered (v : option string) : option string :=
  option_map (fun s => JS.toLowerCase (JS.trim s)) v.
Definition lowerOnly (v : option string) : option string :=
  option_map JS.toLowerCase v.

Definition castLocation (l : Location) : Location :=
  mkLocation (trimmed (city l)) (trimmed (state l)) (trimmed (country l)).

Definition castSeller (s : Seller) : Seller :=
  mkSeller (trimmed (name s)) (trimmed (phone s)) (lowered (email s)).

Definition castImage (i : Image) : Image :=
  mkImage (trimmed (url i)) (trimmed (alt i)).

(** Casting of an object against the schema: every present string goes
    through the setters of its path. *)
Definition cast (b : Body.t) : Body.t :=
  Body.mk
    (trimmed (Body.make b))
    (trimmed (Body.model b))
    (Body.year b)
    (Body.price b)
    (Body.mileage b)
    (lowerOnly (Body.fuelType b))
    (lowerOnly (Body.transmission b))
    (lowerOnly (Body.bodyType b))
    (trimmed (Body.color b))
    (trimmed (Body.description b))
    (option_map (map JS.trim) (Body.features b))
    (option_map (map castImage) (Body.images b))
    (option_map castLocation (Body.location b))
    (option_map castSeller (Body.seller b))
    (Body.status b).

Definition validLocation (l : Location) : bool :=
  whenPresent (fun s => nonEmpty s && maxlength 50 s) (city l)
  && whenPresent (fun s => nonEmpty s && maxlength 50 s) (state l)
  && whenPresent (fun s => nonEmpty s && maxlength 50 s) (country l).

Definition validSeller (s : Seller) : bool :=
  whenPresent (fun v => nonEmpty v && maxlength 100 v) (name s)
  && whenPresent (fun v => nonEmpty v && Regex.test phonePattern v) (phone s)
  && whenPresent (matchOrEmpty emailPattern) (email s).

Definition validImage (i : Image) : bool :=
  whenPresent nonEmpty (url i) && whenPresent (maxlength 200) (alt i).

Section Validators.
(** [new Date().getFullYear() + 1], evaluated when the schema is built. *)
Variable nextYear : Z.

(** The validators of the paths that an object sets. *)
Definition validPaths (b : Body.t) : bool :=
  whenPresent (fun s => nonEmpty s && maxlength 50 s) (Body.make b)
  && whenPresent (fun s => nonEmpty s && maxlength 50 s) (Body.model b)
  && whenPresent (inRange 1900 nextYear) (Body.year b)
  && whenPresent (inRange 0 10000000) (Body.price b)
  && whenPresent (inRange 0 1000000) (Body.mileage b)
  && whenPresent (oneOf fuelTypes) (Body.fuelType b)
  && whenPresent (oneOf transmissions) (Body.transmission b)
  && whenPresent (oneOf bodyTypes) (Body.bodyType b)
  && whenPresent (fun s => nonEmpty s && maxlength 30 s) (Body.color b)
  && whenPresent (maxlength 1000) (Body.description b)
  && whenPresent (forallb (maxlength 100)) (Body.features b)
  && whenPresent (forallb validImage) (Body.images b)
  && whenPresent validLocation (Body.location b)
  && whenPresent validSeller (Body.seller b)
  && whenPresent (oneOf statuses) (Body.status b).

(** The [required] paths of a new document; [location.country] and
    [status] have defaults and every image needs its [url]. *)
Definition requiredPaths (b : Body.t) : bool :=
  present (Body.make b) && present (Body.model b) && present (Body.year b)
  && present (Body.price b) && present (Body.mileage b)
  && present (Body.fuelType b) && present (Body.transmission b)
  && present (Body.bodyType b) && present (Body.color b)
  && match Body.location b with
     | Some l => present (city l) && present (state l)
     | None => false
     end
  && match Body.seller b with
     | Some s => present (name s) && present (phone s)
     | None => false
     end
  && whenPresent (forallb (fun i => present (url i))) (Body.images b).
End Validators.

(** The pre-save hook's expression
    [s.charAt(0).toUpperCase() + s.slice(1).toLowerCase()]. *)
Definition capitalize (s : string) : string :=
  JS.toUpperCase (JS.charAt0 s) ++ JS.toLowerCase (JS.slice1 s).

(** [carSchema.pre('save', ...)]: runs on [save]/[create] only. *)
Definition preSave (c : Car) : Car :=
  mkCar (_id c)
    (if JS.truthyString (Some (make c)) then capitalize (make c) else make c)
    (if JS.truthyString (Some (model c)) then capitalize (model c) else model c)
    (year c) (price c) (mileage c) (fuelType c) (transmission c)
    (bodyType c) (color c) (description c) (features c) (images c)
    (location c) (seller c) (status c) (isActive c) (viewCount c)
    (createdAt c) (updatedAt c).

(** Defaults of a new document: [location.country], [status],
    [isActive], [viewCount]; arrays start empty. *)
Definition withCountryDefault (l : Location) : Location :=
  mkLocation (city l) (state l) (Some (JS.orDefault (country l) "India")).

Definition emptyLocation : Location := mkLocation None None (Some "India").
Definition emptySeller : Seller := mkSeller None None None.

(** The document that [new Car(obj)] holds once [obj] is cast. *)
Definition newDocument (oid : ObjectId) (b : Body.t) : Car :=
  mkCar oid
    (JS.orDefault (Body.make b) "")
    (JS.orDefault (Body.model b) "")
    (JS.orDefault (Body.year b) 0)
    (JS.orDefault (Body.price b) 0)
    (JS.orDefault (Body.mileage b) 0)
    (JS.orDefault (Body.fuelType b) "")
    (JS.orDefault (Body.transmission b) "")
    (JS.orDefault (Body.bodyType b) "")
    (JS.orDefault (Body.color b) "")
    (Body.description b)
    (JS.orDefault (Body.features b) [])
    (JS.orDefault (Body.images b) [])
    (withCountryDefault (JS.orDefault (Body.location b) emptyLocation))
    (JS.orDefault (Body.seller b) emptySeller)
    (JS.orDefault (Body.status b) "available")
    true 0 0 0.

(** [timestamps: true] on insertion. *)
Definition stampCreated (now : Z) (c : Car) : Car :=
  mkCar (_id c) (make c) (model c) (year c) (price c) (mileage c)
    (fuelType c) (transmission c) (bodyType c) (color c) (description c)
    (features c) (images c) (location c) (seller c) (status c)
    (isActive c) (viewCount c) now now.

(** [timestamps: true] on any update through the model. *)
Definition stampUpdated (now : Z) (c : Car) : Car :=
  mkCar (_id c) (make c) (model c) (year c) (price c) (mileage c)
    (fuelType c) (transmission c) (bodyType c) (color c) (description c)
    (features c) (images c) (location c) (seller c) (status c)
    (isActive c) (viewCount c) (createdAt c) now.

(** [$set] of the keys that the cast update object carries: a present
    top-level key replaces the stored value (nested objects as a
    whole), an absent key leaves it. *)
Definition applySet (b : Body.t) (c : Car) : Car :=
  mkCar (_id c)
    (JS.orDefault (Body.make b) (make c))
    (JS.orDefault (Body.model b) (model c))
    (JS.orDefault (Body.year b) (year c))
    (JS.orDefault (Body.price b) (price c))
    (JS.orDefault (Body.mileage b) (mileage c))
    (JS.orDefault (Body.fuelType b) (fuelType c))
    (JS.orDefault (Body.transmission b) (transmission c))
    (JS.orDefault (Body.bodyType b) (bodyType c))
    (JS.orDefault (Body.color b) (color c))
    (match Body.description b with Some d => Some d | None => description c end)
    (JS.orDefault (Body.features b) (features c))
    (JS.orDefault (Body.images b) (images c))
    (JS.orDefault (Body.location b) (location c))
    (JS.orDefault (Body.seller b) (seller c))
    (JS.orDefault (Body.status b) (status c))
    (isActive c) (viewCount c) (createdAt c) (updatedAt c).

(** [{ $inc: { viewCount: 1 } }] *)
Definition incViewCount (c : Car) : Car :=
  mkCar (_id c) (make c) (model c) (year c) (price c) (mileage c)
    (fuelType c) (transmission c) (bodyType c) (color c) (description c)
    (features c) (images c) (location c) (seller c) (status c)
    (isActive c) (viewCount c + 1) (createdAt c) (updatedAt c).

(** [{ isActive: false }] *)
Definition setInactive (c : Car) : Car :=
  mkCar (_id c) (make c) (model c) (year c) (price c) (mileage c)
    (fuelType c) (transmission c) (bodyType c) (color c) (description c)
    (features c) (images c) (location c) (seller c) (status c)
    false (viewCount c) (createdAt c) (updatedAt c).

End Schema.


(* ================================================================== *)
(** ** The document store: queries, updates and aggregation *)

(** A [RegExp] object: its source and what it matches.  The objects are
    made by the JavaScript runtime, see [RegExpEngine] below. *)
Record RegExp : Type := mkRegExp
  { source : string;
    test : string -> bool }.

(** [new RegExp(p, 'i')] either throws a SyntaxError ([None]) or returns
    an object that searches its subject for [p], ignoring case. *)
Definition RegExpEngine : Type := string -> option RegExp.

Module Store.

(** The [cars] collection, in insertion order. *)
Definition t : Type := list Car.

Inductive Value : Type :=
| VBool (b : bool)
| VStr (s : string)
| VNum (n : Z)
| VMissing.

Definition valueEqb (a b : Value) : bool :=
  match a, b with
  | VBool x, VBool y => Bool.eqb x y
  | VStr x, VStr y => String.eqb x y
  | VNum x, VNum y => x =? y
  | _, _ => false
  end.

(** The right-hand sides that the controllers put into a filter. *)
Inductive Cond : Type :=
| Eq (v : Value)                 (* path: v *)
| RegExpI (re : RegExp)          (* path: new RegExp(pattern, 'i') *)
| Range (gte lte : option Z).    (* path: { $gte, $lte }, keys optional *)

(** A filter object: keys in assignment order, all of them must hold. *)
Definition Filter : Type := list (string * Cond).

Definition ofText (v : option string) : Value :=
  match v with
  | Some s => VStr s
  | None => VMissing
  end.

Definition getPath (p : string) (c : Car) : Value :=
  if String.eqb p "isActive" then VBool (isActive c)
  else if String.eqb p "status" then VStr (status c)
  else if String.eqb p "make" then VStr (make c)
  else if String.eqb p "model" then VStr (model c)
  else if String.eqb p "price" then VNum (price c)
  else if String.eqb p "year" then VNum (year c)
  else if String.eqb p "mileage" then VNum (mileage c)
  else if String.eqb p "fuelType" then VStr (fuelType c)
  else if String.eqb p "transmission" then VStr (transmission c)
  else if String.eqb p "bodyType" then VStr (bodyType c)
  else if String.eqb p "viewCount" then VNum (viewCount c)
  else if String.eqb p "createdAt" then VNum (createdAt c)
  else if String.eqb p "updatedAt" then VNum (updatedAt c)
  else if String.eqb p "location.city" then ofText (city (location c))
  else if String.eqb p "location.state" then ofText (state (location c))
  else if String.eqb p "seller.name" then ofText (name (seller c))
  else if String.eqb p "seller.email" then ofText (email (seller c))
  else VMissing.

Definition lookup (p : string) (f : Filter) : option Cond :=
  option_map snd (find (fun kv => String.eqb (fst kv) p) f).

(** An operator object without operators is the empty document, which
    no number equals. *)
Definition holds (k : Cond) (v : Value) : bool :=
  match k with
  | Eq w => valueEqb v w
  | RegExpI re =>
      match v with
      | VStr s => test re s
      | _ => false
      end
  | Range None None => false
  | Range lo hi =>
      match v with
      | VNum n =>
          Schema.whenPresent (fun b => b <=? n) lo
          && Schema.whenPresent (fun b => n <=? b) hi
      | _ => false
      end
  end.

Definition matches (f : Filter) (c : Car) : bool :=
  forallb (fun kv => holds (snd kv) (getPath (fst kv) c)) f.

(** [Car.find(filter)] *)
Definition find (f : Filter) (st : t) : list Car := filter (matches f) st.

(** [Car.countDocuments(filter)] *)
Definition countDocuments (f : Filter) (st : t) : Z :=
  Z.of_nat (List.length (find f st)).

(** [.sort('field')] / [.sort('-field')] on the numeric paths. *)
Definition descending (sort : string) : bool :=
  match sort with
  | String "-" _ => true
  | _ => false
  end.

Definition sortField (sort : string) : string :=
  if descending sort then JS.slice1 sort else sort.

Definition sortKey (field : string) (c : Car) : Z :=
  match getPath field c with
  | VNum n => n
  | _ => 0
  end.

Section Sorting.
Context {A : Type}.
Variable before : A -> A -> bool.

Fixpoint insert (x : A) (l : list A) : list A :=
  match l with
  | [] => [x]
  | y :: r => if before x y then x :: l else y :: insert x r
  end.

(** A stable sort: equal keys keep their collection order. *)
Definition sortBy (l : list A) : list A := fold_right insert [] l.
End Sorting.

Definition sort (s : string) (l : list Car) : list Car :=
  let key := sortKey (sortField s) in
  if descending s then sortBy (fun a b => key b <=? key a) l
  else sortBy (fun a b => key a <=? key b) l.

(** [.skip(n)]: the server rejects a negative skip. *)
Definition skip (n : Z) (l : list Car) : Result (list Car) :=
  if n <? 0 then Throw StoreError else Ok (skipn (Z.to_nat n) l).

(** [.limit(n)]: zero means no limit, a negative [n] caps at [-n]. *)
Definition limit (n : Z) (l : list Car) : list Car :=
  if n =? 0 then l else firstn (Z.to_nat (Z.abs n)) l.

(** [Car.findById(id)] *)
Definition findById (id : ObjectId) (st : t) : option Car :=
  List.find (fun c => N.eqb (_id c) id) st.

(** The write half of [findByIdAndUpdate]: the first document with this
    id is replaced by its image under [f]. *)
Fixpoint modify (id : ObjectId) (f : Car -> Car) (st : t) : t :=
  match st with
  | [] => []
  | c :: r => if N.eqb (_id c) id then f c :: r else c :: modify id f r
  end.

End Store.

(* ================================================================== *)
(** ** The model's write operations, as the controllers call them *)

Module Model.

Section Writes.
Variable nextYear : Z.

(** [Car.create(obj)] with the driver's fresh [oid]: cast and defaults,
    validation, pre-save hook and timestamps, then the insertion, which
    fails on a duplicate key. *)
Definition create (oid : ObjectId) (now : Z) (obj : Body.t) (st : Store.t)
  : Result (Car * Store.t) :=
  let b := Schema.cast obj in
  if Schema.requiredPaths b && Schema.validPaths nextYear b then
    match Store.findById oid st with
    | Some _ => Throw StoreError
    | None =>
        let doc :=
          Schema.stampCreated now (Schema.preSave (Schema.newDocument oid b)) in
        Ok (doc, (st ++ [doc])%list)
    end
  else Throw ValidationError.

(** [Car.findByIdAndUpdate(id, update, { new: true, runValidators: true })]:
    the update object is cast and its paths validated; no save hook
    runs; the document after the update is returned. *)
Definition findByIdAndUpdate (id : ObjectId) (now : Z) (update : Body.t)
    (st : Store.t) : Result (option Car * Store.t) :=
  let b := Schema.cast update in
  if Schema.validPaths nextYear b then
    let st' :=
      Store.modify id (fun c => Schema.stampUpdated now (Schema.applySet b c)) st in
    Ok (Store.findById id st', st')
  else Throw ValidationError.
End Writes.

(** [Car.findByIdAndUpdate(id, { $inc: { viewCount: 1 } })] *)
Definition incrementViews (id : ObjectId) (now : Z) (st : Store.t) : Store.t :=
  Store.modify id (fun c => Schema.stampUpdated now (Schema.incViewCount c)) st.

(** [Car.findByIdAndUpdate(id, { isActive: false })] *)
Definition deactivate (id : ObjectId) (now : Z) (st : Store.t) : Store.t :=
  Store.modify id (fun c => Schema.stampUpdated now (Schema.setInactive c)) st.

End Model.

(* ================================================================== *)
(** ** Aggregation stages used by getCarStats *)

Module Overview.
Record t : Type := mk
  { totalCars : Z;
    avgPrice : Q;
    minPrice : Z;
    maxPrice : Z;
    avgYear : Q;
    avgMileage : Q }.
End Overview.

Module Group.
(** One output document of a [$group] stage with [$sum: 1] and [$avg]. *)
Record t : Type := mk
  { _id : string;
    count : Z;
    avgPrice : Q }.
End Group.

Module Aggregate.

(** [{ $match: { isActive: true, status: 'available' } }] *)
Definition matchStage : Store.Filter :=
  [("isActive", Store.Eq (Store.VBool true));
   ("status", Store.Eq (Store.VStr "available"))].

Definition sum (f : Car -> Z) (docs : list Car) : Z :=
  fold_right Z.add 0 (map f docs).

(** [$avg]: the exact quotient; rounding to a double is not modelled. *)
Definition average (total n : Z) : Q := (inject_Z total / inject_Z n)%Q.

Definition least (f : Car -> Z) (docs : list Car) : Z :=
  match docs with
  | [] => 0
  | c :: r => fold_left Z.min (map f r) (f c)
  end.

Definition greatest (f : Car -> Z) (docs : list Car) : Z :=
  match docs with
  | [] => 0
  | c :: r => fold_left Z.max (map f r) (f c)
  end.

(** [$group] with [_id: null]: one document, none on empty input. *)
Definition groupAll (docs : list Car) : list Overview.t :=
  match docs with
  | [] => []
  | _ =>
      let n := Z.of_nat (List.length docs) in
      [Overview.mk n (average (sum price docs) n)
         (least price docs) (greatest price docs)
         (average (sum year docs) n) (average (sum mileage docs) n)]
  end.

(** Accumulator of one group: its key, [$sum: 1] and the running total
    behind [$avg]. *)
Record Acc : Type := mkAcc
  { key : string;
    seen : Z;
    total : Z }.

Fixpoint accumulate (k : string) (v : Z) (g : list Acc) : list Acc :=
  match g with
  | [] => [mkAcc k 1 v]
  | a :: r =>
      if String.eqb (key a) k then mkAcc k (seen a + 1) (total a + v) :: r
      else a :: accumulate k v r
  end.

Definition accumulateAll (path : Car -> string) (val : Car -> Z)
    (docs : list Car) : list Acc :=
  fold_left (fun g c => accumulate (path c) (val c) g) docs [].

Definition emit (a : Acc) : Group.t :=
  Group.mk (key a) (seen a) (average (total a) (seen a)).

(** [$group] by a string path, groups in order of first occurrence. *)
Definition groupBy (path : Car -> string) (val : Car -> Z) (docs : list Car)
  : list Group.t :=
  map emit (accumulateAll path val docs).

(** [{ $sort: { count: -1 } }] *)
Definition sortByCountDesc (gs : list Group.t) : list Group.t :=
  Store.sortBy (fun a b => Group.count b <=? Group.count a) gs.

(** [{ $limit: n }] *)
Definition limit (n : nat) (gs : list Group.t) : list Group.t := firstn n gs.

End Aggregate.

(* ================================================================== *)
(** ** Requests and response payloads *)

(** Modelled from the spec: the User document (src/models/User.js is not
    among the sources), with the fields that the middleware and the
    controllers read. *)
Module User.
Record t : Type := mk
  { _id : string;
    username : string;
    email : string;
    role : string;
    isActive : bool }.
End User.

(** [req.validatedQuery]: the value of [validateQuery(carQuerySchema)],
    numbers already converted; an absent key is [undefined]. *)
Module Query.
Record t : Type := mk
  { page : option Z;
    limit : option Z;
    sort : option string;
    make : option string;
    model : option string;
    minPrice : option Z;
    maxPrice : option Z;
    minYear : option Z;
    maxYear : option Z;
    fuelType : option string;
    transmission : option string;
    bodyType : option string;
    city : option string;
    state : option string;
    status : option string }.

Definition empty : t :=
  mk None None None None None None None None None None None None None None None.
End Query.

Module Pagination.
Record t : Type := mk
  { page : Z;
    limit : Z;
    total : Z;
    totalPages : Z;
    hasNext : bool;
    hasPrev : bool }.
End Pagination.

(** The body of getCars' 200 response. *)
Module Listing.
Record t : Type := mk
  { count : Z;
    pagination : Pagination.t;
    data : list Car }.
End Listing.

(** One output document of the fuel-type [$group], which only counts. *)
Module Tally.
Record t : Type := mk
  { _id : string;
    count : Z }.
End Tally.

(** The [data] of getCarStats' response; [overview = None] is [{}]. *)
Module Stats.
Record t : Type := mk
  { overview : option Overview.t;
    topMakes : list Group.t;
    fuelTypeDistribution : list Tally.t }.
End Stats.

(* ================================================================== *)
(** ** src/controllers/carController.js *)

Module CarController.

Import Store.

Section Controllers.
(** The runtime's [RegExp] constructor and the schema's year bound. *)
Variable engine : RegExpEngine.
Variable nextYear : Z.

(** [if (v) filter[path] = new RegExp(v, 'i')] *)
Definition setRegExp (path : string) (v : option string) (f : Filter)
  : Result Filter :=
  match v with
  | Some p =>
      if JS.truthyString v then
        match engine p with
        | Some re => Ok (f ++ [(path, RegExpI re)])%list
        | None => Throw RegExpSyntaxError
        end
      else Ok f
  | None => Ok f
  end.

(** [if (lo || hi) { filter[path] = {}; if (lo) ...$gte = Number(lo);
    if (hi) ...$lte = Number(hi); }] *)
Definition setRange (path : string) (lo hi : option Z) (f : Filter) : Filter :=
  if JS.truthyNumber lo || JS.truthyNumber hi then
    (f ++ [(path, Range (if JS.truthyNumber lo then lo else None)
                        (if JS.truthyNumber hi then hi else None))])%list
  else f.

(** [if (v) filter[path] = v] *)
Definition setExact (path : string) (v : option string) (f : Filter) : Filter :=
  match v with
  | Some s => if JS.truthyString v then (f ++ [(path, Eq (VStr s))])%list else f
  | None => f
  end.

(** Lines 31-50: the filter object of getCars. *)
Definition buildFilter (q : Query.t) : Result Filter :=
  let status := JS.orDefault (Query.status q) "available" in
  let f := [("isActive", Eq (VBool true)); ("status", Eq (VStr status))] in
  let* f := setRegExp "make" (Query.make q) f in
  let* f := setRegExp "model" (Query.model q) f in
  let f := setRange "price" (Query.minPrice q) (Query.maxPrice q) f in
  let f := setRange "year" (Query.minYear q) (Query.maxYear q) f in
  let f := setExact "fuelType" (Query.fuelType q) f in
  let f := setExact "transmission" (Query.transmission q) f in
  let f := setExact "bodyType" (Query.bodyType q) f in
  let* f := setRegExp "location.city" (Query.city q) f in
  let* f := setRegExp "location.state" (Query.state q) f in
  Ok f.

Definition getCars (q : Query.t) (st : Store.t) : Reply Listing.t :=
  let page := JS.orDefault (Query.page q) 1 in
  let limit := JS.orDefault (Query.limit q) 10 in
  let sort := JS.orDefault (Query.sort q) "-createdAt" in
  let result :=
    let* filter := buildFilter q in
    let skip := (page - 1) * limit in
    let* rest := Store.skip skip (Store.sort sort (Store.find filter st)) in
    let cars := Store.limit limit rest in
    let total := Store.countDocuments filter st in
    let totalPages := JS.ceilDiv total limit in
    Ok (Listing.mk (Z.of_nat (List.length cars))
          (Pagination.mk page limit total totalPages
             (page <? totalPages) (1 <? page))
          cars) in
  match result with
  | Ok body => Json 200 true None (Some body)
  | Throw e => Next e
  end.

Definition getCar (id : ObjectId) (now : Z) (st : Store.t)
  : Reply Car * Store.t :=
  match Store.findById id st with
  | None => (NotFound, st)
  | Some car =>
      if negb (isActive car) then (NotFound, st)
      else (Json 200 true None (Some car), Model.incrementViews id now st)
  end.

(** [{ ...req.body, seller: { ...req.body.seller, email: req.user.email } }] *)
Definition carData (user : User.t) (body : Body.t) : Body.t :=
  let s := JS.orDefault (Body.seller body) Schema.emptySeller in
  Body.mk (Body.make body) (Body.model body) (Body.year body)
    (Body.price body) (Body.mileage body) (Body.fuelType body)
    (Body.transmission body) (Body.bodyType body) (Body.color body)
    (Body.description body) (Body.features body) (Body.images body)
    (Body.location body)
    (Some (mkSeller (name s) (phone s) (Some (User.email user))))
    (Body.status body).

Definition createCar (user : User.t) (body : Body.t) (oid : ObjectId)
    (now : Z) (st : Store.t) : Reply Car * Store.t :=
  match Model.create nextYear oid now (carData user body) st with
  | Ok (car, st') =>
      (Json 201 true (Some "Car listing created successfully") (Some car), st')
  | Throw e => (Next e, st)
  end.

Definition updateCar (user : User.t) (id : ObjectId) (body : Body.t)
    (now : Z) (st : Store.t) : Reply Car * Store.t :=
  match Store.findById id st with
  | None => (NotFound, st)
  | Some _ =>
      match Model.findByIdAndUpdate nextYear id now body st with
      | Ok (updatedCar, st') =>
          (Json 200 true (Some "Car listing updated successfully") updatedCar, st')
      | Throw e => (Next e, st)
      end
  end.

Definition deleteCar (user : User.t) (id : ObjectId) (now : Z) (st : Store.t)
  : Reply Car * Store.t :=
  match Store.findById id st with
  | None => (NotFound, st)
  | Some _ =>
      (Json 200 true (Some "Car listing deleted successfully") None,
       Model.deactivate id now st)
  end.
End Controllers.

Definition tally (g : Group.t) : Tally.t :=
  Tally.mk (Group._id g) (Group.count g).

Definition getCarStats (st : Store.t) : Reply Stats.t :=
  let matched := Store.find Aggregate.matchStage st in
  let stats := Aggregate.groupAll matched in
  let makeStats :=
    Aggregate.limit 10
      (Aggregate.sortByCountDesc (Aggregate.groupBy make price matched)) in
  let fuelTypeStats :=
    map tally
      (Aggregate.sortByCountDesc (Aggregate.groupBy fuelType (fun _ => 0) matched)) in
  Json 200 true None
    (Some (Stats.mk (List.hd_error stats) makeStats fuelTypeStats)).

End CarController.

(* ================================================================== *)
(** ** src/utils/jwt.js *)

Module Jwt.

(** The decoded payload; the middleware reads its [id]. *)
Record Payload : Type := mkPayload { id : string }.

(** [jwt.verify(token, process.env.JWT_SECRET, { issuer, audience })]
    of the jsonwebtoken package. *)
Definition Library : Type := string -> Result Payload.

Definition verifyToken (verify : Library) (token : string) : Result Payload :=
  match verify token with
  | Ok decoded => Ok decoded
  | Throw error =>
      if String.eqb (errorName error) "TokenExpiredError" then
        Throw (newError "Token has expired")
      else if String.eqb (errorName error) "JsonWebTokenError" then
        Throw (newError "Invalid token")
      else Throw (newError "Token verification failed")
  end.

Definition extractTokenFromHeader (authHeader : option string) : option string :=
  match authHeader with
  | None => None
  | Some header =>
      if negb (JS.truthyString authHeader) then None
      else
        let parts := JS.split " " header in
        if negb (Nat.eqb (List.length parts) 2)
           || negb (String.eqb (nth 0 parts "") "Bearer")
        then None
        else nth_error parts 1
  end.

End Jwt.

(* ================================================================== *)
(** ** src/middleware/auth.js *)

Module Auth.

(** What a middleware does with the request: it calls [next()], with
    [req.user] as shown ([None]: left unset), or it answers itself. *)
Inductive Outcome : Type :=
| Proceed (user : option User.t)
| Deny (code : Z) (message : string).

Section Middleware.
Variable verify : Jwt.Library.
(** [User.findById(id).select('-password')] *)
Variable findById : string -> Result (option User.t).

(** The part shared by both middlewares: [verifyToken] and the lookup. *)
Definition resolve (token : string) : Result (option User.t) :=
  let* decoded := Jwt.verifyToken verify token in
  findById (Jwt.id decoded).

Definition authenticate (authorization : option string) : Outcome :=
  let token := Jwt.extractTokenFromHeader authorization in
  match token with
  | Some tk =>
      if negb (JS.truthyString token) then
        Deny 401 "Access denied. No token provided."
      else
        match resolve tk with
        | Ok (Some user) =>
            if negb (User.isActive user) then
              Deny 401 "Access denied. User not found or inactive."
            else Proceed (Some user)
        | Ok None => Deny 401 "Access denied. User not found or inactive."
        | Throw error =>
            Deny 401
              (if JS.truthyString (Some (message error)) then message error
               else "Invalid token")
        end
  | None => Deny 401 "Access denied. No token provided."
  end.

Definition optionalAuth (authorization : option string) : Outcome :=
  let token := Jwt.extractTokenFromHeader authorization in
  match token with
  | Some tk =>
      if JS.truthyString token then
        match resolve tk with
        | Ok (Some user) =>
            if User.isActive user then Proceed (Some user) else Proceed None
        | Ok None => Proceed None
        | Throw _ => Proceed None
        end
      else Proceed None
  | None => Proceed None
  end.
End Middleware.

(** [authorize(...roles)] on a request whose [req.user] is [user]. *)
Definition authorize (roles : list string) (user : option User.t) : Outcome :=
  match user with
  | None => Deny 401 "Access denied. Authentication required."
  | Some u =>
      if negb (existsb (String.eqb (User.role u)) roles) then
        Deny 403 "Access denied. Insufficient permissions."
      else Proceed user
  end.

End Auth.

(* ================================================================== *)
(** ** Sample data for the examples *)

Module Sample.

Fixpoint startsWith (p s : string) : bool :=
  match p, s with
  | EmptyString, _ => true
  | String a p', String b s' => Ascii.eqb a b && startsWith p' s'
  | String _ _, EmptyString => false
  end.

Fixpoint includes (p s : string) : bool :=
  startsWith p s
  || match s with
     | EmptyString => false
     | String _ r => includes p r
     end.

(** [RegExp] on patterns without metacharacters: a substring search that
    ignores case. *)
Definition literalEngine : RegExpEngine :=
  fun p =>
    Some (mkRegExp p (fun s => includes (JS.toLowerCase p) (JS.toLowerCase s))).

Definition nextYear : Z := 2026.

Definition mumbai : Location := mkLocation (Some "Mumbai") (Some "Maharashtra") (Some "India").
Definition delhi : Location := mkLocation (Some "Delhi") (Some "Delhi") (Some "India").

Definition swift : Car :=
  mkCar 1%N "Maruti suzuki" "Swift" 2020 600000 25000 "petrol" "manual"
    "hatchback" "White" None [] [] mumbai
    (mkSeller (Some "Test Seller") (Some "+91 98765 43210") (Some "seller@example.com"))
    "available" true 0 1000 1000.

Definition i20 : Car :=
  mkCar 2%N "Hyundai" "I20" 2019 550000 30000 "diesel" "automatic"
    "hatchback" "Blue" None [] [] delhi
    (mkSeller (Some "Another Seller") (Some "+91 87654 32109") None)
    "available" true 0 2000 2000.

(** A soft-deleted listing. *)
Definition ecosport : Car :=
  mkCar 3%N "Ford" "Ecosport" 2017 500000 40000 "diesel" "manual"
    "suv" "White" None [] [] mumbai
    (mkSeller (Some "Ford Seller") (Some "+91 33333 22222") None)
    "available" false 5 3000 4000.

Definition cars : Store.t := [swift; i20; ecosport].

Definition testuser : User.t :=
  User.mk "u1" "testuser" "test@example.com" "user" true.

(** A verifier that knows one good and one expired token. *)
Definition verify : Jwt.Library :=
  fun token =>
    if String.eqb token "good" then Ok (Jwt.mkPayload "u1")
    else if String.eqb token "old" then
      Throw (mkError "TokenExpiredError" "jwt expired")
    else Throw (mkError "JsonWebTokenError" "jwt malformed").

Definition users : string -> Result (option User.t) :=
  fun id => if String.eqb id "u1" then Ok (Some testuser) else Ok None.

Definition camry : Body.t :=
  Body.mk (Some "toyota") (Some "CAMRY") (Some 2021) (Some 1200000)
    (Some 15000) (Some "petrol") (Some "automatic") (Some "sedan")
    (Some "Silver") (Some "Excellent condition")
    (Some ["Air Conditioning"; "Power Steering"])
    (Some [mkImage (Some "https://example.com/car.jpg") (Some "Car image")])
    (Some (mkLocation (Some "Bangalore") (Some "Karnataka") (Some "India")))
    (Some (mkSeller (Some "Car Seller") (Some "+91 99999 88888")
             (Some "someone.else@example.com")))
    (Some "available").

(** [req.validatedQuery] of [GET /api/cars?maxPrice=0], with the defaults
    that [carQuerySchema] fills in. *)
Definition zeroMaxPrice : Query.t :=
  Query.mk (Some 1) (Some 10) (Some "-createdAt") None None None (Some 0)
    None None None None None None None (Some "available").

(** A PUT body that reaches updateCar with its make and model in the
    submitted capitalization and a seller email of the caller's choice. *)
Definition repaint : Body.t :=
  Body.mk (Some "hONDA") (Some "cITY") (Some 2020) (Some 450000) (Some 25000)
    (Some "petrol") (Some "manual") (Some "sedan") (Some "Red")
    (Some "Updated description") None None
    (Some (mkLocation (Some "Chennai") (Some "Tamil Nadu") (Some "India")))
    (Some (mkSeller (Some "Test Seller") (Some "+91 98765 43210")
             (Some "intruder@example.com")))
    (Some "available").

End Sample.

(* ================================================================== *)
(** ** Vocabulary of the specification *)

Module Spec.

Fixpoint allChars (p : ascii -> bool) (s : string) : bool :=
  match s with
  | EmptyString => true
  | String c r => p c && allChars p r
  end.

(** "First letter upper, rest lower": no lower-case letter in front and
    no upper-case letter behind it. *)
Definition capitalized (s : string) : bool :=
  match s with
  | EmptyString => true
  | String c r =>
      negb (JS.isLowerChar c) && allChars (fun d => negb (JS.isUpperChar d)) r
  end.

(** A listing that the default read paths may show. *)
Definition visible (wanted : string) (c : Car) : bool :=
  isActive c && String.eqb (status c) wanted.

(** The inclusive range predicate of the specification; an absent bound
    does not constrain. *)
Definition within (lo hi : option Z) (v : Z) : bool :=
  Schema.whenPresent (fun b => b <=? v) lo
  && Schema.whenPresent (fun b => v <=? b) hi.

Definition noSpace (s : string) : bool :=
  allChars (fun c => negb (Ascii.eqb c " ")) s.

(** The exact two-part form [Bearer <token>] of an Authorization header. *)
Definition twoPartBearer (header : option string) : Prop :=
  exists token : string,
    header = Some ("Bearer " ++ token)
    /\ noSpace token = true
    /\ token <> EmptyString.

(** [parts.join(sep)] *)
Fixpoint join (sep : ascii) (parts : list string) : string :=
  match parts with
  | [] => EmptyString
  | [x] => x
  | x :: r => x ++ String sep (join sep r)
  end.



Definition sumCounts (gs : list Group.t) : Z :=
  fold_right Z.add 0 (map Group.count gs).

(** What a list of accumulators has recorded for one key. *)
Definition seenFor (k : string) (g : list Aggregate.Acc) : Z :=
  fold_right Z.add 0
    (map Aggregate.seen (filter (fun a => String.eqb (Aggregate.key a) k) g)).

Definition totalFor (k : string) (g : list Aggregate.Acc) : Z :=
  fold_right Z.add 0
    (map Aggregate.total (filter (fun a => String.eqb (Aggregate.key a) k) g)).

Definition sumSeen (g : list Aggregate.Acc) : Z :=
  fold_right Z.add 0 (map Aggregate.seen g).

(** The documents whose grouping path has the value [k]. *)
Definition keyed (path : Car -> string) (k : string) (docs : list Car)
  : list Car :=
  filter (fun c => String.eqb (path c) k) docs.

(** A query that carries nothing but price bounds. *)
Definition priceQuery (lo hi : option Z) : Query.t :=
  Query.mk None None None None None lo hi None None None None None None None None.

(** A query that keeps its filter options and gets another page window. *)
Definition withWindow (page limit : option Z) (q : Query.t) : Query.t :=
  Query.mk page limit (Query.sort q) (Query.make q) (Query.model q)
    (Query.minPrice q) (Query.maxPrice q) (Query.minYear q) (Query.maxYear q)
    (Query.fuelType q) (Query.transmission q) (Query.bodyType q)
    (Query.city q) (Query.state q) (Query.status q).

End Spec.

(* ================================================================== *)
(** ** getMyCars (src/controllers/carController.js) *)

(** The body of getMyCars' 200 response. *)
Module Mine.
Record t : Type := mk
  { count : Z;
    data : list Car }.
End Mine.

Module MyCars.

(** The conditions of getMyCars' query: a path against a condition of the
    store, or against [{ $in: [...] }] over strings and [null] ([None]). *)
Inductive Atom : Type :=
| Is (path : string) (k : Store.Cond)
| AnyOf (path : string) (values : list (option string)).

(** [$in]: a string value must be listed; [null] in the list selects the
    documents that lack the path. *)
Definition among (values : list (option string)) (v : Store.Value) : bool :=
  existsb
    (fun x =>
       match x, v with
       | Some s, Store.VStr t => String.eqb t s
       | None, Store.VMissing => true
       | _, _ => false
       end)
    values.

Definition holdsAtom (c : Car) (a : Atom) : bool :=
  match a with
  | Is p k => Store.holds k (Store.getPath p c)
  | AnyOf p values => among values (Store.getPath p c)
  end.

(** [{ ...always, $or: [either_1, either_2, ...] }] *)
Record Query : Type := mkQuery
  { always : list Atom;
    either : list (list Atom) }.

Definition matchesQuery (q : Query) (c : Car) : bool :=
  forallb (holdsAtom c) (always q) && existsb (forallb (holdsAtom c)) (either q).

(** Lines 212-221.  The strings of the query are cast by the setters of
    their paths, like those of any object handed to the model. *)
Definition query (user : User.t) : Query :=
  mkQuery
    [Is "isActive" (Store.Eq (Store.VBool true))]
    [[Is "seller.email"
        (Store.Eq (Store.VStr (JS.toLowerCase (JS.trim (User.email user)))))];
     [AnyOf "seller.email" [Some ""; None];
      Is "seller.name" (Store.Eq (Store.VStr (JS.trim (User.username user))))]].

Definition getMyCars (user : User.t) (st : Store.t) : Reply Mine.t :=
  let cars := Store.sort "-createdAt" (filter (matchesQuery (query user)) st) in
  Json 200 true None (Some (Mine.mk (Z.of_nat (List.length cars)) cars)).

End MyCars.

(* ================================================================== *)
(** ** Sequences of requests to the handlers that write *)

Module Api.

Inductive Call : Type :=
| View (id : ObjectId)                                   (* GET /:id *)
| Create (user : User.t) (body : Body.t) (oid : ObjectId) (* POST / *)
| Update (user : User.t) (id : ObjectId) (body : Body.t)  (* PUT /:id *)
| Delete (user : User.t) (id : ObjectId).                 (* DELETE /:id *)

Section Run.
Variable nextYear : Z.

(** The store after one request, served at time [now]. *)
Definition step (st : Store.t) (request : Call * Z) : Store.t :=
  match request with
  | (View id, now) => snd (CarController.getCar id now st)
  | (Create user body oid, now) =>
      snd (CarController.createCar nextYear user body oid now st)
  | (Update user id body, now) =>
      snd (CarController.updateCar nextYear user id body now st)
  | (Delete user id, now) => snd (CarController.deleteCar user id now st)
  end.

Definition run (requests : list (Call * Z)) (st : Store.t) : Store.t :=
  fold_left step requests st.
End Run.

End Api.

(* ================================================================== *)
(** ** Token issuance (src/utils/jwt.js) *)

Module Tokens.

(** The payload handed to [jwt.sign]; the refresh token carries the id
    alone. *)
Record Claims : Type := mkClaims
  { id : string;
    email : option string;
    username : option string;
    role : option string }.

(** [jwt.sign(payload, process.env.JWT_SECRET, { expiresIn, issuer,
    audience })] of the jsonwebtoken package. *)
Definition Signer : Type := Claims -> string -> Result string.

Section Issue.
Variable sign : Signer.
(** [process.env.JWT_EXPIRES_IN] *)
Variable envExpiresIn : option string.

(** [expiresIn = process.env.JWT_EXPIRES_IN || '7d'] when not given. *)
Definition generateToken (payload : Claims) (expiresIn : option string)
  : Result string :=
  let lifetime :=
    match expiresIn with
    | Some e => e
    | None => if JS.truthyString envExpiresIn then JS.orDefault envExpiresIn "7d"
              else "7d"
    end in
  match sign payload lifetime with
  | Ok token => Ok token
  | Throw _ => Throw (newError "Token generation failed")
  end.

Record Pair : Type := mkPair
  { accessToken : string;
    refreshToken : string;
    expiresIn : Z }.

Definition generateTokens (user : User.t) : Result Pair :=
  let payload :=
    mkClaims (User._id user) (Some (User.email user))
      (Some (User.username user)) (Some (User.role user)) in
  let* accessToken := generateToken payload (Some "15m") in
  let* refreshToken :=
    generateToken (mkClaims (User._id user) None None None) (Some "7d") in
  Ok (mkPair accessToken refreshToken (15 * 60)).
End Issue.

End Tokens.

(* ================================================================== *)
(** ** The query schema and its middleware (utils/validation.js) *)

Module Validation.

Definition sorts : list string :=
  ["price"; "-price"; "year"; "-year"; "mileage"; "-mileage";
   "createdAt"; "-createdAt"].

(** [Joi.string().trim()]: the value is trimmed, the empty string is not
    allowed; an absent key stays absent.  The outer [None] is an error. *)
Definition text (v : option string) : option (option string) :=
  match v with
  | None => Some None
  | Some s =>
      if String.eqb (JS.trim s) EmptyString then None else Some (Some (JS.trim s))
  end.

(** [Joi.string().valid(...)] *)
Definition choice (allowed : list string) (v : option string)
  : option (option string) :=
  match v with
  | None => Some None
  | Some s => if Schema.oneOf allowed s then Some v else None
  end.

(** [Joi.number()] with optional [min] and [max], the number already
    parsed. *)
Definition number (lo hi : option Z) (v : option Z) : option (option Z) :=
  match v with
  | None => Some None
  | Some n => if Spec.within lo hi n then Some v else None
  end.

(** [.default(d)] *)
Definition orElse {A : Type} (d : A) (v : option (option A))
  : option (option A) :=
  match v with
  | Some None => Some (Some d)
  | _ => v
  end.

(** [carQuerySchema.validate(req.query, { abortEarly: false,
    stripUnknown: true })]: the converted value, or [None] when some key
    is in error. *)
Definition carQuerySchema (nextYear : Z) (q : Query.t) : option Query.t :=
  match orElse 1 (number (Some 1) None (Query.page q)),
        orElse 10 (number (Some 1) (Some 100) (Query.limit q)),
        orElse "-createdAt" (choice sorts (Query.sort q)),
        text (Query.make q),
        text (Query.model q),
        number (Some 0) None (Query.minPrice q),
        number (Some 0) None (Query.maxPrice q),
        number (Some 1900) None (Query.minYear q) with
  | Some page, Some limit, Some sort, Some make, Some model,
    Some minPrice, Some maxPrice, Some minYear =>
      match number None (Some nextYear) (Query.maxYear q),
            choice Schema.fuelTypes (Query.fuelType q),
            choice Schema.transmissions (Query.transmission q),
            choice Schema.bodyTypes (Query.bodyType q),
            text (Query.city q),
            text (Query.state q),
            orElse "available" (choice Schema.statuses (Query.status q)) with
      | Some maxYear, Some fuelType, Some transmission, Some bodyType,
        Some city, Some state, Some status =>
          Some (Query.mk page limit sort make model minPrice maxPrice
                  minYear maxYear fuelType transmission bodyType city state
                  status)
      | _, _, _, _, _, _, _ => None
      end
  | _, _, _, _, _, _, _, _ => None
  end.

(** [router.get('/', validateQuery(carQuerySchema), getCars)]: the
    middleware answers 400 itself or hands [req.validatedQuery] on. *)
Definition searchRoute (engine : RegExpEngine) (nextYear : Z)
    (query : Query.t) (st : Store.t) : Reply Listing.t :=
  match carQuerySchema nextYear query with
  | None => Json 400 false (Some "Query validation error") None
  | Some validatedQuery => CarController.getCars engine validatedQuery st
  end.

End Validation.

(* ================================================================== *)
(** ** What a search selects, in the words of the query *)

Module Search.

(** A text option selects the subjects that its RegExp finds a match in;
    an absent or empty option selects everything. *)
Definition pattern (engine : RegExpEngine) (v : option string)
    (subject : option string) : bool :=
  match v with
  | Some p =>
      if JS.truthyString v then
        match engine p, subject with
        | Some re, Some s => test re s
        | _, _ => false
        end
      else true
  | None => true
  end.

(** A range selects by the bounds that are present and not zero. *)
Definition bounds (lo hi : option Z) (n : Z) : bool :=
  Spec.within (if JS.truthyNumber lo then lo else None)
              (if JS.truthyNumber hi then hi else None) n.

(** An enum option selects its exact value. *)
Definition exact (v : option string) (s : string) : bool :=
  match v with
  | Some x => if JS.truthyString v then String.eqb s x else true
  | None => true
  end.

Definition selected (engine : RegExpEngine) (q : Query.t) (c : Car) : bool :=
  Spec.visible (JS.orDefault (Query.status q) "available") c
  && pattern engine (Query.make q) (Some (make c))
  && pattern engine (Query.model q) (Some (model c))
  && bounds (Query.minPrice q) (Query.maxPrice q) (price c)
  && bounds (Query.minYear q) (Query.maxYear q) (year c)
  && exact (Query.fuelType q) (fuelType c)
  && exact (Query.transmission q) (transmission c)
  && exact (Query.bodyType q) (bodyType c)
  && pattern engine (Query.city q) (city (location c))
  && pattern engine (Query.state q) (state (location c)).

(** The patterns that a query hands to [new RegExp]. *)
Definition patterns (q : Query.t) : list string :=
  flat_map
    (fun v => match v with
              | Some p => if JS.truthyString v then [p] else []
              | None => []
              end)
    [Query.make q; Query.model q; Query.city q; Query.state q].


End Search.

(** A signer and a verifier that agree: the token is the id itself, and
    ids with a space, like the empty id, cannot be signed. *)
Module Toy.

Definition sign : Tokens.Signer :=
  fun payload _ =>
    if Spec.noSpace (Tokens.id payload)
       && negb (String.eqb (Tokens.id payload) EmptyString)
    then Ok (Tokens.id payload)
    else Throw (mkError "Error" "secretOrPrivateKey must have a value").

Definition verify : Jwt.Library := fun token => Ok (Jwt.mkPayload token).

End Toy.

(* ================================================================== *)
(** ** What the handlers leave alone *)

Module Frame.

(** A later state [c'] of the record [c]: same id and creation time, no
    fewer views, and not active again once it was inactive. *)
Definition later (c c' : Car) : Prop :=
  _id c' = _id c
  /\ createdAt c' = createdAt c
  /\ viewCount c <= viewCount c'
  /\ (isActive c = false -> isActive c' = false).

(** An update of single records that moves each one to a later state. *)
Definition gentle (f : Car -> Car) : Prop := forall c, later c (f c).

(** The requests that view the record [id] at the given times. *)
Definition views (id : ObjectId) (times : list Z) : list (Api.Call * Z) :=
  map (fun now => (Api.View id, now)) times.

End Frame.

(* ================================================================== *)
(** ** Whose listing a record is *)

Module Ownership.

(** The record carries the user's email (in its stored form). *)
Definition attributed (user : User.t) (c : Car) : bool :=
  match email (seller c) with
  | Some e => String.eqb e (JS.toLowerCase (JS.trim (User.email user)))
  | None => false
  end.

(** The record carries no email and names the user as its seller. *)
Definition legacy (user : User.t) (c : Car) : bool :=
  match email (seller c) with
  | Some e => String.eqb e EmptyString
  | None => true
  end
  && match name (seller c) with
     | Some n => String.eqb n (JS.trim (User.username user))
     | None => false
     end.

Definition listed (user : User.t) (c : Car) : bool :=
  isActive c && (attributed user c || legacy user c).

End Ownership.

(* ================================================================== *)
(** ** Stored documents against the schema's validators *)

Module Stored.

(** A stored document as the object of all its schema paths. *)
Definition asObject (c : Car) : Body.t :=
  Body.mk (Some (make c)) (Some (model c)) (Some (year c)) (Some (price c))
    (Some (mileage c)) (Some (fuelType c)) (Some (transmission c))
    (Some (bodyType c)) (Some (color c)) (description c) (Some (features c))
    (Some (images c)) (Some (location c)) (Some (seller c)) (Some (status c)).

(** The document passes every validator of the schema, [viewCount]'s
    [min: 0] included. *)
Definition valid (nextYear : Z) (c : Car) : bool :=
  Schema.validPaths nextYear (asObject c) && (0 <=? viewCount c).

End Stored.

(* ================================================================== *)
(** ** Reading the statistics *)

Module Figures.

(** The listings of one fuel type. *)
Definition ofFuel (f : string) (docs : list Car) : list Car :=
  filter (fun c => String.eqb (fuelType c) f) docs.

(** The counts of a fuel-type distribution, added up. *)
Definition sumTallies (ts : list Tally.t) : Z :=
  fold_right Z.add 0 (map Tally.count ts).

End Figures.

(* ================================================================== *)
(** * Properties *)

Open Scope list_scope.

(** ** Facts about the store *)

Section StoreFacts.

Lemma findById_Some (id : ObjectId) (st : Store.t) (c : Car) :
  Store.findById id st = Some c -> In c st /\ _id c = id.
Proof.
  unfold Store.findById. intros H.
  apply find_some in H. destruct H as [Hin Heq].
  split; [assumption | now apply N.eqb_eq].
Qed.

Lemma findById_None (id : ObjectId) (st : Store.t) :
  Store.findById id st = None -> forall c, In c st -> _id c <> id.
Proof.
  unfold Store.findById. intros H c Hin Heq.
  apply (find_none _ _ H) in Hin. apply N.eqb_neq in Hin. contradiction.
Qed.

Lemma findById_app_fresh (id : ObjectId) (st : Store.t) (c : Car) :
  Store.findById id st = None -> _id c = id ->
  Store.findById id (st ++ [c]) = Some c.
Proof.
  unfold Store.findById. induction st as [|d r IH]; simpl; intros Hn Hid.
  - rewrite Hid, N.eqb_refl. reflexivity.
  - destruct (N.eqb (_id d) id); [discriminate | auto].
Qed.

Variable f : Car -> Car.
Hypothesis f_keeps_id : forall c, _id (f c) = _id c.

Lemma findById_modify (id : ObjectId) (st : Store.t) :
  Store.findById id (Store.modify id f st) = option_map f (Store.findById id st).
Proof.
  unfold Store.findById. induction st as [|d r IH]; simpl; [reflexivity|].
  destruct (N.eqb (_id d) id) eqn:E; simpl.
  - rewrite f_keeps_id, E. reflexivity.
  - rewrite E. exact IH.
Qed.

Lemma findById_modify_other (id id' : ObjectId) (st : Store.t) :
  id' <> id ->
  Store.findById id' (Store.modify id f st) = Store.findById id' st.
Proof.
  unfold Store.findById. intros Hne.
  induction st as [|d r IH]; simpl; [reflexivity|].
  destruct (N.eqb (_id d) id) eqn:E; simpl.
  - rewrite f_keeps_id.
    apply N.eqb_eq in E.
    assert (N.eqb (_id d) id' = false) as ->
        by (apply N.eqb_neq; congruence).
    reflexivity.
  - destruct (N.eqb (_id d) id'); [reflexivity | exact IH].
Qed.

Lemma length_modify (id : ObjectId) (st : Store.t) :
  List.length (Store.modify id f st) = List.length st.
Proof.
  induction st as [|d r IH]; simpl; [reflexivity|].
  destruct (N.eqb (_id d) id); simpl; congruence.
Qed.

End StoreFacts.

Lemma Json_not_NotFound {A : Type} (code : Z) (s : bool) (m : option string)
    (d : option A) :
  code <> 404 -> Json code s m d <> NotFound.
Proof. unfold NotFound. intros H E. inversion E. contradiction. Qed.

Lemma Next_not_NotFound {A : Type} (e : Error) : @Next A e <> NotFound.
Proof. unfold NotFound. discriminate. Qed.

(* ------------------------------------------------------------------ *)
(** ** createCar stamps the seller email (C1) *)

Section Create.
Variable nextYear : Z.

(** C1.  Whenever createCar, called for the authenticated user [user],
    persists a listing, the stored document is the one returned, it is in
    the collection under the fresh id, and its seller email is the user's
    email, whatever seller email the body carried.  A user's email is
    trimmed and in lower case (registration stores the value of
    [userRegistrationSchema]), so the setters of [seller.email] leave it
    as it is. *)
Theorem createCar_seller_email
    (user : User.t) (body : Body.t) (oid : ObjectId) (now : Z)
    (st st' : Store.t) (code : Z) (ok : bool) (msg : option string) (car : Car) :
  JS.toLowerCase (JS.trim (User.email user)) = User.email user ->
  CarController.createCar nextYear user body oid now st
    = (Json code ok msg (Some car), st') ->
  st' = (st ++ [car])%list
  /\ Store.findById oid st' = Some car
  /\ email (seller car) = Some (User.email user).
Proof.
  intros Hnorm H.
  unfold CarController.createCar, Model.create in H.
  destruct (Schema.requiredPaths _ && Schema.validPaths _ _); [|discriminate].
  destruct (Store.findById oid st) eqn:Hfresh; [discriminate|].
  inversion H; subst; clear H.
  split; [reflexivity|]. split.
  - apply findById_app_fresh; [assumption | reflexivity].
  - simpl. rewrite Hnorm. reflexivity.
Qed.

End Create.

Lemma createCar_seller_email_witness :
  exists car st',
    CarController.createCar Sample.nextYear Sample.testuser Sample.camry 7%N 5000
      Sample.cars = (Json 201 true (Some "Car listing created successfully") (Some car), st')
    /\ JS.toLowerCase (JS.trim (User.email Sample.testuser))
       = User.email Sample.testuser
    /\ Body.seller Sample.camry
       = Some (mkSeller (Some "Car Seller") (Some "+91 99999 88888")
                 (Some "someone.else@example.com"))
    /\ st' = (Sample.cars ++ [car])%list
    /\ Store.findById 7%N st' = Some car
    /\ email (seller car) = Some "test@example.com".
Proof.
  eexists. eexists. split; [vm_compute; reflexivity|].
  split; [vm_compute; reflexivity|].
  split; [reflexivity|].
  apply (createCar_seller_email Sample.nextYear Sample.testuser Sample.camry
           7%N 5000 Sample.cars _ 201 true
           (Some "Car listing created successfully") _).
  - vm_compute. reflexivity.
  - vm_compute. reflexivity.
Defined.

(* ------------------------------------------------------------------ *)
(** ** getCar: visibility, view counter and snapshot (C5) *)

Lemma stampUpdated_keeps_id (now : Z) (f : Car -> Car) :
  (forall c, _id (f c) = _id c) ->
  forall c, _id (Schema.stampUpdated now (f c)) = _id c.
Proof. intros H c. simpl. apply H. Qed.

(** C5 as stated does not hold: a successful getCar also moves the
    record's [updatedAt] to the time of the call ([timestamps: true] in
    the schema), so the stored record is not the snapshot with only its
    counter incremented. *)
Lemma getCar_moves_updatedAt :
  exists car st' stored,
    CarController.getCar 1%N 77 Sample.cars
      = (Json 200 true None (Some car), st')
    /\ Store.findById 1%N st' = Some stored
    /\ viewCount stored = viewCount car + 1
    /\ updatedAt car = 1000
    /\ updatedAt stored = 77
    /\ stored <> Schema.incViewCount car.
Proof.
  eexists. eexists. eexists.
  split; [vm_compute; reflexivity|].
  split; [vm_compute; reflexivity|].
  repeat split; try reflexivity.
  intros E. apply (f_equal updatedAt) in E. vm_compute in E. discriminate.
Qed.

(** C5 (amended).  getCar answers NotFound exactly when the id has no
    record or the record is inactive, and then leaves the store as it is.
    On an active record it answers 200 with the record as read before the
    write, and the store then holds, under the same id, that record with
    [viewCount + 1] and [updatedAt = now], every other field as before;
    all other records are untouched. *)
Theorem getCar_spec (id : ObjectId) (now : Z) (st : Store.t) :
  (fst (CarController.getCar id now st) = NotFound <->
     Store.findById id st = None
     \/ exists c, Store.findById id st = Some c /\ isActive c = false)
  /\ (fst (CarController.getCar id now st) = NotFound ->
      snd (CarController.getCar id now st) = st)
  /\ forall c, Store.findById id st = Some c -> isActive c = true ->
       exists st',
         CarController.getCar id now st = (Json 200 true None (Some c), st')
         /\ Store.findById id st'
            = Some (mkCar (_id c) (make c) (model c) (year c) (price c)
                      (mileage c) (fuelType c) (transmission c) (bodyType c)
                      (color c) (description c) (features c) (images c)
                      (location c) (seller c) (status c) (isActive c)
                      (viewCount c + 1) (createdAt c) now)
         /\ (forall id', id' <> id ->
               Store.findById id' st' = Store.findById id' st)
         /\ List.length st' = List.length st.
Proof.
  unfold CarController.getCar.
  destruct (Store.findById id st) as [c|] eqn:Hc.
  - destruct (isActive c) eqn:Ha; simpl.
    + split; [|split].
      * split.
        -- intros E. exfalso. revert E. apply Json_not_NotFound. lia.
        -- intros [E | [c' [E Hc']]]; [discriminate|].
           inversion E; subst. congruence.
      * intros E. exfalso. revert E. apply Json_not_NotFound. lia.
      * intros c' E _. inversion E; subst c'.
        eexists. split; [reflexivity|].
        unfold Model.incrementViews.
        split; [|split].
        -- rewrite findById_modify
             by (apply stampUpdated_keeps_id; reflexivity).
           rewrite Hc. reflexivity.
        -- intros id' Hne. apply findById_modify_other; [|assumption].
           apply stampUpdated_keeps_id; reflexivity.
        -- apply length_modify.
    + split; [|split].
      * split; [|reflexivity].
        intros _. right. exists c. split; [reflexivity | assumption].
      * reflexivity.
      * intros c' E Ha'. inversion E; subst. congruence.
  - simpl. split; [|split].
    + split; [intros _; left; reflexivity | reflexivity].
    + reflexivity.
    + intros c E. discriminate.
Qed.

(* ------------------------------------------------------------------ *)
(** ** updateCar and deleteCar (C6, C7, C10) *)

Section Mutations.
Variable nextYear : Z.

Lemma updateCar_found (user : User.t) (id : ObjectId) (body : Body.t)
    (now : Z) (st : Store.t) (c : Car) :
  Store.findById id st = Some c ->
  CarController.updateCar nextYear user id body now st
  = if Schema.validPaths nextYear (Schema.cast body) then
      (Json 200 true (Some "Car listing updated successfully")
         (Some (Schema.stampUpdated now (Schema.applySet (Schema.cast body) c))),
       Store.modify id
         (fun d => Schema.stampUpdated now (Schema.applySet (Schema.cast body) d))
         st)
    else (Next ValidationError, st).
Proof.
  intros Hc. unfold CarController.updateCar, Model.findByIdAndUpdate.
  rewrite Hc.
  destruct (Schema.validPaths nextYear (Schema.cast body)); [|reflexivity].
  rewrite findById_modify
    by (intros d; apply (stampUpdated_keeps_id now (Schema.applySet _)); reflexivity).
  rewrite Hc. reflexivity.
Qed.

(** C6.  updateCar and deleteCar answer NotFound exactly when the id has
    no record, whatever the record's active flag and the body, and then
    leave the store unchanged; their result does not depend on the
    calling user, so a caller who is not the listing's seller gets the
    same answer as the seller: deleteCar always succeeds on an existing
    record and updateCar fails only on the validators of the body. *)
Theorem update_delete_NotFound_iff_absent
    (user : User.t) (id : ObjectId) (body : Body.t) (now : Z) (st : Store.t) :
  (fst (CarController.updateCar nextYear user id body now st) = NotFound
     <-> Store.findById id st = None)
  /\ (fst (CarController.deleteCar user id now st) = NotFound
     <-> Store.findById id st = None)
  /\ (Store.findById id st = None ->
      snd (CarController.updateCar nextYear user id body now st) = st
      /\ snd (CarController.deleteCar user id now st) = st)
  /\ (forall other : User.t,
        CarController.updateCar nextYear other id body now st
        = CarController.updateCar nextYear user id body now st
        /\ CarController.deleteCar other id now st
           = CarController.deleteCar user id now st)
  /\ (forall c, Store.findById id st = Some c ->
        fst (CarController.deleteCar user id now st)
        = Json 200 true (Some "Car listing deleted successfully") None
        /\ (fst (CarController.updateCar nextYear user id body now st)
            = Json 200 true (Some "Car listing updated successfully")
                (Some (Schema.stampUpdated now
                         (Schema.applySet (Schema.cast body) c)))
            \/ fst (CarController.updateCar nextYear user id body now st)
               = Next ValidationError)).
Proof.
  destruct (Store.findById id st) as [c|] eqn:Hc.
  - rewrite (updateCar_found user id body now st c Hc).
    unfold CarController.deleteCar. rewrite Hc.
    split; [|split; [|split; [|split]]].
    + split; [|discriminate].
      destruct (Schema.validPaths nextYear (Schema.cast body)); simpl; intros E.
      * exfalso. revert E. apply Json_not_NotFound. lia.
      * exfalso. revert E. apply Next_not_NotFound.
    + split; [|discriminate].
      simpl. intros E. exfalso. revert E. apply Json_not_NotFound. lia.
    + discriminate.
    + intros other. split; [|reflexivity].
      apply (updateCar_found other id body now st c Hc).
    + intros c' E. inversion E; subst c'. split; [reflexivity|].
      destruct (Schema.validPaths nextYear (Schema.cast body)); simpl;
        [left | right]; reflexivity.
  - unfold CarController.updateCar, CarController.deleteCar. rewrite Hc.
    simpl. repeat split; try reflexivity; try discriminate.
Qed.

(** C10.  When updateCar persists a body that carries a seller email [e]
    (in the trimmed lower-case form that the route's validation gives
    it), the stored record's seller email is [e]: the caller's own email
    plays no part, so it is not written unless the body happens to carry
    it. *)
Theorem updateCar_keeps_submitted_seller_email
    (user : User.t) (id : ObjectId) (body : Body.t) (now : Z)
    (st st' : Store.t) (code : Z) (ok : bool) (msg : option string)
    (car : Car) (s : Seller) (e : string) :
  Body.seller body = Some s ->
  email s = Some e ->
  JS.toLowerCase (JS.trim e) = e ->
  CarController.updateCar nextYear user id body now st
    = (Json code ok msg (Some car), st') ->
  Store.findById id st' = Some car
  /\ email (seller car) = Some e
  /\ (e <> User.email user -> email (seller car) <> Some (User.email user)).
Proof.
  intros Hs He Hnorm H.
  destruct (Store.findById id st) as [c|] eqn:Hc.
  - rewrite (updateCar_found user id body now st c Hc) in H.
    destruct (Schema.validPaths nextYear (Schema.cast body)); [|discriminate].
    inversion H; subst; clear H.
    assert (Hmail : email (seller (Schema.stampUpdated now
                      (Schema.applySet (Schema.cast body) c))) = Some e).
    { simpl. rewrite Hs. simpl. rewrite He. simpl. rewrite Hnorm. reflexivity. }
    split; [|split].
    + rewrite findById_modify
        by (intros d; apply (stampUpdated_keeps_id now (Schema.applySet _));
            reflexivity).
      rewrite Hc. reflexivity.
    + exact Hmail.
    + intros Hne. rewrite Hmail. congruence.
  - unfold CarController.updateCar in H. rewrite Hc in H.
    unfold NotFound in H. discriminate.
Qed.

End Mutations.

Lemma updateCar_keeps_submitted_seller_email_witness :
  exists car st',
    CarController.updateCar Sample.nextYear Sample.testuser 1%N Sample.repaint
      6000 Sample.cars
    = (Json 200 true (Some "Car listing updated successfully") (Some car), st')
    /\ User.email Sample.testuser = "test@example.com"%string
    /\ option_map email (Body.seller Sample.repaint)
       = Some (Some "intruder@example.com"%string)
    /\ JS.toLowerCase (JS.trim "intruder@example.com") = "intruder@example.com"%string
    /\ Store.findById 1%N st' = Some car
    /\ email (seller car) = Some "intruder@example.com"%string
    /\ ("intruder@example.com"%string <> User.email Sample.testuser ->
        email (seller car) <> Some (User.email Sample.testuser)).
Proof.
  eexists. eexists. split; [vm_compute; reflexivity|].
  split; [reflexivity|].
  split; [reflexivity|].
  split; [vm_compute; reflexivity|].
  apply (updateCar_keeps_submitted_seller_email Sample.nextYear Sample.testuser
           1%N Sample.repaint 6000 Sample.cars _ 200 true
           (Some "Car listing updated successfully"%string) _
           (mkSeller (Some "Test Seller") (Some "+91 98765 43210")
              (Some "intruder@example.com"))%string
           "intruder@example.com"%string).
  - reflexivity.
  - reflexivity.
  - vm_compute. reflexivity.
  - vm_compute. reflexivity.
Defined.

(** A caller who is not the seller of a listing soft-deletes it. *)
Example deleteCar_by_another_user :
  email (seller Sample.swift) <> Some (User.email Sample.testuser)
  /\ fst (CarController.deleteCar Sample.testuser 1%N 6000 Sample.cars)
     = Json 200 true (Some "Car listing deleted successfully"%string) None
  /\ option_map isActive
       (Store.findById 1%N
          (snd (CarController.deleteCar Sample.testuser 1%N 6000 Sample.cars)))
     = Some false.
Proof.
  split; [discriminate|]. split; vm_compute; reflexivity.
Qed.

(* ------------------------------------------------------------------ *)
(** ** Capitalization of make and model (C7) *)

Lemma toUpperChar_not_lower (c : ascii) :
  JS.isLowerChar (JS.toUpperChar c) = false.
Proof. destruct c as [[] [] [] [] [] [] [] []]; reflexivity. Qed.

Lemma toLowerChar_not_upper (c : ascii) :
  JS.isUpperChar (JS.toLowerChar c) = false.
Proof. destruct c as [[] [] [] [] [] [] [] []]; reflexivity. Qed.

Lemma toLowerCase_no_upper (s : string) :
  Spec.allChars (fun d => negb (JS.isUpperChar d)) (JS.toLowerCase s) = true.
Proof.
  induction s as [|c r IH]; simpl; [reflexivity|].
  rewrite toLowerChar_not_upper. simpl. exact IH.
Qed.

(** The hook's expression yields a capitalized string. *)
Lemma capitalize_capitalized (s : string) :
  Spec.capitalized (Schema.capitalize s) = true.
Proof.
  destruct s as [|c r]; simpl; [reflexivity|].
  rewrite toUpperChar_not_lower. simpl. apply toLowerCase_no_upper.
Qed.

Lemma preSave_capitalized (c : Car) :
  Spec.capitalized (make (Schema.preSave c)) = true
  /\ Spec.capitalized (model (Schema.preSave c)) = true.
Proof.
  unfold Schema.preSave; simpl. split.
  - destruct (make c) as [|a r] eqn:E; [reflexivity|].
    simpl. rewrite toUpperChar_not_lower. simpl. apply toLowerCase_no_upper.
  - destruct (model c) as [|a r] eqn:E; [reflexivity|].
    simpl. rewrite toUpperChar_not_lower. simpl. apply toLowerCase_no_upper.
Qed.

(** The creation path normalizes: whatever createCar persists has a
    capitalized make and model. *)
Lemma createCar_capitalizes
    (nextYear : Z) (user : User.t) (body : Body.t) (oid : ObjectId) (now : Z)
    (st st' : Store.t) (code : Z) (ok : bool) (msg : option string) (car : Car) :
  CarController.createCar nextYear user body oid now st
    = (Json code ok msg (Some car), st') ->
  Spec.capitalized (make car) = true /\ Spec.capitalized (model car) = true.
Proof.
  intros H. unfold CarController.createCar, Model.create in H.
  destruct (Schema.requiredPaths _ && Schema.validPaths _ _); [|discriminate].
  destruct (Store.findById oid st); [discriminate|].
  inversion H; subst; clear H.
  apply (preSave_capitalized (Schema.newDocument oid _)).
Qed.

(** C7 (the update path).  updateCar writes make and model exactly as the
    body has them: on the PUT body [Sample.repaint] the stored make is
    "hONDA" and the stored model "cITY", neither of which is capitalized,
    where the pre-save hook would have stored "Honda" and "City". *)
Theorem updateCar_stores_submitted_capitalization :
  exists car st',
    CarController.updateCar Sample.nextYear Sample.testuser 1%N Sample.repaint
      6000 Sample.cars
    = (Json 200 true (Some "Car listing updated successfully"%string) (Some car), st')
    /\ Store.findById 1%N st' = Some car
    /\ make car = "hONDA"%string
    /\ model car = "cITY"%string
    /\ Spec.capitalized (make car) = false
    /\ Spec.capitalized (model car) = false
    /\ Schema.capitalize "hONDA" = "Honda"%string
    /\ Schema.capitalize "cITY" = "City"%string.
Proof.
  eexists. eexists. split; [vm_compute; reflexivity|].
  repeat split; vm_compute; reflexivity.
Qed.

(* ------------------------------------------------------------------ *)
(** ** Facts about filters *)

Section FilterFacts.
Import Store.

Lemma lookup_app_l (p : string) (f g : Filter) (k : Cond) :
  lookup p f = Some k -> lookup p (f ++ g) = Some k.
Proof.
  unfold lookup. induction f as [|kv r IH]; simpl; [discriminate|].
  destruct (String.eqb (fst kv) p); [auto | exact IH].
Qed.

Lemma matches_app (f g : Filter) (c : Car) :
  matches (f ++ g) c = matches f c && matches g c.
Proof. unfold matches. apply forallb_app. Qed.

Lemma matches_lookup (p : string) (f : Filter) (k : Cond) (c : Car) :
  lookup p f = Some k -> matches f c = true -> holds k (getPath p c) = true.
Proof.
  unfold lookup, matches. intros Hl Hm.
  destruct (List.find (fun kv => String.eqb (fst kv) p) f) as [kv|] eqn:E;
    [|discriminate].
  simpl in Hl. inversion Hl; subst k.
  apply find_some in E. destruct E as [Hin Hp].
  apply String.eqb_eq in Hp. subst p.
  rewrite forallb_forall in Hm. exact (Hm kv Hin).
Qed.

Lemma find_In (f : Filter) (st : Store.t) (c : Car) :
  In c (find f st) <-> In c st /\ matches f c = true.
Proof. unfold find. apply filter_In. Qed.

(** The two conditions that every filter of the controllers starts with
    select the visible listings. *)
Lemma matches_base (wanted : string) (c : Car) :
  matches [("isActive"%string, Eq (VBool true));
           ("status"%string, Eq (VStr wanted))] c
  = Spec.visible wanted c.
Proof.
  unfold matches, Spec.visible; simpl.
  destruct (isActive c); simpl; [|reflexivity].
  rewrite andb_true_r. reflexivity.
Qed.

(** A range with a bound is the inclusive comparison on the number. *)
Lemma holds_Range (lo hi : option Z) (n : Z) :
  (lo <> None \/ hi <> None) ->
  holds (Range lo hi) (VNum n) = Spec.within lo hi n.
Proof.
  unfold Spec.within. destruct lo, hi; simpl; try reflexivity.
  intros [H|H]; congruence.
Qed.

Variable engine : RegExpEngine.

Lemma setRegExp_extends (p : string) (v : option string) (f f' : Filter) :
  CarController.setRegExp engine p v f = Ok f' -> exists g, f' = f ++ g.
Proof.
  unfold CarController.setRegExp. intros H.
  destruct v as [s|].
  - destruct (JS.truthyString (Some s)).
    + destruct (engine s) as [re|]; inversion H. eexists; reflexivity.
    + inversion H. exists []. now rewrite app_nil_r.
  - inversion H. exists []. now rewrite app_nil_r.
Qed.

Lemma setRange_extends (p : string) (lo hi : option Z) (f : Filter) :
  exists g, CarController.setRange p lo hi f = f ++ g.
Proof.
  unfold CarController.setRange.
  destruct (JS.truthyNumber lo || JS.truthyNumber hi).
  - eexists; reflexivity.
  - exists []. now rewrite app_nil_r.
Qed.

Lemma setExact_extends (p : string) (v : option string) (f : Filter) :
  exists g, CarController.setExact p v f = f ++ g.
Proof.
  unfold CarController.setExact. destruct v as [s|].
  - destruct (JS.truthyString (Some s)).
    + eexists; reflexivity.
    + exists []. now rewrite app_nil_r.
  - exists []. now rewrite app_nil_r.
Qed.

(** Every filter that getCars builds starts with [isActive: true] and
    the resolved status; the optional keys come after them. *)
Lemma buildFilter_base (q : Query.t) (f : Filter) :
  CarController.buildFilter engine q = Ok f ->
  exists g,
    f = [("isActive"%string, Eq (VBool true));
         ("status"%string,
          Eq (VStr (JS.orDefault (Query.status q) "available"%string)))] ++ g.
Proof.
  unfold CarController.buildFilter, bind. intros H.
  destruct (CarController.setRegExp engine "make" _ _) as [f1|] eqn:E1;
    [|discriminate].
  destruct (CarController.setRegExp engine "model" _ _) as [f2|] eqn:E2;
    [|discriminate].
  destruct (CarController.setRegExp engine "location.city" _ _) as [f3|] eqn:E3;
    [|discriminate].
  destruct (CarController.setRegExp engine "location.state" _ _) as [f4|] eqn:E4;
    [|discriminate].
  inversion H; subst f4; clear H.
  apply setRegExp_extends in E1, E2, E3, E4.
  destruct E1 as [g1 ->]. destruct E2 as [g2 ->].
  destruct (setRange_extends "price" (Query.minPrice q) (Query.maxPrice q)
              (([("isActive"%string, Eq (VBool true));
                 ("status"%string,
                  Eq (VStr (JS.orDefault (Query.status q) "available"%string)))]
                ++ g1) ++ g2)) as [g3 R3].
  rewrite R3 in E3.
  match type of E3 with
  | context [CarController.setRange "year" ?a ?b ?x] =>
      destruct (setRange_extends "year" a b x) as [g4 R4]; rewrite R4 in E3
  end.
  match type of E3 with
  | context [CarController.setExact "fuelType" ?a ?x] =>
      destruct (setExact_extends "fuelType" a x) as [g5 R5]; rewrite R5 in E3
  end.
  match type of E3 with
  | context [CarController.setExact "transmission" ?a ?x] =>
      destruct (setExact_extends "transmission" a x) as [g6 R6]; rewrite R6 in E3
  end.
  match type of E3 with
  | context [CarController.setExact "bodyType" ?a ?x] =>
      destruct (setExact_extends "bodyType" a x) as [g7 R7]; rewrite R7 in E3
  end.
  destruct E3 as [g8 ->]. destruct E4 as [g9 ->].
  exists (g1 ++ g2 ++ g3 ++ g4 ++ g5 ++ g6 ++ g7 ++ g8 ++ g9).
  repeat rewrite <- app_assoc. reflexivity.
Qed.

(** What a filter of getCars lets through is visible. *)
Lemma buildFilter_visible (q : Query.t) (f : Filter) (c : Car) :
  CarController.buildFilter engine q = Ok f ->
  matches f c = true ->
  Spec.visible (JS.orDefault (Query.status q) "available"%string) c = true.
Proof.
  intros Hf Hm. destruct (buildFilter_base q f Hf) as [g ->].
  rewrite matches_app in Hm. apply andb_prop in Hm. destruct Hm as [Hm _].
  rewrite matches_base in Hm. exact Hm.
Qed.

(** The filter does not look at the page window. *)
Lemma buildFilter_withWindow (p l : option Z) (q : Query.t) :
  CarController.buildFilter engine (Spec.withWindow p l q)
  = CarController.buildFilter engine q.
Proof. reflexivity. Qed.

End FilterFacts.

(* ------------------------------------------------------------------ *)
(** ** Facts about sorting, skipping and limiting *)

Section SortFacts.
Context {A : Type}.
Variable before : A -> A -> bool.

Lemma insert_perm (x : A) (l : list A) :
  Permutation (Store.insert before x l) (x :: l).
Proof.
  induction l as [|y r IH]; simpl; [apply Permutation_refl|].
  destruct (before x y); [apply Permutation_refl|].
  apply perm_trans with (y :: x :: r); [|apply perm_swap].
  apply perm_skip. exact IH.
Qed.

Lemma sortBy_perm (l : list A) : Permutation (Store.sortBy before l) l.
Proof.
  induction l as [|x r IH]; simpl; [apply perm_nil|].
  apply perm_trans with (x :: Store.sortBy before r);
    [apply insert_perm | apply perm_skip; exact IH].
Qed.

Hypothesis before_total : forall a b, before a b = true \/ before b a = true.

Lemma insert_sorted (x : A) (l : list A) :
  Sorted (fun a b => before a b = true) l ->
  Sorted (fun a b => before a b = true) (Store.insert before x l).
Proof.
  induction l as [|y r IH]; simpl; intros Hs.
  - constructor; constructor.
  - destruct (before x y) eqn:E.
    + constructor; [assumption | constructor; assumption].
    + inversion Hs as [|? ? Hr Hy]; subst.
      constructor; [apply IH; assumption|].
      destruct r as [|z r']; simpl.
      * constructor. destruct (before_total x y); congruence.
      * destruct (before x z).
        -- constructor. destruct (before_total x y); congruence.
        -- inversion Hy; subst. constructor. assumption.
Qed.

Lemma sortBy_sorted (l : list A) :
  Sorted (fun a b => before a b = true) (Store.sortBy before l).
Proof.
  induction l as [|x r IH]; simpl; [constructor | apply insert_sorted; exact IH].
Qed.

End SortFacts.

Lemma sort_perm (s : string) (l : list Car) : Permutation (Store.sort s l) l.
Proof.
  unfold Store.sort. destruct (Store.descending s); apply sortBy_perm.
Qed.

Lemma In_firstn {A : Type} (n : nat) (l : list A) (x : A) :
  In x (firstn n l) -> In x l.
Proof.
  intros H. rewrite <- (firstn_skipn n l). apply in_or_app. now left.
Qed.

Lemma In_skipn {A : Type} (n : nat) (l : list A) (x : A) :
  In x (skipn n l) -> In x l.
Proof.
  intros H. rewrite <- (firstn_skipn n l). apply in_or_app. now right.
Qed.

Lemma limit_incl (n : Z) (l : list Car) (c : Car) :
  In c (Store.limit n l) -> In c l.
Proof.
  unfold Store.limit. destruct (n =? 0); [auto|]. apply In_firstn.
Qed.

Lemma limit_length (n : Z) (l : list Car) :
  1 <= n -> Z.of_nat (List.length (Store.limit n l)) <= n.
Proof.
  intros Hn. unfold Store.limit.
  destruct (n =? 0) eqn:E; [apply Z.eqb_eq in E; lia|].
  rewrite length_firstn. lia.
Qed.

Lemma skip_Ok (n : Z) (l : list Car) :
  0 <= n -> Store.skip n l = Ok (skipn (Z.to_nat n) l).
Proof.
  intros Hn. unfold Store.skip.
  destruct (n <? 0) eqn:E; [apply Z.ltb_lt in E; lia | reflexivity].
Qed.

Lemma skip_incl (n : Z) (l r : list Car) (c : Car) :
  Store.skip n l = Ok r -> In c r -> In c l.
Proof.
  unfold Store.skip. destruct (n <? 0); [discriminate|].
  intros H; inversion H; subst. apply In_skipn.
Qed.

Lemma find_without (f : Store.Filter) (st1 st2 : Store.t) (c : Car) :
  Store.matches f c = false ->
  Store.find f (st1 ++ c :: st2) = Store.find f (st1 ++ st2).
Proof.
  intros H. unfold Store.find. rewrite !filter_app. simpl. rewrite H. reflexivity.
Qed.

(* ------------------------------------------------------------------ *)
(** ** getCars: the reply, pagination and visibility (C2, C3, C4) *)

Section Search.
Variable engine : RegExpEngine.

(** The 200 reply of getCars, spelled out. *)
Lemma getCars_reply (q : Query.t) (st : Store.t) (f : Store.Filter) :
  CarController.buildFilter engine q = Ok f ->
  0 <= (JS.orDefault (Query.page q) 1 - 1) * JS.orDefault (Query.limit q) 10 ->
  let page := JS.orDefault (Query.page q) 1 in
  let limit := JS.orDefault (Query.limit q) 10 in
  let cars :=
    Store.limit limit
      (skipn (Z.to_nat ((page - 1) * limit))
         (Store.sort (JS.orDefault (Query.sort q) "-createdAt"%string)
            (Store.find f st))) in
  let total := Store.countDocuments f st in
  CarController.getCars engine q st
  = Json 200 true None
      (Some (Listing.mk (Z.of_nat (List.length cars))
               (Pagination.mk page limit total (JS.ceilDiv total limit)
                  (page <? JS.ceilDiv total limit) (1 <? page))
               cars)).
Proof.
  intros Hf Hskip. simpl. unfold CarController.getCars.
  rewrite Hf. simpl. rewrite (skip_Ok _ _ Hskip). reflexivity.
Qed.

(** Whatever getCars returns was selected by the filter. *)
Lemma getCars_data_matches (q : Query.t) (st : Store.t) (code : Z) (ok : bool)
    (msg : option string) (body : Listing.t) (c : Car) :
  CarController.getCars engine q st = Json code ok msg (Some body) ->
  In c (Listing.data body) ->
  exists f, CarController.buildFilter engine q = Ok f
            /\ In c st /\ Store.matches f c = true.
Proof.
  unfold CarController.getCars. intros H Hin.
  destruct (CarController.buildFilter engine q) as [f|] eqn:Hf;
    simpl in H; [|discriminate].
  destruct (Store.skip _ _) as [rest|] eqn:Hs; simpl in H; [|discriminate].
  inversion H; subst; clear H. simpl in Hin.
  exists f. split; [reflexivity|].
  apply limit_incl in Hin. apply (skip_incl _ _ _ _ Hs) in Hin.
  apply (Permutation_in _ (sort_perm _ _)) in Hin.
  now apply find_In in Hin.
Qed.

Lemma ceilDiv_bounds (t n : Z) :
  0 < n -> (JS.ceilDiv t n - 1) * n < t <= JS.ceilDiv t n * n.
Proof.
  intros Hn. unfold JS.ceilDiv.
  pose proof (Z.mul_div_le (- t) n Hn).
  pose proof (Z.mul_succ_div_gt (- t) n Hn).
  nia.
Qed.

(** C3.  A search that gets its filter built, on page [P >= 1] with
    limit [1 <= N <= 100], answers 200 with the window
    [skip (P-1)*N, take N] of the sorted matches: at most [N] records,
    [count] their number, [total] the number of all matches of the
    filter (which does not depend on the window), [totalPages] the
    ceiling of [total / N], [hasNext] iff [P*N < total] and [hasPrev]
    iff [P > 1]. *)
Theorem getCars_pagination
    (q : Query.t) (st : Store.t) (f : Store.Filter) (P N : Z) :
  P = JS.orDefault (Query.page q) 1 ->
  N = JS.orDefault (Query.limit q) 10 ->
  1 <= P -> 1 <= N <= 100 ->
  CarController.buildFilter engine q = Ok f ->
  exists body,
    CarController.getCars engine q st = Json 200 true None (Some body)
    /\ Listing.data body
       = firstn (Z.to_nat N)
           (skipn (Z.to_nat ((P - 1) * N))
              (Store.sort (JS.orDefault (Query.sort q) "-createdAt"%string)
                 (Store.find f st)))
    /\ Z.of_nat (List.length (Listing.data body)) <= N
    /\ Listing.count body = Z.of_nat (List.length (Listing.data body))
    /\ Pagination.page (Listing.pagination body) = P
    /\ Pagination.limit (Listing.pagination body) = N
    /\ Pagination.total (Listing.pagination body)
       = Z.of_nat (List.length (Store.find f st))
    /\ (forall p' l',
          CarController.buildFilter engine (Spec.withWindow p' l' q) = Ok f)
    /\ (Pagination.totalPages (Listing.pagination body) - 1) * N
       < Pagination.total (Listing.pagination body)
       <= Pagination.totalPages (Listing.pagination body) * N
    /\ (Pagination.hasNext (Listing.pagination body) = true
        <-> P * N < Pagination.total (Listing.pagination body))
    /\ (Pagination.hasPrev (Listing.pagination body) = true <-> 1 < P).
Proof.
  intros HP HN HP1 HN1 Hf.
  assert (Hskip : 0 <= (JS.orDefault (Query.page q) 1 - 1)
                        * JS.orDefault (Query.limit q) 10)
    by (rewrite <- HP, <- HN; nia).
  pose proof (getCars_reply q st f Hf Hskip) as R. simpl in R.
  rewrite <- HP, <- HN in R.
  eexists. split; [exact R|]. simpl.
  pose proof (ceilDiv_bounds (Store.countDocuments f st) N ltac:(lia)) as B.
  assert (HL : Store.limit N
                 (skipn (Z.to_nat ((P - 1) * N))
                    (Store.sort (JS.orDefault (Query.sort q) "-createdAt"%string)
                       (Store.find f st)))
               = firstn (Z.to_nat N)
                   (skipn (Z.to_nat ((P - 1) * N))
                      (Store.sort (JS.orDefault (Query.sort q) "-createdAt"%string)
                         (Store.find f st)))).
  { unfold Store.limit.
    destruct (N =? 0) eqn:E; [apply Z.eqb_eq in E; lia|].
    rewrite Z.abs_eq by lia. reflexivity. }
  split; [exact HL|].
  split; [apply limit_length; lia|].
  split; [reflexivity|].
  split; [reflexivity|].
  split; [reflexivity|].
  split; [reflexivity|].
  split; [intros p' l'; rewrite buildFilter_withWindow; exact Hf|].
  split; [exact B|].
  split.
  - rewrite Z.ltb_lt. split; intros H; nia.
  - apply Z.ltb_lt.
Qed.

End Search.

Lemma getCars_pagination_witness :
  exists body,
    CarController.getCars Sample.literalEngine
      (Spec.withWindow (Some 2) (Some 1) Query.empty) Sample.cars
    = Json 200 true None (Some body)
    /\ Listing.data body = [Sample.swift]
    /\ Pagination.total (Listing.pagination body) = 2
    /\ Pagination.totalPages (Listing.pagination body) = 2
    /\ Pagination.hasNext (Listing.pagination body) = false
    /\ Pagination.hasPrev (Listing.pagination body) = true.
Proof.
  destruct (getCars_pagination Sample.literalEngine
              (Spec.withWindow (Some 2) (Some 1) Query.empty) Sample.cars
              [("isActive"%string, Store.Eq (Store.VBool true));
               ("status"%string, Store.Eq (Store.VStr "available"))]
              2 1 eq_refl eq_refl ltac:(lia) ltac:(lia) eq_refl)
    as [body [R [D [_ [_ [_ [_ [T [_ [TP [HN HP]]]]]]]]]]].
  exists body. split; [exact R|].
  split; [rewrite D; vm_compute; reflexivity|].
  assert (T2 : Pagination.total (Listing.pagination body) = 2)
    by (rewrite T; vm_compute; reflexivity).
  split; [exact T2|].
  split; [rewrite T2 in TP; lia|].
  split.
  - destruct (Pagination.hasNext (Listing.pagination body)); [|reflexivity].
    rewrite T2 in HN. destruct HN as [HN _]. specialize (HN eq_refl). lia.
  - apply HP. lia.
Defined.

(* ------------------------------------------------------------------ *)
(** ** Inactive listings on the default read paths (C2) *)

Lemma matchStage_visible (c : Car) :
  Store.matches Aggregate.matchStage c = Spec.visible "available" c.
Proof. apply matches_base. Qed.

Lemma visible_inactive (wanted : string) (c : Car) :
  isActive c = false -> Spec.visible wanted c = false.
Proof. unfold Spec.visible. now intros ->. Qed.

Section Visibility.
Variable engine : RegExpEngine.

Lemma getCars_without (q : Query.t) (st1 st2 : Store.t) (c : Car) :
  isActive c = false ->
  CarController.getCars engine q (st1 ++ c :: st2)
  = CarController.getCars engine q (st1 ++ st2).
Proof.
  intros Ha. unfold CarController.getCars.
  destruct (CarController.buildFilter engine q) as [f|] eqn:Hf; simpl;
    [|reflexivity].
  assert (Hm : Store.matches f c = false).
  { destruct (Store.matches f c) eqn:E; [|reflexivity].
    apply (buildFilter_visible engine q f c Hf) in E.
    rewrite (visible_inactive _ c Ha) in E. discriminate. }
  unfold Store.countDocuments. rewrite (find_without f st1 st2 c Hm).
  reflexivity.
Qed.

Lemma getCarStats_without (st1 st2 : Store.t) (c : Car) :
  isActive c = false ->
  CarController.getCarStats (st1 ++ c :: st2)
  = CarController.getCarStats (st1 ++ st2).
Proof.
  intros Ha. unfold CarController.getCarStats.
  rewrite (find_without Aggregate.matchStage st1 st2 c); [reflexivity|].
  rewrite matchStage_visible. apply visible_inactive. exact Ha.
Qed.

(** C2.  Let [c] be the record stored under [id], with its active flag
    false.  Every filter that getCars builds has the keys
    [isActive: true] and [status: <resolved status>]; [c] is in no page
    that getCars returns and is not among the documents that the
    statistics pipelines match; both replies are what they would be with
    [c] taken out of the store; getCar answers NotFound for [id]; and
    the record is still stored under [id] afterwards. *)
Theorem inactive_listing_hidden
    (q : Query.t) (st : Store.t) (id : ObjectId) (c : Car) (now : Z) :
  Store.findById id st = Some c ->
  isActive c = false ->
  (forall f, CarController.buildFilter engine q = Ok f ->
     Store.lookup "isActive" f = Some (Store.Eq (Store.VBool true))
     /\ Store.lookup "status" f
        = Some (Store.Eq (Store.VStr
                  (JS.orDefault (Query.status q) "available"%string))))
  /\ (forall code ok msg body,
        CarController.getCars engine q st = Json code ok msg (Some body) ->
        ~ In c (Listing.data body))
  /\ ~ In c (Store.find Aggregate.matchStage st)
  /\ (forall st1 st2, st = st1 ++ c :: st2 ->
        CarController.getCars engine q st
        = CarController.getCars engine q (st1 ++ st2)
        /\ CarController.getCarStats st
           = CarController.getCarStats (st1 ++ st2))
  /\ CarController.getCar id now st = (NotFound, st)
  /\ Store.findById id (snd (CarController.getCar id now st)) = Some c.
Proof.
  intros Hc Ha.
  assert (G : CarController.getCar id now st = (NotFound, st)).
  { unfold CarController.getCar. rewrite Hc, Ha. reflexivity. }
  split; [|split; [|split; [|split; [|split]]]].
  - intros f Hf. destruct (buildFilter_base engine q f Hf) as [g ->].
    split; apply lookup_app_l; reflexivity.
  - intros code ok msg body H Hin.
    destruct (getCars_data_matches engine q st code ok msg body c H Hin)
      as [f [Hf [_ Hm]]].
    apply (buildFilter_visible engine q f c Hf) in Hm.
    rewrite (visible_inactive _ c Ha) in Hm. discriminate.
  - intros Hin. apply find_In in Hin. destruct Hin as [_ Hm].
    rewrite matchStage_visible, (visible_inactive _ c Ha) in Hm. discriminate.
  - intros st1 st2 ->. split.
    + apply getCars_without; exact Ha.
    + apply getCarStats_without; exact Ha.
  - exact G.
  - rewrite G. exact Hc.
Qed.

End Visibility.

Lemma inactive_listing_hidden_witness :
  Store.findById 3%N Sample.cars = Some Sample.ecosport
  /\ isActive Sample.ecosport = false
  /\ (forall code ok msg body,
        CarController.getCars Sample.literalEngine Query.empty Sample.cars
        = Json code ok msg (Some body) ->
        ~ In Sample.ecosport (Listing.data body))
  /\ CarController.getCar 3%N 6000 Sample.cars = (NotFound, Sample.cars).
Proof.
  pose proof (inactive_listing_hidden Sample.literalEngine Query.empty
                Sample.cars 3%N Sample.ecosport 6000 eq_refl eq_refl)
    as [_ [H [_ [_ [G _]]]]].
  split; [reflexivity|]. split; [reflexivity|]. split; [exact H | exact G].
Defined.

(* ------------------------------------------------------------------ *)
(** ** Range filters (C4) *)

Section Ranges.
Variable engine : RegExpEngine.

(** Bounds other than zero are applied as specified: the matches of the
    filter are the visible listings with [lo <= price <= hi], each bound
    only when it is present, and no price condition without bounds. *)
Lemma price_bounds_applied (lo hi : option Z) (st : Store.t) :
  lo <> Some 0 -> hi <> Some 0 ->
  exists f,
    CarController.buildFilter engine (Spec.priceQuery lo hi) = Ok f
    /\ Store.find f st
       = filter (fun c => Spec.visible "available" c
                          && Spec.within lo hi (price c)) st.
Proof.
  intros Hlo Hhi. eexists. split; [reflexivity|].
  unfold Store.find. apply filter_ext. intros c.
  unfold CarController.setExact, CarController.setRange; simpl.
  assert (Tlo : JS.truthyNumber lo = Schema.present lo).
  { destruct lo as [x|]; simpl; [|reflexivity].
    destruct (x =? 0) eqn:E; [apply Z.eqb_eq in E; congruence | reflexivity]. }
  assert (Thi : JS.truthyNumber hi = Schema.present hi).
  { destruct hi as [x|]; simpl; [|reflexivity].
    destruct (x =? 0) eqn:E; [apply Z.eqb_eq in E; congruence | reflexivity]. }
  rewrite Tlo, Thi.
  unfold Store.matches, Spec.visible, Spec.within.
  destruct lo as [x|], hi as [y|]; simpl;
    destruct (isActive c); simpl; rewrite ?andb_true_r; reflexivity.
Qed.

End Ranges.

(** C4 (a zero bound).  [GET /api/cars?maxPrice=0]: the filter gets no
    price key, so both visible listings come back, although neither has a
    price in the requested range. *)
Theorem getCars_drops_zero_maxPrice :
  let q := Sample.zeroMaxPrice in
  Query.maxPrice q = Some 0
  /\ CarController.buildFilter Sample.literalEngine q
  = Ok [("isActive"%string, Store.Eq (Store.VBool true));
        ("status"%string, Store.Eq (Store.VStr "available"))]
  /\ (exists body,
        CarController.getCars Sample.literalEngine q Sample.cars
        = Json 200 true None (Some body)
        /\ Listing.data body = [Sample.i20; Sample.swift]
        /\ Pagination.total (Listing.pagination body) = 2)
  /\ filter (fun c => Spec.visible "available" c
                      && Spec.within None (Some 0) (price c)) Sample.cars
     = [].
Proof.
  split; [reflexivity|]. split; [reflexivity|]. split; [|reflexivity].
  eexists. split; [vm_compute; reflexivity|]. split; reflexivity.
Qed.

(* ------------------------------------------------------------------ *)
(** ** The Authorization header and the two middlewares (C9) *)

Section Split.
Variable sep : ascii.

Lemma split_nonempty (s : string) : JS.split sep s <> [].
Proof.
  destruct s as [|c r]; simpl; [discriminate|].
  destruct (Ascii.eqb c sep); [discriminate|].
  destruct (JS.split sep r); discriminate.
Qed.

Lemma join_cons (x : string) (l : list string) :
  l <> [] -> Spec.join sep (x :: l) = (x ++ String sep (Spec.join sep l))%string.
Proof. destruct l; [congruence | reflexivity]. Qed.

(** Splitting loses nothing: joining the parts gives the string back. *)
Lemma join_split (s : string) : Spec.join sep (JS.split sep s) = s.
Proof.
  induction s as [|c r IH]; [reflexivity|].
  simpl JS.split. destruct (Ascii.eqb c sep) eqn:E.
  - rewrite join_cons by apply split_nonempty.
    apply Ascii.eqb_eq in E. subst c. simpl. now rewrite IH.
  - pose proof (split_nonempty r) as Hne.
    destruct (JS.split sep r) as [|h t]; [congruence|].
    destruct t as [|h' t'].
    + simpl in *. now rewrite IH.
    + change (Spec.join sep (String c h :: h' :: t'))
        with (String c (h ++ String sep (Spec.join sep (h' :: t'))))%string.
      change (Spec.join sep (h :: h' :: t'))
        with (h ++ String sep (Spec.join sep (h' :: t')))%string in IH.
      now rewrite IH.
Qed.

Lemma split_parts_clean (s x : string) :
  In x (JS.split sep s) ->
  Spec.allChars (fun c => negb (Ascii.eqb c sep)) x = true.
Proof.
  revert x. induction s as [|c r IH]; simpl; intros x Hin.
  - destruct Hin as [<-|[]]. reflexivity.
  - destruct (Ascii.eqb c sep) eqn:E.
    + destruct Hin as [<-|Hin]; [reflexivity | auto].
    + pose proof (split_nonempty r) as Hne.
      destruct (JS.split sep r) as [|h t]; [congruence|].
      destruct Hin as [<-|Hin].
      * simpl. rewrite E. simpl. apply IH. now left.
      * apply IH. now right.
Qed.

Lemma split_clean (s : string) :
  Spec.allChars (fun c => negb (Ascii.eqb c sep)) s = true ->
  JS.split sep s = [s].
Proof.
  induction s as [|c r IH]; simpl; [reflexivity|].
  intros H. apply andb_prop in H. destruct H as [Hc Hr].
  apply negb_true_iff in Hc. rewrite Hc, (IH Hr). reflexivity.
Qed.

End Split.

(** The header reader returns a token only from [Bearer <token>]. *)
Lemma extractTokenFromHeader_Some (header : option string) (token : string) :
  Jwt.extractTokenFromHeader header = Some token ->
  header = Some ("Bearer " ++ token)%string /\ Spec.noSpace token = true.
Proof.
  unfold Jwt.extractTokenFromHeader. destruct header as [h|]; [|discriminate].
  destruct (negb (JS.truthyString (Some h))); [discriminate|].
  pose proof (join_split " " h) as J.
  pose proof (split_parts_clean " " h) as C.
  destruct (JS.split " " h) as [|a [|b [|x l]]]; simpl; try discriminate.
  destruct (String.eqb a "Bearer") eqn:E; simpl; [|discriminate].
  intros H. inversion H; subst b. apply String.eqb_eq in E. subst a.
  split.
  - rewrite <- J. reflexivity.
  - apply C. right. now left.
Qed.

Lemma extractTokenFromHeader_bearer (token : string) :
  Spec.noSpace token = true ->
  Jwt.extractTokenFromHeader (Some ("Bearer " ++ token)%string) = Some token.
Proof.
  intros H. unfold Jwt.extractTokenFromHeader.
  cbn. rewrite (split_clean " " token H). reflexivity.
Qed.

Section Guard.
Variable verify : Jwt.Library.
Variable findById : string -> Result (option User.t).

(** C9.  On a request whose Authorization header is missing or is not
    of the form [Bearer <token>] (one space, a non-empty token without
    spaces), authenticate answers 401 "Access denied. No token
    provided." and optionalAuth calls next() with no user bound.
    optionalAuth calls next() on every request, and binds no user when
    the token does not verify, the user lookup throws, no user is found
    or the user is inactive. *)
Theorem missing_token_denied_optional_proceeds (header : option string) :
  (~ Spec.twoPartBearer header ->
     Auth.authenticate verify findById header
     = Auth.Deny 401 "Access denied. No token provided."
     /\ Auth.optionalAuth verify findById header = Auth.Proceed None)
  /\ (exists user, Auth.optionalAuth verify findById header = Auth.Proceed user)
  /\ (forall token, Jwt.extractTokenFromHeader header = Some token ->
        (forall e, Jwt.verifyToken verify token = Throw e ->
           Auth.optionalAuth verify findById header = Auth.Proceed None)
        /\ (forall decoded e,
              Jwt.verifyToken verify token = Ok decoded ->
              findById (Jwt.id decoded) = Throw e ->
              Auth.optionalAuth verify findById header = Auth.Proceed None)
        /\ (forall decoded,
              Jwt.verifyToken verify token = Ok decoded ->
              findById (Jwt.id decoded) = Ok None ->
              Auth.optionalAuth verify findById header = Auth.Proceed None)
        /\ (forall decoded user,
              Jwt.verifyToken verify token = Ok decoded ->
              findById (Jwt.id decoded) = Ok (Some user) ->
              User.isActive user = false ->
              Auth.optionalAuth verify findById header = Auth.Proceed None)).
Proof.
  split; [|split].
  - intros Hform. unfold Auth.authenticate, Auth.optionalAuth.
    destruct (Jwt.extractTokenFromHeader header) as [token|] eqn:E;
      [|split; reflexivity].
    destruct (extractTokenFromHeader_Some header token E) as [Hh Hs].
    destruct token as [|c r].
    + split; reflexivity.
    + exfalso. apply Hform. exists (String c r).
      split; [exact Hh|]. split; [exact Hs | discriminate].
  - unfold Auth.optionalAuth.
    destruct (Jwt.extractTokenFromHeader header) as [token|];
      [|eexists; reflexivity].
    destruct (JS.truthyString (Some token)); [|eexists; reflexivity].
    destruct (Auth.resolve verify findById token) as [[user|]|e];
      try (eexists; reflexivity).
    destruct (User.isActive user); eexists; reflexivity.
  - intros token E. unfold Auth.optionalAuth, Auth.resolve, bind. rewrite E.
    destruct (JS.truthyString (Some token));
      [|repeat split; intros; reflexivity].
    split; [|split; [|split]].
    + intros e ->. reflexivity.
    + intros decoded e -> ->. reflexivity.
    + intros decoded -> ->. reflexivity.
    + intros decoded user -> -> ->. reflexivity.
Qed.

End Guard.

(** The two middlewares on requests without a usable token and with an
    expired one. *)
Example authenticate_without_header :
  Auth.authenticate Sample.verify Sample.users None
  = Auth.Deny 401 "Access denied. No token provided."
  /\ Auth.authenticate Sample.verify Sample.users (Some "Token good"%string)
     = Auth.Deny 401 "Access denied. No token provided."
  /\ Auth.authenticate Sample.verify Sample.users (Some "Bearer good extra"%string)
     = Auth.Deny 401 "Access denied. No token provided."
  /\ Auth.authenticate Sample.verify Sample.users (Some "Bearer old"%string)
     = Auth.Deny 401 "Token has expired"
  /\ Auth.authenticate Sample.verify Sample.users (Some "Bearer good"%string)
     = Auth.Proceed (Some Sample.testuser)
  /\ Auth.optionalAuth Sample.verify Sample.users None = Auth.Proceed None
  /\ Auth.optionalAuth Sample.verify Sample.users (Some "Bearer old"%string)
     = Auth.Proceed None
  /\ Auth.optionalAuth Sample.verify Sample.users (Some "Bearer good"%string)
     = Auth.Proceed (Some Sample.testuser).
Proof. repeat split; vm_compute; reflexivity. Qed.

(* ------------------------------------------------------------------ *)
(** ** Grouping (C8) *)

Section Grouping.
Import Aggregate.
Variable path : Car -> string.
Variable val : Car -> Z.

Lemma seenFor_accumulate (k k' : string) (v : Z) (g : list Acc) :
  Spec.seenFor k' (accumulate k v g)
  = Spec.seenFor k' g + (if String.eqb k k' then 1 else 0).
Proof.
  unfold Spec.seenFor. induction g as [|a r IH]; simpl.
  - destruct (String.eqb k k'); simpl; lia.
  - destruct (String.eqb (key a) k) eqn:E; simpl.
    + apply String.eqb_eq in E. rewrite E.
      destruct (String.eqb k k'); simpl; lia.
    + destruct (String.eqb (key a) k'); simpl; rewrite IH; lia.
Qed.

Lemma totalFor_accumulate (k k' : string) (v : Z) (g : list Acc) :
  Spec.totalFor k' (accumulate k v g)
  = Spec.totalFor k' g + (if String.eqb k k' then v else 0).
Proof.
  unfold Spec.totalFor. induction g as [|a r IH]; simpl.
  - destruct (String.eqb k k'); simpl; lia.
  - destruct (String.eqb (key a) k) eqn:E; simpl.
    + apply String.eqb_eq in E. rewrite E.
      destruct (String.eqb k k'); simpl; lia.
    + destruct (String.eqb (key a) k'); simpl; rewrite IH; lia.
Qed.

Lemma sumSeen_accumulate (k : string) (v : Z) (g : list Acc) :
  Spec.sumSeen (accumulate k v g) = Spec.sumSeen g + 1.
Proof.
  unfold Spec.sumSeen. induction g as [|a r IH]; simpl; [lia|].
  destruct (String.eqb (key a) k); simpl; [lia | rewrite IH; lia].
Qed.

Lemma keys_accumulate (k k' : string) (v : Z) (g : list Acc) :
  In k' (map key (accumulate k v g)) <-> k' = k \/ In k' (map key g).
Proof.
  induction g as [|a r IH]; simpl.
  - intuition.
  - destruct (String.eqb (key a) k) eqn:E; simpl.
    + apply String.eqb_eq in E. subst k. intuition.
    + rewrite IH. intuition.
Qed.

Lemma keys_accumulate_NoDup (k : string) (v : Z) (g : list Acc) :
  NoDup (map key g) -> NoDup (map key (accumulate k v g)).
Proof.
  induction g as [|a r IH]; simpl; intros H.
  - constructor; [intros [] | constructor].
  - inversion H as [|? ? Hn Hr]; subst.
    destruct (String.eqb (key a) k) eqn:E; simpl.
    + apply String.eqb_eq in E. subst k. constructor; assumption.
    + constructor; [|apply IH; assumption].
      rewrite keys_accumulate. intros [Hk|Hk]; [|contradiction].
      apply String.eqb_neq in E. congruence.
Qed.

Let step (g : list Acc) (c : Car) : list Acc := accumulate (path c) (val c) g.

Lemma seenFor_fold (k : string) (docs : list Car) (g : list Acc) :
  Spec.seenFor k (fold_left step docs g)
  = Spec.seenFor k g + Z.of_nat (List.length (Spec.keyed path k docs)).
Proof.
  revert g. induction docs as [|c r IH]; intros g; simpl; [lia|].
  rewrite IH. unfold step. rewrite seenFor_accumulate.
  destruct (String.eqb (path c) k); simpl List.length; lia.
Qed.

Lemma totalFor_fold (k : string) (docs : list Car) (g : list Acc) :
  Spec.totalFor k (fold_left step docs g)
  = Spec.totalFor k g + sum val (Spec.keyed path k docs).
Proof.
  revert g. induction docs as [|c r IH]; intros g; simpl; [unfold sum; simpl; lia|].
  rewrite IH. unfold step. rewrite totalFor_accumulate.
  destruct (String.eqb (path c) k); unfold sum; simpl; lia.
Qed.

Lemma sumSeen_fold (docs : list Car) (g : list Acc) :
  Spec.sumSeen (fold_left step docs g)
  = Spec.sumSeen g + Z.of_nat (List.length docs).
Proof.
  revert g. induction docs as [|c r IH]; intros g; simpl List.length; simpl fold_left;
    [lia|].
  rewrite IH. unfold step. rewrite sumSeen_accumulate. lia.
Qed.

Lemma keys_fold (k : string) (docs : list Car) (g : list Acc) :
  In k (map key (fold_left step docs g))
  <-> In k (map key g) \/ In k (map path docs).
Proof.
  revert g. induction docs as [|c r IH]; intros g; simpl; [intuition|].
  rewrite IH. unfold step. rewrite keys_accumulate. intuition.
Qed.

Lemma keys_fold_NoDup (docs : list Car) (g : list Acc) :
  NoDup (map key g) -> NoDup (map key (fold_left step docs g)).
Proof.
  revert g. induction docs as [|c r IH]; intros g H; simpl; [assumption|].
  apply IH. apply keys_accumulate_NoDup. assumption.
Qed.

Lemma filter_key_absent (k : string) (g : list Acc) :
  ~ In k (map key g) -> filter (fun a => String.eqb (key a) k) g = [].
Proof.
  induction g as [|a r IH]; simpl; intros H; [reflexivity|].
  destruct (String.eqb (key a) k) eqn:E.
  - apply String.eqb_eq in E. exfalso. apply H. now left.
  - apply IH. intros Hin. apply H. now right.
Qed.

(** With distinct keys, what is recorded for an accumulator's key is
    what the accumulator holds. *)
Lemma NoDup_recorded (a : Acc) (g : list Acc) :
  NoDup (map key g) -> In a g ->
  Spec.seenFor (key a) g = seen a /\ Spec.totalFor (key a) g = total a.
Proof.
  unfold Spec.seenFor, Spec.totalFor.
  induction g as [|b r IH]; simpl; intros Hn Hin; [contradiction|].
  inversion Hn as [|? ? Hb Hr]; subst.
  destruct Hin as [->|Hin].
  - rewrite String.eqb_refl. simpl.
    rewrite (filter_key_absent (key a) r Hb). simpl. lia.
  - destruct (String.eqb (key b) (key a)) eqn:E.
    + apply String.eqb_eq in E. exfalso. apply Hb. rewrite E.
      now apply in_map.
    + now apply IH.
Qed.

(** The accumulators after a pass over [docs]: one per distinct key,
    each holding the number and the total of the documents with its
    key. *)
Lemma accumulateAll_spec (docs : list Car) :
  NoDup (map key (accumulateAll path val docs))
  /\ (forall k, In k (map key (accumulateAll path val docs))
                <-> In k (map path docs))
  /\ (forall a, In a (accumulateAll path val docs) ->
        seen a = Z.of_nat (List.length (Spec.keyed path (key a) docs))
        /\ total a = sum val (Spec.keyed path (key a) docs))
  /\ Spec.sumSeen (accumulateAll path val docs) = Z.of_nat (List.length docs).
Proof.
  unfold accumulateAll. fold step.
  assert (Hn : NoDup (map key (fold_left step docs [])))
    by (apply keys_fold_NoDup; constructor).
  split; [exact Hn|]. split; [|split].
  - intros k. rewrite keys_fold. simpl. intuition.
  - intros a Hin.
    destruct (NoDup_recorded a _ Hn Hin) as [Hs Ht].
    rewrite seenFor_fold in Hs. rewrite totalFor_fold in Ht.
    unfold Spec.seenFor, Spec.totalFor in Hs, Ht. simpl in Hs, Ht.
    split; lia.
  - rewrite sumSeen_fold. unfold Spec.sumSeen. simpl. lia.
Qed.

End Grouping.

Section ListFacts.
Context {A : Type}.

Lemma HdRel_impl (R R' : A -> A -> Prop) (x : A) (l : list A) :
  (forall a b, R a b -> R' a b) -> HdRel R x l -> HdRel R' x l.
Proof. intros HR H. destruct H; constructor; auto. Qed.

Lemma Sorted_impl (R R' : A -> A -> Prop) (l : list A) :
  (forall a b, R a b -> R' a b) -> Sorted R l -> Sorted R' l.
Proof.
  intros HR H. induction H as [|x l Hs IH Hh]; constructor;
    [assumption | apply (HdRel_impl R R'); assumption].
Qed.




End ListFacts.

Lemma sumCounts_perm (l l' : list Group.t) :
  Permutation l l' -> Spec.sumCounts l = Spec.sumCounts l'.
Proof.
  unfold Spec.sumCounts. intros H.
  induction H; simpl; lia.
Qed.

Lemma sumCounts_groupBy (path : Car -> string) (val : Car -> Z) (docs : list Car) :
  Spec.sumCounts (Aggregate.groupBy path val docs) = Z.of_nat (List.length docs).
Proof.
  destruct (accumulateAll_spec path val docs) as [_ [_ [_ H]]].
  unfold Spec.sumCounts, Aggregate.groupBy. rewrite map_map. exact H.
Qed.

Lemma find_matchStage (st : Store.t) :
  Store.find Aggregate.matchStage st = filter (Spec.visible "available") st.
Proof. unfold Store.find. apply filter_ext. apply matchStage_visible. Qed.

Lemma keyed_nonempty (path : Car -> string) (k : string) (docs : list Car) :
  In k (map path docs) -> (0 < Z.of_nat (List.length (Spec.keyed path k docs))).
Proof.
  intros H. apply in_map_iff in H. destruct H as [c [Hk Hin]].
  assert (Hc : In c (Spec.keyed path k docs)).
  { unfold Spec.keyed. apply filter_In. split; [assumption|].
    now apply String.eqb_eq. }
  destruct (Spec.keyed path k docs); [contradiction | simpl; lia].
Qed.


(** The statistics of the sample store: two visible listings of two
    makes, the soft-deleted third one left out. *)
Example getCarStats_sample :
  exists s,
    CarController.getCarStats Sample.cars = Json 200 true None (Some s)
    /\ option_map Overview.totalCars (Stats.overview s) = Some 2
    /\ map (fun g => (Group._id g, Group.count g)) (Stats.topMakes s)
       = [("Maruti suzuki"%string, 1); ("Hyundai"%string, 1)]
    /\ Stats.overview
         (Stats.mk (List.hd_error (Aggregate.groupAll [])) [] []) = None.
Proof.
  eexists. split; [reflexivity|]. repeat split; vm_compute; reflexivity.
Qed.

(* ================================================================== *)
(** * Further properties of the middleware and the token helpers *)

(** X1.  extractTokenFromHeader returns [token] exactly for the header
    ["Bearer " ++ token] with a token free of spaces (the empty token
    included); every other header, and a missing one, gives null. *)
Theorem extractTokenFromHeader_iff (header : option string) (token : string) :
  Jwt.extractTokenFromHeader header = Some token
  <-> header = Some ("Bearer " ++ token)%string /\ Spec.noSpace token = true.
Proof.
  split.
  - apply extractTokenFromHeader_Some.
  - intros [-> H]. apply extractTokenFromHeader_bearer. exact H.
Qed.

Section GuardFacts.
Variable verify : Jwt.Library.
Variable findById : string -> Result (option User.t).

Lemma authenticate_token (header : option string) (token : string) :
  Jwt.extractTokenFromHeader header = Some token ->
  token <> EmptyString ->
  Auth.authenticate verify findById header
  = match Auth.resolve verify findById token with
    | Ok (Some user) =>
        if negb (User.isActive user) then
          Auth.Deny 401 "Access denied. User not found or inactive."
        else Auth.Proceed (Some user)
    | Ok None => Auth.Deny 401 "Access denied. User not found or inactive."
    | Throw error =>
        Auth.Deny 401
          (if JS.truthyString (Some (message error)) then message error
           else "Invalid token")
    end.
Proof.
  intros E Hne. unfold Auth.authenticate. rewrite E.
  destruct token as [|c r]; [congruence | reflexivity].
Qed.

Lemma authenticate_no_token (header : option string) :
  (forall token, Jwt.extractTokenFromHeader header = Some token ->
                 token = EmptyString) ->
  Auth.authenticate verify findById header
  = Auth.Deny 401 "Access denied. No token provided.".
Proof.
  intros H. unfold Auth.authenticate.
  destruct (Jwt.extractTokenFromHeader header) as [token|]; [|reflexivity].
  rewrite (H token eq_refl). reflexivity.
Qed.

(** X2.  authenticate is a hard gate: it calls next() only with a user
    bound, and it does so exactly when the header is [Bearer <token>] with
    a non-empty token that verifies and whose id is that of a stored,
    active user, who is then the bound user.  Whenever it answers itself,
    the status is 401. *)
Theorem authenticate_proceeds_iff (header : option string) :
  (forall bound,
     Auth.authenticate verify findById header = Auth.Proceed bound <->
     exists token decoded user,
       header = Some ("Bearer " ++ token)%string
       /\ Spec.noSpace token = true
       /\ token <> EmptyString
       /\ Jwt.verifyToken verify token = Ok decoded
       /\ findById (Jwt.id decoded) = Ok (Some user)
       /\ User.isActive user = true
       /\ bound = Some user)
  /\ (forall code m,
        Auth.authenticate verify findById header = Auth.Deny code m ->
        code = 401).
Proof.
  destruct (Jwt.extractTokenFromHeader header) as [token|] eqn:E.
  - destruct (string_dec token EmptyString) as [Hemp|Hne].
    + assert (N : Auth.authenticate verify findById header
                  = Auth.Deny 401 "Access denied. No token provided.").
      { apply authenticate_no_token. intros t Ht. congruence. }
      rewrite N. split.
      * intros bound. split; [discriminate|].
        intros [t [d [u [Hh [Hs [Ht _]]]]]].
        assert (Jwt.extractTokenFromHeader header = Some t)
          by (rewrite Hh; apply extractTokenFromHeader_bearer; exact Hs).
        congruence.
      * intros code m H. inversion H. reflexivity.
    + rewrite (authenticate_token header token E Hne).
      apply extractTokenFromHeader_Some in E. destruct E as [Hh Hs].
      unfold Auth.resolve, bind.
      split.
      * intros bound. split.
        -- destruct (Jwt.verifyToken verify token) as [d|e] eqn:V;
             [|discriminate].
           destruct (findById (Jwt.id d)) as [[u|]|e] eqn:F; try discriminate.
           destruct (User.isActive u) eqn:A; simpl; [|discriminate].
           intros H. inversion H; subst bound.
           exists token, d, u. repeat split; auto.
        -- intros [t [d [u [Hh' [Hs' [Ht [V [F [A ->]]]]]]]]].
           assert (t = token).
           { rewrite Hh in Hh'. inversion Hh' as [Heq].
             revert Heq. clear. revert t.
             induction token; destruct t; simpl; intros; congruence. }
           subst t. rewrite V, F, A. reflexivity.
      * intros code m.
        destruct (Jwt.verifyToken verify token) as [d|e];
          [|intros H; inversion H; reflexivity].
        destruct (findById (Jwt.id d)) as [[u|]|e];
          try (intros H; inversion H; reflexivity).
        destruct (User.isActive u); simpl; intros H; inversion H; reflexivity.
  - assert (N : Auth.authenticate verify findById header
                = Auth.Deny 401 "Access denied. No token provided.").
    { apply authenticate_no_token. intros t Ht. congruence. }
    rewrite N. split.
    + intros bound. split; [discriminate|].
      intros [t [d [u [Hh [Hs _]]]]].
      assert (Jwt.extractTokenFromHeader header = Some t)
        by (rewrite Hh; apply extractTokenFromHeader_bearer; exact Hs).
      congruence.
    + intros code m H. inversion H. reflexivity.
Qed.

(** X3.  optionalAuth resolves the request as authenticate does: where
    authenticate proceeds, optionalAuth proceeds with the same user, and
    where authenticate denies, optionalAuth proceeds without a user. *)
Theorem optionalAuth_follows_authenticate (header : option string) :
  match Auth.authenticate verify findById header with
  | Auth.Proceed bound =>
      Auth.optionalAuth verify findById header = Auth.Proceed bound
  | Auth.Deny _ _ =>
      Auth.optionalAuth verify findById header = Auth.Proceed None
  end.
Proof.
  unfold Auth.authenticate, Auth.optionalAuth.
  destruct (Jwt.extractTokenFromHeader header) as [token|]; [|reflexivity].
  destruct (JS.truthyString (Some token)); simpl; [|reflexivity].
  destruct (Auth.resolve verify findById token) as [[u|]|e]; try reflexivity.
  destruct (User.isActive u); reflexivity.
Qed.

(** X6.  When the token does not verify, authenticate answers 401 with
    one of the three messages of verifyToken, chosen by the name of the
    library's error; the library's own message never reaches the
    client. *)
Theorem authenticate_rejected_token
    (header : option string) (token : string) (e : Error) :
  Jwt.extractTokenFromHeader header = Some token ->
  token <> EmptyString ->
  verify token = Throw e ->
  Auth.authenticate verify findById header
  = Auth.Deny 401
      (if String.eqb (errorName e) "TokenExpiredError" then "Token has expired"
       else if String.eqb (errorName e) "JsonWebTokenError" then "Invalid token"
       else "Token verification failed").
Proof.
  intros E Hne V. rewrite (authenticate_token header token E Hne).
  unfold Auth.resolve, Jwt.verifyToken, bind. rewrite V.
  destruct (String.eqb (errorName e) "TokenExpiredError"); [reflexivity|].
  destruct (String.eqb (errorName e) "JsonWebTokenError"); reflexivity.
Qed.

End GuardFacts.

Lemma authenticate_rejected_token_witness :
  Jwt.extractTokenFromHeader (Some "Bearer old"%string) = Some "old"%string
  /\ Sample.verify "old" = Throw (mkError "TokenExpiredError" "jwt expired")
  /\ Auth.authenticate Sample.verify Sample.users (Some "Bearer old"%string)
     = Auth.Deny 401 "Token has expired".
Proof.
  split; [reflexivity|]. split; [reflexivity|].
  apply (authenticate_rejected_token Sample.verify Sample.users
           (Some "Bearer old"%string) "old"%string
           (mkError "TokenExpiredError" "jwt expired")).
  - reflexivity.
  - discriminate.
  - reflexivity.
Defined.

(** X4.  authorize lets a request pass exactly when a user is bound and
    the user's role is one of the allowed roles, and it passes the user
    on unchanged; without a user it answers 401 and with another role
    403.  With no role allowed, nobody passes. *)
Theorem authorize_spec (roles : list string) (user : option User.t) :
  (forall bound,
     Auth.authorize roles user = Auth.Proceed bound <->
     bound = user /\ exists u, user = Some u /\ In (User.role u) roles)
  /\ (forall code m,
        Auth.authorize roles user = Auth.Deny code m ->
        (code = 401 /\ user = None)
        \/ (code = 403 /\ exists u, user = Some u /\ ~ In (User.role u) roles))
  /\ (roles = [] -> forall bound, Auth.authorize roles user <> Auth.Proceed bound).
Proof.
  unfold Auth.authorize.
  assert (Hmem : forall u : User.t,
            existsb (String.eqb (User.role u)) roles = true
            <-> In (User.role u) roles).
  { intros u. rewrite existsb_exists. split.
    - intros [x [Hin Hx]]. apply String.eqb_eq in Hx. congruence.
    - intros Hin. exists (User.role u). split; [assumption|].
      apply String.eqb_refl. }
  destruct user as [u|].
  - destruct (existsb (String.eqb (User.role u)) roles) eqn:E; simpl.
    + split; [|split].
      * intros bound. split.
        -- intros H. inversion H. split; [reflexivity|].
           exists u. split; [reflexivity | now apply Hmem].
        -- intros [-> _]. reflexivity.
      * discriminate.
      * intros -> bound. simpl in E. discriminate.
    + split; [|split].
      * intros bound. split; [discriminate|].
        intros [_ [u' [Hu Hin]]]. inversion Hu; subst u'.
        apply Hmem in Hin. congruence.
      * intros code m H. inversion H. right. split; [reflexivity|].
        exists u. split; [reflexivity|].
        intros Hin. apply Hmem in Hin. congruence.
      * discriminate.
  - split; [|split].
    + intros bound. split; [discriminate|].
      intros [_ [u [Hu _]]]. discriminate.
    + intros code m H. inversion H. left. split; reflexivity.
    + discriminate.
Qed.

Section Issued.
Variable sign : Tokens.Signer.
Variable envExpiresIn : option string.
Variable verify : Jwt.Library.
Variable findById : string -> Result (option User.t).

(** X5.  With a library that verifies what it has signed, and whose
    tokens are compact (non-empty, no space), both tokens that
    generateTokens issues for a stored, active user authenticate as that
    user: authenticate reads only the [id] of the payload, so the refresh
    token passes it as well as the access token.  The pair announces a
    lifetime of 900 seconds. *)
Theorem issued_tokens_authenticate (user : User.t) (pair : Tokens.Pair) :
  (forall payload lifetime token,
     sign payload lifetime = Ok token ->
     verify token = Ok (Jwt.mkPayload (Tokens.id payload))
     /\ Spec.noSpace token = true /\ token <> EmptyString) ->
  findById (User._id user) = Ok (Some user) ->
  User.isActive user = true ->
  Tokens.generateTokens sign envExpiresIn user = Ok pair ->
  Tokens.expiresIn pair = 900
  /\ Auth.authenticate verify findById
       (Some ("Bearer " ++ Tokens.accessToken pair)%string)
     = Auth.Proceed (Some user)
  /\ Auth.authenticate verify findById
       (Some ("Bearer " ++ Tokens.refreshToken pair)%string)
     = Auth.Proceed (Some user).
Proof.
  intros Hlib Hfind Hact H.
  unfold Tokens.generateTokens, Tokens.generateToken, bind in H.
  destruct (sign (Tokens.mkClaims (User._id user) (Some (User.email user))
                    (Some (User.username user)) (Some (User.role user))) "15m")
    as [a|] eqn:Ea; [|discriminate].
  destruct (sign (Tokens.mkClaims (User._id user) None None None) "7d")
    as [r|] eqn:Er; [|discriminate].
  inversion H; subst pair; clear H. simpl.
  destruct (Hlib _ _ _ Ea) as [Va [Sa Na]].
  destruct (Hlib _ _ _ Er) as [Vr [Sr Nr]].
  simpl in Va, Vr.
  assert (Hgo : forall t, verify t = Ok (Jwt.mkPayload (User._id user)) ->
                  Spec.noSpace t = true -> t <> EmptyString ->
                  Auth.authenticate verify findById (Some ("Bearer " ++ t)%string)
                  = Auth.Proceed (Some user)).
  { intros t Vt St Nt.
    rewrite (authenticate_token verify findById _ t
               (extractTokenFromHeader_bearer t St) Nt).
    unfold Auth.resolve, Jwt.verifyToken, bind. rewrite Vt. simpl.
    rewrite Hfind, Hact. reflexivity. }
  split; [reflexivity|]. split; apply Hgo; assumption.
Qed.

(** When signing fails, generateTokens throws "Token generation failed",
    whatever the library reported. *)
Lemma generateTokens_sign_failure (user : User.t) :
  (forall payload lifetime, exists e, sign payload lifetime = Throw e) ->
  Tokens.generateTokens sign envExpiresIn user
  = Throw (newError "Token generation failed").
Proof.
  intros H. unfold Tokens.generateTokens, Tokens.generateToken, bind.
  destruct (H (Tokens.mkClaims (User._id user) (Some (User.email user))
                 (Some (User.username user)) (Some (User.role user))) "15m"%string)
    as [e ->].
  reflexivity.
Qed.

End Issued.

Lemma issued_tokens_authenticate_witness :
  exists pair,
    Tokens.generateTokens Toy.sign None Sample.testuser = Ok pair
    /\ Sample.users (User._id Sample.testuser) = Ok (Some Sample.testuser)
    /\ Tokens.expiresIn pair = 900
    /\ Auth.authenticate Toy.verify Sample.users
         (Some ("Bearer " ++ Tokens.accessToken pair)%string)
       = Auth.Proceed (Some Sample.testuser)
    /\ Auth.authenticate Toy.verify Sample.users
         (Some ("Bearer " ++ Tokens.refreshToken pair)%string)
       = Auth.Proceed (Some Sample.testuser).
Proof.
  eexists. split; [vm_compute; reflexivity|]. split; [reflexivity|].
  apply (issued_tokens_authenticate Toy.sign None Toy.verify Sample.users
           Sample.testuser).
  - intros payload lifetime token. unfold Toy.sign, Toy.verify.
    destruct (Spec.noSpace (Tokens.id payload)) eqn:S; simpl; [|discriminate].
    destruct (String.eqb (Tokens.id payload) EmptyString) eqn:E; simpl;
      [discriminate|].
    intros H. inversion H; subst token.
    split; [reflexivity|]. split; [exact S|].
    now apply String.eqb_neq.
  - reflexivity.
  - reflexivity.
  - vm_compute. reflexivity.
Defined.

(* ================================================================== *)
(** * Further properties of getCars *)

Section Selection.
Import Store.
Variable engine : RegExpEngine.

Lemma matches_single (p : string) (k : Cond) (c : Car) :
  matches [(p, k)] c = holds k (getPath p c).
Proof. unfold matches. simpl. apply andb_true_r. Qed.

Lemma setRegExp_matches (p : string) (v subject : option string)
    (f f' : Filter) (c : Car) :
  getPath p c = ofText subject ->
  CarController.setRegExp engine p v f = Ok f' ->
  matches f' c = matches f c && Search.pattern engine v subject.
Proof.
  intros Hp H. unfold CarController.setRegExp in H. unfold Search.pattern.
  destruct v as [s|]; [|inversion H; now rewrite andb_true_r].
  destruct (JS.truthyString (Some s));
    [|inversion H; now rewrite andb_true_r].
  destruct (engine s) as [re|]; [|discriminate].
  inversion H; subst f'. rewrite matches_app, matches_single, Hp.
  destruct subject; reflexivity.
Qed.

Lemma setRange_matches (p : string) (lo hi : option Z) (f : Filter)
    (c : Car) (n : Z) :
  getPath p c = VNum n ->
  matches (CarController.setRange p lo hi f) c
  = matches f c && Search.bounds lo hi n.
Proof.
  intros Hp. unfold CarController.setRange, Search.bounds.
  destruct (JS.truthyNumber lo) eqn:L; destruct (JS.truthyNumber hi) eqn:H;
    simpl;
    try (rewrite matches_app, matches_single, Hp, holds_Range;
         [reflexivity|]).
  - left. destruct lo; [discriminate | discriminate L].
  - left. destruct lo; [discriminate | discriminate L].
  - right. destruct hi; [discriminate | discriminate H].
  - unfold Spec.within. simpl. now rewrite andb_true_r.
Qed.

Lemma setExact_matches (p : string) (v : option string) (f : Filter)
    (c : Car) (s : string) :
  getPath p c = VStr s ->
  matches (CarController.setExact p v f) c = matches f c && Search.exact v s.
Proof.
  intros Hp. unfold CarController.setExact, Search.exact.
  destruct v as [x|]; [|now rewrite andb_true_r].
  destruct (JS.truthyString (Some x)); [|now rewrite andb_true_r].
  rewrite matches_app, matches_single, Hp. reflexivity.
Qed.

(** The filter of a query selects by all its options at once. *)
Lemma buildFilter_selects (q : Query.t) (f : Filter) (c : Car) :
  CarController.buildFilter engine q = Ok f ->
  matches f c = Search.selected engine q c.
Proof.
  unfold CarController.buildFilter, bind. intros H.
  destruct (CarController.setRegExp engine "make" _ _) as [f1|] eqn:E1;
    [|discriminate].
  destruct (CarController.setRegExp engine "model" _ _) as [f2|] eqn:E2;
    [|discriminate].
  destruct (CarController.setRegExp engine "location.city" _ _) as [f3|] eqn:E3;
    [|discriminate].
  destruct (CarController.setRegExp engine "location.state" _ _) as [f4|] eqn:E4;
    [|discriminate].
  inversion H; subst f4; clear H.
  rewrite (setRegExp_matches "location.state" _ (state (location c)) _ _ c
             eq_refl E4).
  rewrite (setRegExp_matches "location.city" _ (city (location c)) _ _ c
             eq_refl E3).
  rewrite (setExact_matches "bodyType" _ _ c (bodyType c) eq_refl).
  rewrite (setExact_matches "transmission" _ _ c (transmission c) eq_refl).
  rewrite (setExact_matches "fuelType" _ _ c (fuelType c) eq_refl).
  rewrite (setRange_matches "year" _ _ _ c (year c) eq_refl).
  rewrite (setRange_matches "price" _ _ _ c (price c) eq_refl).
  rewrite (setRegExp_matches "model" _ (Some (model c)) _ _ c eq_refl E2).
  rewrite (setRegExp_matches "make" _ (Some (make c)) _ _ c eq_refl E1).
  rewrite matches_base. reflexivity.
Qed.

(** X7.  What getCars answers with is what the query selects: [total]
    counts the listings of the store that are visible under the resolved
    status and pass every option of the query (text options by their
    RegExp, ranges by their non-zero bounds, enum options by equality);
    every returned listing is one of them; and on page 1 with a limit
    that covers the total, the page holds all of them. *)
Theorem getCars_selects
    (q : Query.t) (st : Store.t) (code : Z) (ok : bool) (msg : option string)
    (body : Listing.t) :
  CarController.getCars engine q st = Json code ok msg (Some body) ->
  Pagination.total (Listing.pagination body)
  = Z.of_nat (List.length (filter (Search.selected engine q) st))
  /\ (forall c, In c (Listing.data body) ->
        In c st /\ Search.selected engine q c = true)
  /\ (Pagination.page (Listing.pagination body) = 1 ->
      0 < Pagination.limit (Listing.pagination body) ->
      Pagination.total (Listing.pagination body)
      <= Pagination.limit (Listing.pagination body) ->
      Permutation (Listing.data body) (filter (Search.selected engine q) st)).
Proof.
  intros H.
  assert (Hsel : forall f, CarController.buildFilter engine q = Ok f ->
                   Store.find f st = filter (Search.selected engine q) st).
  { intros f Hf. unfold Store.find. apply filter_ext. intros c.
    apply buildFilter_selects. exact Hf. }
  unfold CarController.getCars in H.
  destruct (CarController.buildFilter engine q) as [f|] eqn:Hf;
    simpl in H; [|discriminate].
  destruct (Store.skip _ _) as [rest|] eqn:Hs; simpl in H; [|discriminate].
  inversion H; subst; clear H. simpl.
  unfold Store.countDocuments. rewrite (Hsel f eq_refl).
  split; [reflexivity|]. split.
  - intros c Hin. apply limit_incl in Hin. apply (skip_incl _ _ _ _ Hs) in Hin.
    apply (Permutation_in _ (sort_perm _ _)) in Hin.
    rewrite (Hsel f eq_refl) in Hin. apply filter_In in Hin. exact Hin.
  - intros HP HN HT. rewrite HP in Hs. simpl in Hs.
    unfold Store.skip in Hs. simpl in Hs. inversion Hs; subst rest; clear Hs.
    rewrite (Hsel f eq_refl).
    unfold Store.limit.
    destruct (JS.orDefault (Query.limit q) 10 =? 0) eqn:E;
      [apply Z.eqb_eq in E; lia|].
    rewrite firstn_all2; [apply sort_perm|].
    rewrite (Permutation_length (sort_perm _ _)). lia.
Qed.




(** X9.  On page [P >= 1] with limit [N >= 1] the page holds
    [min N (max 0 (total - (P-1)*N))] listings: full pages before the
    last, the remainder on the last, none beyond it. *)
Theorem getCars_count
    (q : Query.t) (st : Store.t) (code : Z) (ok : bool) (msg : option string)
    (body : Listing.t) (P N : Z) :
  P = JS.orDefault (Query.page q) 1 ->
  N = JS.orDefault (Query.limit q) 10 ->
  1 <= P -> 1 <= N ->
  CarController.getCars engine q st = Json code ok msg (Some body) ->
  Listing.count body
  = Z.min N (Z.max 0 (Pagination.total (Listing.pagination body) - (P - 1) * N))
  /\ Listing.count body = Z.of_nat (List.length (Listing.data body)).
Proof.
  intros HP HN HP1 HN1 H.
  unfold CarController.getCars in H. rewrite <- HP, <- HN in H.
  destruct (CarController.buildFilter engine q) as [f|];
    simpl in H; [|discriminate].
  assert (Hk : 0 <= (P - 1) * N) by nia.
  rewrite (skip_Ok _ _ Hk) in H. simpl in H.
  inversion H; subst code ok msg body; clear H. simpl.
  split; [|reflexivity].
  unfold Store.limit, Store.countDocuments.
  destruct (N =? 0) eqn:E; [apply Z.eqb_eq in E; lia|].
  rewrite length_firstn, length_skipn, (Permutation_length (sort_perm _ _)).
  generalize dependent ((P - 1) * N). intros k Hk.
  generalize (List.length (find f st)). intros n. lia.
Qed.

Lemma setRegExp_cases (p : string) (v : option string) (f : Filter) :
  (exists s, v = Some s /\ JS.truthyString v = true /\ engine s = None
             /\ CarController.setRegExp engine p v f = Throw RegExpSyntaxError)
  \/ ((forall s, v = Some s -> JS.truthyString v = true -> engine s <> None)
      /\ exists f', CarController.setRegExp engine p v f = Ok f').
Proof.
  unfold CarController.setRegExp. destruct v as [s|].
  - destruct (JS.truthyString (Some s)) eqn:T.
    + destruct (engine s) as [re|] eqn:E.
      * right. split; [|eexists; reflexivity].
        intros s' H _. inversion H; subst. congruence.
      * left. exists s. repeat split; auto.
    + right. split; [|eexists; reflexivity]. intros s' _ H. discriminate.
  - right. split; [|eexists; reflexivity]. intros s H. discriminate.
Qed.

Lemma In_patterns (q : Query.t) (s : string) :
  In s (Search.patterns q) <->
  exists v, In v [Query.make q; Query.model q; Query.city q; Query.state q]
            /\ v = Some s /\ JS.truthyString v = true.
Proof.
  unfold Search.patterns. rewrite in_flat_map. split.
  - intros [v [Hv Hin]]. exists v. split; [assumption|].
    destruct v as [x|]; [|contradiction].
    destruct (JS.truthyString (Some x)) eqn:T; [|contradiction].
    destruct Hin as [->|[]]. split; reflexivity.
  - intros [v [Hv [-> T]]]. exists (Some s). split; [assumption|].
    rewrite T. now left.
Qed.

(** X10.  getCars forwards a SyntaxError exactly when one of the text
    options (make, model, city, state) is not a regular expression that
    the runtime accepts; with acceptable patterns, a page of at least 1
    and a limit of at least 1 it always answers 200. *)
Theorem getCars_bad_pattern (q : Query.t) (st : Store.t) :
  (CarController.getCars engine q st = Next RegExpSyntaxError
   <-> exists s, In s (Search.patterns q) /\ engine s = None)
  /\ ((forall s, In s (Search.patterns q) -> engine s <> None) ->
      1 <= JS.orDefault (Query.page q) 1 ->
      1 <= JS.orDefault (Query.limit q) 10 ->
      exists body,
        CarController.getCars engine q st = Json 200 true None (Some body)).
Proof.
  assert (Hbuild :
    (exists s, In s (Search.patterns q) /\ engine s = None)
    /\ CarController.buildFilter engine q = Throw RegExpSyntaxError
    \/ (forall s, In s (Search.patterns q) -> engine s <> None)
       /\ exists f, CarController.buildFilter engine q = Ok f).
  { unfold CarController.buildFilter, bind.
    match goal with
    | |- context [CarController.setRegExp engine "make" ?v ?f] =>
        destruct (setRegExp_cases "make" v f)
          as [[s [V [T [N ->]]]] | [G1 [f1 ->]]]
    end.
    { left. split; [|reflexivity]. exists s. split; [|exact N].
      apply In_patterns. exists (Query.make q). rewrite V in *. simpl. intuition. }
    match goal with
    | |- context [CarController.setRegExp engine "model" ?v ?f] =>
        destruct (setRegExp_cases "model" v f)
          as [[s [V [T [N ->]]]] | [G2 [f2 ->]]]
    end.
    { left. split; [|reflexivity]. exists s. split; [|exact N].
      apply In_patterns. exists (Query.model q). rewrite V in *. simpl. intuition. }
    match goal with
    | |- context [CarController.setRegExp engine "location.city" ?v ?f] =>
        destruct (setRegExp_cases "location.city" v f)
          as [[s [V [T [N ->]]]] | [G3 [f3 ->]]]
    end.
    { left. split; [|reflexivity]. exists s. split; [|exact N].
      apply In_patterns. exists (Query.city q). rewrite V in *. simpl. intuition. }
    match goal with
    | |- context [CarController.setRegExp engine "location.state" ?v ?f] =>
        destruct (setRegExp_cases "location.state" v f)
          as [[s [V [T [N ->]]]] | [G4 [f4 ->]]]
    end.
    { left. split; [|reflexivity]. exists s. split; [|exact N].
      apply In_patterns. exists (Query.state q). rewrite V in *. simpl. intuition. }
    right. split; [|eexists; reflexivity].
    intros s Hs. apply In_patterns in Hs.
    destruct Hs as [v [Hv [E T]]]. simpl in Hv.
    destruct Hv as [<-|[<-|[<-|[<-|[]]]]]; eauto. }
  unfold CarController.getCars.
  destruct Hbuild as [[Hbad Hf] | [Hgood [f Hf]]]; rewrite Hf; simpl.
  - split; [split; [intros _; exact Hbad | reflexivity]|].
    intros Hok. exfalso. destruct Hbad as [s [Hs N]]. exact (Hok s Hs N).
  - split.
    + split.
      * intros H. exfalso. unfold Store.skip in H.
        destruct (_ <? 0); simpl in H; discriminate.
      * intros [s [Hs N]]. exfalso. exact (Hgood s Hs N).
    + intros _ HP HN. rewrite skip_Ok by nia. simpl. eexists. reflexivity.
Qed.

End Selection.

Lemma getCars_selects_witness :
  exists body,
    CarController.getCars Sample.literalEngine
      (Query.mk None None (Some "price"%string) (Some "MARUTI"%string) None
         (Some 500000) None None None None None None None None None)
      Sample.cars
    = Json 200 true None (Some body)
    /\ Pagination.total (Listing.pagination body) = 1
    /\ forall c, In c (Listing.data body) -> c = Sample.swift.
Proof.
  eexists. split; [vm_compute; reflexivity|].
  match goal with
  | |- Pagination.total (Listing.pagination ?b) = _ /\ _ =>
      destruct (getCars_selects Sample.literalEngine
                  (Query.mk None None (Some "price"%string)
                     (Some "MARUTI"%string) None (Some 500000) None None None
                     None None None None None None)
                  Sample.cars 200 true None b) as [T [D _]]
  end.
  - vm_compute. reflexivity.
  - split; [rewrite T; vm_compute; reflexivity|].
    intros c Hc. simpl in Hc. destruct Hc as [<-|[]]. reflexivity.
Defined.

Lemma getCars_count_witness :
  exists body,
    CarController.getCars Sample.literalEngine
      (Spec.withWindow (Some 2) (Some 1) Query.empty) Sample.cars
    = Json 200 true None (Some body)
    /\ Listing.count body = 1.
Proof.
  eexists. split; [vm_compute; reflexivity|].
  match goal with
  | |- Listing.count ?b = _ =>
      destruct (getCars_count Sample.literalEngine
                  (Spec.withWindow (Some 2) (Some 1) Query.empty) Sample.cars
                  200 true None b 2 1 eq_refl eq_refl ltac:(lia) ltac:(lia))
        as [C _]
  end.
  - vm_compute. reflexivity.
  - rewrite C. vm_compute. reflexivity.
Defined.


(* ================================================================== *)
(** * Further properties of the handlers that write *)

Lemma map_id_modify (id : ObjectId) (f : Car -> Car) (st : Store.t) :
  (forall c, _id (f c) = _id c) ->
  map _id (Store.modify id f st) = map _id st.
Proof.
  intros Hf. induction st as [|d r IH]; simpl; [reflexivity|].
  destruct (N.eqb (_id d) id); simpl; [rewrite Hf | rewrite IH]; reflexivity.
Qed.

Lemma findById_app_old (id : ObjectId) (st more : Store.t) (c : Car) :
  Store.findById id st = Some c -> Store.findById id (st ++ more) = Some c.
Proof.
  unfold Store.findById. induction st as [|d r IH]; simpl; [discriminate|].
  destruct (N.eqb (_id d) id); [auto | exact IH].
Qed.

Lemma findById_not_in (id : ObjectId) (st : Store.t) :
  Store.findById id st = None <-> ~ In id (map _id st).
Proof.
  split.
  - intros H Hin. apply in_map_iff in Hin. destruct Hin as [c [Hc Hin]].
    exact (findById_None id st H c Hin Hc).
  - intros H. destruct (Store.findById id st) as [c|] eqn:E; [|reflexivity].
    apply findById_Some in E. destruct E as [Hin Hc].
    exfalso. apply H. rewrite <- Hc. now apply in_map.
Qed.

Lemma later_refl (c : Car) : Frame.later c c.
Proof. unfold Frame.later. repeat split; auto. lia. Qed.

Lemma later_trans (a b c : Car) :
  Frame.later a b -> Frame.later b c -> Frame.later a c.
Proof.
  unfold Frame.later. intros [I1 [C1 [V1 A1]]] [I2 [C2 [V2 A2]]].
  repeat split; try congruence; try lia. auto.
Qed.

Lemma gentle_view (now : Z) :
  Frame.gentle (fun c => Schema.stampUpdated now (Schema.incViewCount c)).
Proof. intros c. unfold Frame.later. simpl. repeat split; auto. lia. Qed.

Lemma gentle_set (now : Z) (b : Body.t) :
  Frame.gentle (fun c => Schema.stampUpdated now (Schema.applySet b c)).
Proof. intros c. unfold Frame.later. simpl. repeat split; auto. lia. Qed.

Lemma gentle_deactivate (now : Z) :
  Frame.gentle (fun c => Schema.stampUpdated now (Schema.setInactive c)).
Proof. intros c. unfold Frame.later. simpl. repeat split; auto. lia. Qed.

Lemma getCar_active (id : ObjectId) (now : Z) (st : Store.t) (c : Car) :
  Store.findById id st = Some c ->
  isActive c = true ->
  CarController.getCar id now st
  = (Json 200 true None (Some c), Model.incrementViews id now st)
  /\ Store.findById id (Model.incrementViews id now st)
     = Some (Schema.stampUpdated now (Schema.incViewCount c)).
Proof.
  intros Hc Ha. unfold CarController.getCar, Model.incrementViews.
  rewrite Hc, Ha. split; [reflexivity|].
  rewrite findById_modify by (intros d; reflexivity).
  rewrite Hc. reflexivity.
Qed.

Section Histories.
Variable nextYear : Z.

(** One request leaves the store as it is, or moves one record to a
    later state, or appends a document under an unused id. *)
Lemma step_shape (st : Store.t) (request : Api.Call * Z) :
  Api.step nextYear st request = st
  \/ (exists id f, Frame.gentle f
                   /\ Api.step nextYear st request = Store.modify id f st)
  \/ (exists doc, Store.findById (_id doc) st = None
                  /\ Api.step nextYear st request = st ++ [doc]).
Proof.
  destruct request as [[id | user body oid | user id body | user id] now];
    simpl.
  - unfold CarController.getCar.
    destruct (Store.findById id st) as [c|]; [|now left].
    destruct (isActive c); simpl; [|now left].
    right. left. eexists. eexists. split; [apply (gentle_view now)|].
    reflexivity.
  - unfold CarController.createCar, Model.create.
    destruct (Schema.requiredPaths _ && Schema.validPaths _ _); [|now left].
    destruct (Store.findById oid st) eqn:E; [now left|].
    right. right. eexists. split; [|reflexivity]. exact E.
  - unfold CarController.updateCar, Model.findByIdAndUpdate.
    destruct (Store.findById id st) as [c|]; [|now left].
    destruct (Schema.validPaths _ _); [|now left].
    right. left. eexists. eexists. split; [apply (gentle_set now)|].
    reflexivity.
  - unfold CarController.deleteCar.
    destruct (Store.findById id st) as [c|]; [|now left].
    right. left. eexists. eexists. split; [apply (gentle_deactivate now)|].
    reflexivity.
Qed.

(** X11.  No sequence of view, create, update and delete requests removes
    a document or reorders the collection: the ids of the store after the
    requests are the ids before, followed by those of the documents that
    were created; and ids that were distinct stay distinct. *)
Theorem run_keeps_documents (requests : list (Api.Call * Z)) (st : Store.t) :
  (exists added,
     map _id (Api.run nextYear requests st) = map _id st ++ added)
  /\ (NoDup (map _id st) -> NoDup (map _id (Api.run nextYear requests st))).
Proof.
  revert st. induction requests as [|r rest IH]; intros st; simpl.
  - split; [exists []; now rewrite app_nil_r | auto].
  - destruct (IH (Api.step nextYear st r)) as [[added Hids] Hnd].
    destruct (step_shape st r) as [E | [[id [f [Hf E]]] | [doc [Hfresh E]]]];
      rewrite E in *.
    + split; [exists added; exact Hids | exact Hnd].
    + rewrite map_id_modify in * by (intros c; apply Hf).
      split; [exists added; exact Hids | exact Hnd].
    + rewrite map_app in *. simpl in *.
      split.
      * exists (_id doc :: added). rewrite Hids, <- app_assoc. reflexivity.
      * intros H. apply Hnd.
        apply NoDup_app; [exact H | constructor; [intros [] | constructor] |].
        intros x Hx [<-|[]]. apply findById_not_in in Hfresh. contradiction.
Qed.

(** X12.  Through any sequence of requests a record stays stored under
    its id and only moves to later states: its id and creation time stay,
    its view counter never decreases, and once it is inactive it stays
    inactive (no request reactivates a soft-deleted listing). *)
Theorem run_moves_records_forward
    (requests : list (Api.Call * Z)) (st : Store.t) (id : ObjectId) (c : Car) :
  Store.findById id st = Some c ->
  exists c',
    Store.findById id (Api.run nextYear requests st) = Some c'
    /\ Frame.later c c'.
Proof.
  revert st c. induction requests as [|r rest IH]; intros st c Hc; simpl.
  - exists c. split; [exact Hc | apply later_refl].
  - assert (Hstep : exists c1,
              Store.findById id (Api.step nextYear st r) = Some c1
              /\ Frame.later c c1).
    { destruct (step_shape st r) as [E | [[id' [f [Hf E]]] | [doc [_ E]]]];
        rewrite E.
      - exists c. split; [exact Hc | apply later_refl].
      - destruct (N.eq_dec id id') as [->|Hne].
        + rewrite findById_modify by (intros d; apply Hf).
          rewrite Hc. exists (f c). split; [reflexivity | apply Hf].
        + rewrite findById_modify_other by
            (try (intros d; apply Hf); exact Hne).
          exists c. split; [exact Hc | apply later_refl].
      - exists c. split; [now apply findById_app_old | apply later_refl]. }
    destruct Hstep as [c1 [H1 L1]].
    destruct (IH _ c1 H1) as [c' [H' L']].
    exists c'. split; [exact H' | exact (later_trans _ _ _ L1 L')].
Qed.

(** X13.  [K] views of an active listing, one after the other, raise its
    stored view counter by exactly [K]; the record is otherwise the one
    before the views, with [updatedAt] at the time of the last view. *)
Theorem views_count (times : list Z) (st : Store.t) (id : ObjectId) (c : Car) :
  Store.findById id st = Some c ->
  isActive c = true ->
  Store.findById id (Api.run nextYear (Frame.views id times) st)
  = Some (mkCar (_id c) (make c) (model c) (year c) (price c) (mileage c)
            (fuelType c) (transmission c) (bodyType c) (color c)
            (description c) (features c) (images c) (location c) (seller c)
            (status c) (isActive c)
            (viewCount c + Z.of_nat (List.length times))
            (createdAt c) (last times (updatedAt c))).
Proof.
  revert st c. induction times as [|t rest IH]; intros st c Hc Ha.
  - simpl. rewrite Z.add_0_r. rewrite Hc. destruct c; reflexivity.
  - change (Api.run nextYear (Frame.views id (t :: rest)) st)
      with (Api.run nextYear (Frame.views id rest)
              (snd (CarController.getCar id t st))).
    destruct (getCar_active id t st c Hc Ha) as [E Hst'].
    rewrite E. simpl snd.
    rewrite (IH _ _ Hst' Ha).
    unfold Schema.stampUpdated, Schema.incViewCount.
    cbn [_id make model year price mileage fuelType transmission bodyType
         color description features images location seller status isActive
         viewCount createdAt updatedAt].
    assert (V : viewCount c + 1 + Z.of_nat (List.length rest)
                = viewCount c + Z.of_nat (List.length (t :: rest)))
      by (simpl List.length; lia).
    assert (L : last rest t = last (t :: rest) (updatedAt c)).
    { destruct rest as [|z r]; [reflexivity|].
      change (last (t :: z :: r) (updatedAt c)) with (last (z :: r) (updatedAt c)).
      generalize (updatedAt c). generalize z. clear.
      induction r as [|y r IHr]; intros z d; [reflexivity|].
      change (last (z :: y :: r) t) with (last (y :: r) t).
      change (last (z :: y :: r) d) with (last (y :: r) d).
      apply IHr. }
    rewrite V, L. reflexivity.
Qed.

End Histories.

Lemma run_moves_records_forward_witness :
  Store.findById 1%N Sample.cars = Some Sample.swift
  /\ exists c',
       Store.findById 1%N
         (Api.run Sample.nextYear
            [(Api.View 1%N, 10); (Api.Delete Sample.testuser 1%N, 20);
             (Api.Update Sample.testuser 1%N Sample.repaint, 30);
             (Api.View 1%N, 40)]
            Sample.cars) = Some c'
       /\ Frame.later Sample.swift c'.
Proof.
  split; [reflexivity|].
  apply (run_moves_records_forward Sample.nextYear).
  reflexivity.
Defined.

Lemma views_count_witness :
  Store.findById 1%N Sample.cars = Some Sample.swift
  /\ isActive Sample.swift = true
  /\ option_map viewCount
       (Store.findById 1%N
          (Api.run Sample.nextYear (Frame.views 1%N [10; 20; 30]) Sample.cars))
     = Some 3.
Proof.
  split; [reflexivity|]. split; [reflexivity|].
  rewrite (views_count Sample.nextYear [10; 20; 30] Sample.cars 1%N
             Sample.swift eq_refl eq_refl).
  reflexivity.
Defined.

Section Outcomes.
Variable nextYear : Z.

(** X14.  createCar either persists exactly one new document or changes
    nothing.  On success it answers 201 with the stored document, which
    is appended under the fresh id, is active, has no views, carries the
    request time as both timestamps and the submitted status (available
    when none was submitted), and is found by getCar right away.  On
    failure the store is unchanged and the error is a validation error
    or, when the id is already in use, the store's. *)
Theorem createCar_outcome
    (user : User.t) (body : Body.t) (oid : ObjectId) (now : Z) (st : Store.t) :
  match CarController.createCar nextYear user body oid now st with
  | (Json code ok msg data, st') =>
      code = 201 /\ ok = true
      /\ exists car,
           data = Some car
           /\ st' = st ++ [car]
           /\ Store.findById oid st = None
           /\ _id car = oid
           /\ isActive car = true
           /\ viewCount car = 0
           /\ createdAt car = now
           /\ updatedAt car = now
           /\ status car = JS.orDefault (Body.status body) "available"%string
           /\ forall later,
                fst (CarController.getCar oid later st')
                = Json 200 true None (Some car)
  | (Next e, st') =>
      st' = st
      /\ (e = ValidationError
          \/ (e = StoreError /\ Store.findById oid st <> None))
  end.
Proof.
  unfold CarController.createCar, Model.create.
  destruct (Schema.requiredPaths _ && Schema.validPaths _ _);
    [|split; [reflexivity | now left]].
  destruct (Store.findById oid st) as [old|] eqn:E.
  - split; [reflexivity|]. right. split; [reflexivity | discriminate].
  - split; [reflexivity|]. split; [reflexivity|].
    eexists. split; [reflexivity|].
    repeat (split; [reflexivity|]).
    intros later. unfold CarController.getCar.
    match goal with
    | |- context [Store.findById oid (st ++ [?d])] =>
        rewrite (findById_app_fresh oid st d E eq_refl)
    end.
    reflexivity.
Qed.

(** X15.  The seller email of a new listing is the caller's, so the
    schema's email pattern is applied to the caller's email: a user whose
    email that pattern rejects (a four-letter top-level domain, a plus
    sign, ...) cannot create any listing, whatever the body. *)
Theorem createCar_needs_matching_email
    (user : User.t) (body : Body.t) (oid : ObjectId) (now : Z) (st : Store.t) :
  JS.toLowerCase (JS.trim (User.email user)) <> EmptyString ->
  Regex.test Schema.emailPattern (JS.toLowerCase (JS.trim (User.email user)))
  = false ->
  CarController.createCar nextYear user body oid now st
  = (Next ValidationError, st).
Proof.
  intros Hne Hre. unfold CarController.createCar, Model.create.
  assert (Hs : Schema.whenPresent Schema.validSeller
                 (Body.seller (Schema.cast (CarController.carData user body)))
               = false).
  { simpl. unfold Schema.validSeller. simpl.
    unfold Schema.matchOrEmpty. rewrite Hre.
    apply String.eqb_neq in Hne. rewrite Hne. simpl.
    apply andb_false_r. }
  assert (Hv : Schema.validPaths nextYear
                 (Schema.cast (CarController.carData user body)) = false).
  { unfold Schema.validPaths. rewrite Hs.
    rewrite andb_false_r. reflexivity. }
  rewrite Hv, andb_false_r. reflexivity.
Qed.

(** X16.  updateCar on a stored record either fails validation and
    changes nothing, or replaces that one record: the new record is the
    one returned, keeps its id, active flag, view counter and creation
    time, has [updatedAt = now], and each of the fifteen keys of the
    schema holds the submitted value as the schema's setters store it
    (trimmed, lower-cased; a submitted location, seller, feature list or
    image list replaces the stored one as a whole) when the body carries
    the key, and the stored value when the body lacks it; no other record
    changes and the order of the collection stays. *)
Theorem updateCar_frame
    (user : User.t) (id : ObjectId) (body : Body.t) (now : Z) (st : Store.t)
    (c : Car) :
  Store.findById id st = Some c ->
  match CarController.updateCar nextYear user id body now st with
  | (Json code ok msg data, st') =>
      exists c',
        data = Some c'
        /\ Store.findById id st' = Some c'
        /\ _id c' = _id c /\ isActive c' = isActive c
        /\ viewCount c' = viewCount c /\ createdAt c' = createdAt c
        /\ updatedAt c' = now
        /\ make c' = match Body.make body with
                     | Some v => JS.trim v
                     | None => make c
                     end
        /\ model c' = match Body.model body with
                      | Some v => JS.trim v
                      | None => model c
                      end
        /\ year c' = match Body.year body with
                     | Some v => v
                     | None => year c
                     end
        /\ price c' = match Body.price body with
                      | Some v => v
                      | None => price c
                      end
        /\ mileage c' = match Body.mileage body with
                        | Some v => v
                        | None => mileage c
                        end
        /\ fuelType c' = match Body.fuelType body with
                         | Some v => JS.toLowerCase v
                         | None => fuelType c
                         end
        /\ transmission c' = match Body.transmission body with
                             | Some v => JS.toLowerCase v
                             | None => transmission c
                             end
        /\ bodyType c' = match Body.bodyType body with
                         | Some v => JS.toLowerCase v
                         | None => bodyType c
                         end
        /\ color c' = match Body.color body with
                      | Some v => JS.trim v
                      | None => color c
                      end
        /\ description c' = match Body.description body with
                            | Some v => Some (JS.trim v)
                            | None => description c
                            end
        /\ features c' = match Body.features body with
                         | Some v => map JS.trim v
                         | None => features c
                         end
        /\ images c' = match Body.images body with
                       | Some v =>
                           map (fun i => mkImage (option_map JS.trim (url i))
                                           (option_map JS.trim (alt i))) v
                       | None => images c
                       end
        /\ location c' = match Body.location body with
                         | Some l =>
                             mkLocation (option_map JS.trim (city l))
                               (option_map JS.trim (state l))
                               (option_map JS.trim (country l))
                         | None => location c
                         end
        /\ seller c' = match Body.seller body with
                       | Some x =>
                           mkSeller (option_map JS.trim (name x))
                             (option_map JS.trim (phone x))
                             (option_map
                                (fun e => JS.toLowerCase (JS.trim e))
                                (email x))
                       | None => seller c
                       end
        /\ status c' = match Body.status body with
                       | Some v => v
                       | None => status c
                       end
        /\ (forall id', id' <> id ->
              Store.findById id' st' = Store.findById id' st)
        /\ map _id st' = map _id st
  | (Next e, st') => e = ValidationError /\ st' = st
  end.
Proof.
  intros Hc. rewrite (updateCar_found nextYear user id body now st c Hc).
  destruct (Schema.validPaths nextYear (Schema.cast body));
    [|split; reflexivity].
  eexists. split; [reflexivity|].
  split.
  { rewrite findById_modify by (intros d; reflexivity). now rewrite Hc. }
  destruct body as [mk md yr pr mi fu tr bt co de fe im lo se stt].
  repeat (split; [reflexivity|]).
  split; [destruct mk; reflexivity|].
  split; [destruct md; reflexivity|].
  split; [destruct yr; reflexivity|].
  split; [destruct pr; reflexivity|].
  split; [destruct mi; reflexivity|].
  split; [destruct fu; reflexivity|].
  split; [destruct tr; reflexivity|].
  split; [destruct bt; reflexivity|].
  split; [destruct co; reflexivity|].
  split; [destruct de; reflexivity|].
  split; [destruct fe; reflexivity|].
  split; [destruct im; reflexivity|].
  split; [destruct lo; reflexivity|].
  split; [destruct se; reflexivity|].
  split; [destruct stt; reflexivity|].
  split.
  - intros id' Hne. apply findById_modify_other; [|exact Hne].
    intros d; reflexivity.
  - apply map_id_modify. intros d; reflexivity.
Qed.

End Outcomes.

(** X17.  deleteCar on a stored record clears its active flag and stamps
    [updatedAt], nothing else; afterwards getCar answers NotFound for the
    id, while a second deleteCar still answers 200 (it finds the record)
    and every other record is as before. *)
Theorem deleteCar_then_hidden
    (user : User.t) (id : ObjectId) (now : Z) (st : Store.t) (c : Car) :
  Store.findById id st = Some c ->
  exists st',
    CarController.deleteCar user id now st
    = (Json 200 true (Some "Car listing deleted successfully"%string) None, st')
    /\ Store.findById id st'
       = Some (mkCar (_id c) (make c) (model c) (year c) (price c) (mileage c)
                 (fuelType c) (transmission c) (bodyType c) (color c)
                 (description c) (features c) (images c) (location c)
                 (seller c) (status c) false (viewCount c) (createdAt c) now)
    /\ (forall later, CarController.getCar id later st' = (NotFound, st'))
    /\ (forall other later,
          fst (CarController.deleteCar other id later st')
          = Json 200 true (Some "Car listing deleted successfully"%string) None)
    /\ (forall id', id' <> id ->
          Store.findById id' st' = Store.findById id' st)
    /\ map _id st' = map _id st.
Proof.
  intros Hc. unfold CarController.deleteCar. rewrite Hc.
  eexists. split; [reflexivity|].
  assert (H' : Store.findById id (Model.deactivate id now st)
               = Some (Schema.stampUpdated now (Schema.setInactive c))).
  { unfold Model.deactivate.
    rewrite findById_modify by (intros d; reflexivity). now rewrite Hc. }
  split; [exact H'|].
  split; [intros later; unfold CarController.getCar; rewrite H'; reflexivity|].
  split; [intros other later; rewrite H'; reflexivity|].
  split.
  - intros id' Hne. apply findById_modify_other; [|exact Hne].
    intros d; reflexivity.
  - apply map_id_modify. intros d; reflexivity.
Qed.

Lemma createCar_needs_matching_email_witness :
  let owner := User.mk "u2" "owner" "owner@example.info" "user" true in
  JS.toLowerCase (JS.trim (User.email owner)) = "owner@example.info"%string
  /\ Regex.test Schema.emailPattern "owner@example.info" = false
  /\ CarController.createCar Sample.nextYear owner Sample.camry 7%N 5000
       Sample.cars
     = (Next ValidationError, Sample.cars).
Proof.
  split; [vm_compute; reflexivity|]. split; [vm_compute; reflexivity|].
  apply (createCar_needs_matching_email Sample.nextYear
           (User.mk "u2" "owner" "owner@example.info" "user" true)
           Sample.camry 7%N 5000 Sample.cars).
  - vm_compute. discriminate.
  - vm_compute. reflexivity.
Defined.

Lemma updateCar_frame_witness :
  Store.findById 1%N Sample.cars = Some Sample.swift
  /\ match CarController.updateCar Sample.nextYear Sample.testuser 1%N
             Sample.repaint 6000 Sample.cars with
     | (Json _ _ _ data, _) =>
         option_map viewCount data = Some 0
         /\ option_map price data = Some 450000
     | (Next _ , _) => False
     end.
Proof.
  split; [reflexivity|].
  pose proof (updateCar_frame Sample.nextYear Sample.testuser 1%N
                Sample.repaint 6000 Sample.cars Sample.swift eq_refl) as H.
  destruct (CarController.updateCar Sample.nextYear Sample.testuser 1%N
              Sample.repaint 6000 Sample.cars) as [[code ok msg data|e] st']
    eqn:E.
  - destruct H as [c' [-> [_ [_ [_ [V [_ [_ [_ [_ [_ [P _]]]]]]]]]]]].
    simpl. rewrite V, P. split; reflexivity.
  - vm_compute in E. discriminate.
Defined.

Lemma deleteCar_then_hidden_witness :
  Store.findById 1%N Sample.cars = Some Sample.swift
  /\ exists st',
       CarController.deleteCar Sample.testuser 1%N 6000 Sample.cars
       = (Json 200 true (Some "Car listing deleted successfully"%string) None, st')
       /\ CarController.getCar 1%N 7000 st' = (NotFound, st').
Proof.
  split; [reflexivity|].
  destruct (deleteCar_then_hidden Sample.testuser 1%N 6000 Sample.cars
              Sample.swift eq_refl) as [st' [D [_ [G _]]]].
  exists st'. split; [exact D | apply G].
Defined.

(* ================================================================== *)
(** * Properties of getMyCars *)

Lemma matchesQuery_listed (user : User.t) (c : Car) :
  MyCars.matchesQuery (MyCars.query user) c = Ownership.listed user c.
Proof.
  unfold MyCars.matchesQuery, Ownership.listed, Ownership.attributed,
    Ownership.legacy, MyCars.query, MyCars.holdsAtom, MyCars.among,
    Store.getPath, Store.ofText.
  simpl.
  destruct (isActive c); simpl; [|reflexivity].
  destruct (email (seller c)) as [e|], (name (seller c)) as [n|]; simpl;
    rewrite ?andb_true_r, ?orb_false_r, ?andb_false_r; reflexivity.
Qed.


(** X19.  A listing that createCar has persisted for a user is in that
    user's getMyCars right away: creation writes the email in the form
    that the query looks for. *)
Theorem createCar_then_mine
    (nextYear : Z) (user : User.t) (body : Body.t) (oid : ObjectId) (now : Z)
    (st st' : Store.t) (code : Z) (ok : bool) (msg : option string) (car : Car) :
  CarController.createCar nextYear user body oid now st
    = (Json code ok msg (Some car), st') ->
  exists mine,
    MyCars.getMyCars user st' = Json 200 true None (Some mine)
    /\ In car (Mine.data mine).
Proof.
  intros H. unfold CarController.createCar, Model.create in H.
  destruct (Schema.requiredPaths _ && Schema.validPaths _ _); [|discriminate].
  destruct (Store.findById oid st); [discriminate|].
  inversion H; subst; clear H.
  unfold MyCars.getMyCars. eexists. split; [reflexivity|]. simpl.
  apply (Permutation_in _ (Permutation_sym (sort_perm _ _))).
  apply filter_In. split; [apply in_or_app; right; now left|].
  rewrite matchesQuery_listed.
  unfold Ownership.listed, Ownership.attributed. simpl.
  rewrite String.eqb_refl. reflexivity.
Qed.

Lemma createCar_then_mine_witness :
  exists car st' mine,
    CarController.createCar Sample.nextYear Sample.testuser Sample.camry 7%N
      5000 Sample.cars
    = (Json 201 true (Some "Car listing created successfully"%string) (Some car), st')
    /\ MyCars.getMyCars Sample.testuser st' = Json 200 true None (Some mine)
    /\ In car (Mine.data mine).
Proof.
  eexists. eexists.
  match goal with
  | |- exists mine, ?E /\ _ =>
      assert (HE : E) by (vm_compute; reflexivity)
  end.
  destruct (createCar_then_mine Sample.nextYear Sample.testuser Sample.camry
              7%N 5000 Sample.cars _ 201 true _ _ HE) as [mine [M I]].
  exists mine. split; [exact HE|]. split; [exact M | exact I].
Defined.

(* ================================================================== *)
(** * Properties of the schema's setters and of the pre-save hook *)

Section Strings.
Open Scope string_scope.

Lemma sapp_nil_r (s : string) : s ++ "" = s.
Proof. induction s as [|c r IH]; simpl; [reflexivity | now rewrite IH]. Qed.

Lemma sapp_assoc (a b c : string) : (a ++ b) ++ c = a ++ (b ++ c).
Proof. induction a as [|x r IH]; simpl; [reflexivity | now rewrite IH]. Qed.

Lemma rev_app (a b : string) : JS.rev (a ++ b) = JS.rev b ++ JS.rev a.
Proof.
  induction a as [|x r IH]; simpl.
  - now rewrite sapp_nil_r.
  - rewrite IH. apply sapp_assoc.
Qed.

Lemma rev_rev (s : string) : JS.rev (JS.rev s) = s.
Proof.
  induction s as [|c r IH]; simpl; [reflexivity|].
  rewrite rev_app. simpl. now rewrite IH.
Qed.

Lemma trimStart_idem (s : string) : JS.trimStart (JS.trimStart s) = JS.trimStart s.
Proof.
  induction s as [|c r IH]; simpl; [reflexivity|].
  destruct (JS.isSpaceChar c) eqn:E; [exact IH|].
  simpl. now rewrite E.
Qed.

Lemma trimEnd_idem (s : string) : JS.trimEnd (JS.trimEnd s) = JS.trimEnd s.
Proof. unfold JS.trimEnd. now rewrite rev_rev, trimStart_idem. Qed.

Lemma trimStart_keeps_last (u : string) (c : ascii) :
  JS.isSpaceChar c = false ->
  exists v, JS.trimStart (u ++ String c "") = v ++ String c "".
Proof.
  intros Hc. induction u as [|a r IH]; simpl.
  - rewrite Hc. exists "". reflexivity.
  - destruct (JS.isSpaceChar a); [exact IH|].
    exists (String a r). reflexivity.
Qed.

(** Trimming the end does not uncover white space at the start. *)
Lemma trimEnd_keeps_start (s : string) :
  JS.trimStart s = s -> JS.trimStart (JS.trimEnd s) = JS.trimEnd s.
Proof.
  destruct s as [|c r]; [reflexivity|].
  simpl. destruct (JS.isSpaceChar c) eqn:E.
  - intros H. exfalso.
    assert (L : (String.length (JS.trimStart r) <= String.length r)%nat).
    { clear. induction r as [|a r IH]; simpl; [lia|].
      destruct (JS.isSpaceChar a); simpl; lia. }
    rewrite H in L. simpl in L. lia.
  - intros _. unfold JS.trimEnd. simpl.
    destruct (trimStart_keeps_last (JS.rev r) c E) as [v ->].
    rewrite rev_app. simpl. now rewrite E.
Qed.

(** [trim: true] twice is [trim: true] once. *)
Lemma trim_idem (s : string) : JS.trim (JS.trim s) = JS.trim s.
Proof.
  unfold JS.trim.
  rewrite (trimEnd_keeps_start (JS.trimStart s) (trimStart_idem s)).
  apply trimEnd_idem.
Qed.

Lemma toUpperChar_idem (c : ascii) :
  JS.toUpperChar (JS.toUpperChar c) = JS.toUpperChar c.
Proof. destruct c as [[] [] [] [] [] [] [] []]; reflexivity. Qed.

Lemma toLowerChar_idem (c : ascii) :
  JS.toLowerChar (JS.toLowerChar c) = JS.toLowerChar c.
Proof. destruct c as [[] [] [] [] [] [] [] []]; reflexivity. Qed.

Lemma toLowerChar_space (c : ascii) :
  JS.isSpaceChar (JS.toLowerChar c) = JS.isSpaceChar c.
Proof. destruct c as [[] [] [] [] [] [] [] []]; reflexivity. Qed.

Lemma toLowerCase_idem (s : string) :
  JS.toLowerCase (JS.toLowerCase s) = JS.toLowerCase s.
Proof.
  unfold JS.toLowerCase.
  induction s as [|c r IH]; cbn [JS.mapString]; [reflexivity|].
  rewrite toLowerChar_idem. now f_equal.
Qed.

Lemma toLowerCase_app (a b : string) :
  JS.toLowerCase (a ++ b) = JS.toLowerCase a ++ JS.toLowerCase b.
Proof.
  unfold JS.toLowerCase.
  induction a as [|c r IH]; cbn [JS.mapString append]; [reflexivity | now f_equal].
Qed.

Lemma toLowerCase_rev (s : string) :
  JS.toLowerCase (JS.rev s) = JS.rev (JS.toLowerCase s).
Proof.
  induction s as [|c r IH]; [reflexivity|].
  cbn [JS.rev]. rewrite toLowerCase_app, IH. reflexivity.
Qed.

Lemma toLowerCase_trimStart (s : string) :
  JS.toLowerCase (JS.trimStart s) = JS.trimStart (JS.toLowerCase s).
Proof.
  induction s as [|c r IH]; [reflexivity|].
  change (JS.toLowerCase (String c r))
    with (String (JS.toLowerChar c) (JS.toLowerCase r)).
  cbn [JS.trimStart]. rewrite toLowerChar_space.
  destruct (JS.isSpaceChar c); [exact IH | reflexivity].
Qed.

(** The two setters of [seller.email] commute. *)
Lemma toLowerCase_trim (s : string) :
  JS.toLowerCase (JS.trim s) = JS.trim (JS.toLowerCase s).
Proof.
  unfold JS.trim, JS.trimEnd.
  now rewrite toLowerCase_rev, toLowerCase_trimStart, toLowerCase_rev,
    toLowerCase_trimStart.
Qed.

Lemma lowered_idem (s : string) :
  JS.toLowerCase (JS.trim (JS.toLowerCase (JS.trim s)))
  = JS.toLowerCase (JS.trim s).
Proof.
  rewrite <- (toLowerCase_trim (JS.trim s)), trim_idem. apply toLowerCase_idem.
Qed.

Lemma capitalize_cons (c : ascii) (r : string) :
  Schema.capitalize (String c r) = String (JS.toUpperChar c) (JS.toLowerCase r).
Proof. reflexivity. Qed.

End Strings.

(** X20.  The pre-save hook is idempotent and keeps lengths: capitalizing
    a capitalized make or model changes nothing (saving a document again
    leaves it as it is), and the capitalized string is as long as the
    original, so the hook cannot break the length validators. *)
Theorem preSave_idempotent (c : Car) (s : string) :
  Schema.preSave (Schema.preSave c) = Schema.preSave c
  /\ Schema.capitalize (Schema.capitalize s) = Schema.capitalize s
  /\ String.length (Schema.capitalize s) = String.length s.
Proof.
  assert (Hcap : forall t, Schema.capitalize (Schema.capitalize t)
                           = Schema.capitalize t).
  { intros [|a r]; [reflexivity|].
    rewrite !capitalize_cons, toUpperChar_idem, toLowerCase_idem. reflexivity. }
  assert (Hfix : forall t,
            (if JS.truthyString (Some (if JS.truthyString (Some t)
                                       then Schema.capitalize t else t))
             then Schema.capitalize (if JS.truthyString (Some t)
                                     then Schema.capitalize t else t)
             else (if JS.truthyString (Some t) then Schema.capitalize t else t))
            = (if JS.truthyString (Some t) then Schema.capitalize t else t)).
  { intros [|a r]; [reflexivity|].
    change (JS.truthyString (Some (String a r))) with true.
    rewrite capitalize_cons.
    change (JS.truthyString
              (Some (String (JS.toUpperChar a) (JS.toLowerCase r)))) with true.
    rewrite <- capitalize_cons. apply Hcap. }
  split; [|split].
  - unfold Schema.preSave.
    cbn [_id make model year price mileage fuelType transmission bodyType
         color description features images location seller status isActive
         viewCount createdAt updatedAt].
    rewrite !Hfix. reflexivity.
  - apply Hcap.
  - destruct s as [|a r]; [reflexivity|].
    rewrite capitalize_cons. simpl. f_equal.
    induction r as [|x r IH]; simpl; [reflexivity | now f_equal].
Qed.

(** X21.  Casting is idempotent: an object that has been through the
    schema's setters (trim, lowercase) comes out of them unchanged, so
    writing back what was read from a stored document stores the same
    strings. *)
Theorem cast_idempotent (b : Body.t) :
  Schema.cast (Schema.cast b) = Schema.cast b.
Proof.
  assert (T : forall v, Schema.trimmed (Schema.trimmed v) = Schema.trimmed v).
  { intros [s|]; simpl; [now rewrite trim_idem | reflexivity]. }
  assert (L : forall v, Schema.lowerOnly (Schema.lowerOnly v) = Schema.lowerOnly v).
  { intros [s|]; simpl; [now rewrite toLowerCase_idem | reflexivity]. }
  assert (E : forall v, Schema.lowered (Schema.lowered v) = Schema.lowered v).
  { intros [s|]; simpl; [now rewrite lowered_idem | reflexivity]. }
  destruct b as [mk md yr pr mi fu tr bt co de fe im lo se stt].
  unfold Schema.cast. simpl. rewrite !T, !L.
  f_equal.
  - destruct fe as [l|]; simpl; [|reflexivity]. f_equal.
    rewrite map_map. apply map_ext. intros s. apply trim_idem.
  - destruct im as [l|]; simpl; [|reflexivity]. f_equal.
    rewrite map_map. apply map_ext. intros [u a].
    unfold Schema.castImage. simpl. now rewrite !T.
  - destruct lo as [[ci sa cn]|]; simpl; [|reflexivity].
    unfold Schema.castLocation. simpl. now rewrite !T.
  - destruct se as [[n p e]|]; simpl; [|reflexivity].
    unfold Schema.castSeller. simpl. now rewrite !T, E.
Qed.

(* ================================================================== *)
(** * Properties of the query schema and of the search route *)

Section QuerySchema.
Import Validation.

Lemma number_spec (lo hi v w : option Z) :
  number lo hi v = Some w ->
  w = v /\ forall n, v = Some n -> Spec.within lo hi n = true.
Proof.
  unfold number. destruct v as [n|].
  - destruct (Spec.within lo hi n) eqn:E; [|discriminate].
    intros H. inversion H. split; [reflexivity|].
    intros m Hm. inversion Hm; subst. exact E.
  - intros H. inversion H. split; [reflexivity | discriminate].
Qed.

Lemma choice_spec (allowed : list string) (v w : option string) :
  choice allowed v = Some w ->
  w = v /\ forall s, v = Some s -> Schema.oneOf allowed s = true.
Proof.
  unfold choice. destruct v as [s|].
  - destruct (Schema.oneOf allowed s) eqn:E; [|discriminate].
    intros H. inversion H. split; [reflexivity|].
    intros m Hm. inversion Hm; subst. exact E.
  - intros H. inversion H. split; [reflexivity | discriminate].
Qed.

Lemma text_spec (v w : option string) :
  text v = Some w ->
  w = option_map JS.trim v
  /\ forall s, w = Some s -> s <> EmptyString /\ JS.trim s = s.
Proof.
  unfold text. destruct v as [s|].
  - destruct (String.eqb (JS.trim s) EmptyString) eqn:E; [discriminate|].
    intros H. inversion H. split; [reflexivity|].
    intros m Hm. inversion Hm; subst. split.
    + now apply String.eqb_neq.
    + apply trim_idem.
  - intros H. inversion H. split; [reflexivity | discriminate].
Qed.

Lemma orElse_spec {A : Type} (d : A) (x : option (option A)) (w : option A) :
  orElse d x = Some w ->
  exists a, w = Some a /\ (x = Some (Some a) \/ (x = Some None /\ a = d)).
Proof.
  unfold orElse. destruct x as [[a|]|]; intros H; inversion H.
  - exists a. auto.
  - exists d. auto.
Qed.

Lemma number_again (lo hi v w : option Z) :
  number lo hi v = Some w -> number lo hi w = Some w.
Proof.
  intros H. destruct (number_spec lo hi v w H) as [-> _]. exact H.
Qed.

Lemma choice_again (allowed : list string) (v w : option string) :
  choice allowed v = Some w -> choice allowed w = Some w.
Proof.
  intros H. destruct (choice_spec allowed v w H) as [-> _]. exact H.
Qed.

Lemma text_again (v w : option string) : text v = Some w -> text w = Some w.
Proof.
  intros H. destruct (text_spec v w H) as [_ Hw].
  destruct w as [s|]; [|reflexivity].
  destruct (Hw s eq_refl) as [Hne Ht].
  unfold text. rewrite Ht. apply String.eqb_neq in Hne. now rewrite Hne.
Qed.

Lemma default_number_again (d : Z) (lo hi v w : option Z) :
  Spec.within lo hi d = true ->
  orElse d (number lo hi v) = Some w ->
  orElse d (number lo hi w) = Some w
  /\ exists n, w = Some n /\ Spec.within lo hi n = true.
Proof.
  intros Hd H. destruct (orElse_spec d _ w H) as [a [-> [E|[E ->]]]].
  - destruct (number_spec lo hi v _ E) as [Hv Hw].
    split; [|exists a; split; [reflexivity | apply Hw; now symmetry]].
    unfold number. rewrite (Hw a (eq_sym Hv)). reflexivity.
  - split; [|exists d; split; [reflexivity | exact Hd]].
    unfold number. rewrite Hd. reflexivity.
Qed.

Lemma default_choice_again (d : string) (allowed : list string)
    (v w : option string) :
  Schema.oneOf allowed d = true ->
  orElse d (choice allowed v) = Some w ->
  orElse d (choice allowed w) = Some w
  /\ exists s, w = Some s /\ Schema.oneOf allowed s = true.
Proof.
  intros Hd H. destruct (orElse_spec d _ w H) as [a [-> [E|[E ->]]]].
  - destruct (choice_spec allowed v _ E) as [Hv Hw].
    split; [|exists a; split; [reflexivity | apply Hw; now symmetry]].
    unfold choice. rewrite (Hw a (eq_sym Hv)). reflexivity.
  - split; [|exists d; split; [reflexivity | exact Hd]].
    unfold choice. rewrite Hd. reflexivity.
Qed.

Variable nextYear : Z.

Lemma carQuerySchema_paging (raw q : Query.t) :
  carQuerySchema nextYear raw = Some q ->
  (exists P, Query.page q = Some P /\ 1 <= P)
  /\ (exists N, Query.limit q = Some N /\ 1 <= N <= 100).
Proof.
  intros H. unfold carQuerySchema in H.
  repeat match type of H with
         | context [match ?x with _ => _ end] =>
             let E := fresh "E" in destruct x eqn:E; try discriminate H
         end.
  inversion H; subst q; clear H.
  cbn [Query.page Query.limit].
  destruct (default_number_again 1 (Some 1) None _ _ eq_refl E)
    as [_ [P [-> HP]]].
  destruct (default_number_again 10 (Some 1) (Some 100) _ _ eq_refl E0)
    as [_ [N [-> HN]]].
  unfold Spec.within in HP, HN. simpl in HP, HN.
  apply andb_prop in HP. destruct HP as [HP _]. apply Z.leb_le in HP.
  apply andb_prop in HN. destruct HN as [HN1 HN2].
  apply Z.leb_le in HN1. apply Z.leb_le in HN2.
  split; [exists P; split; [reflexivity | lia]|].
  exists N. split; [reflexivity | lia].
Qed.

(** X22.  What carQuerySchema lets through is a complete, normal query:
    page at least 1, limit between 1 and 100, a sort and a status from
    the allowed lists (the defaults when none was given), text options
    trimmed and not empty, price bounds not negative, and validating it
    again returns it unchanged. *)
Theorem carQuerySchema_valid (raw q : Query.t) :
  carQuerySchema nextYear raw = Some q ->
  (exists P, Query.page q = Some P /\ 1 <= P)
  /\ (exists N, Query.limit q = Some N /\ 1 <= N <= 100)
  /\ (exists s, Query.sort q = Some s /\ In s sorts)
  /\ (exists s, Query.status q = Some s /\ In s Schema.statuses)
  /\ (forall v s,
        In v [Query.make q; Query.model q; Query.city q; Query.state q] ->
        v = Some s -> s <> EmptyString /\ JS.trim s = s)
  /\ (forall v n, In v [Query.minPrice q; Query.maxPrice q] ->
        v = Some n -> 0 <= n)
  /\ carQuerySchema nextYear q = Some q.
Proof.
  intros H. unfold carQuerySchema in H.
  repeat match type of H with
         | context [match ?x with _ => _ end] =>
             let E := fresh "E" in destruct x eqn:E; try discriminate H
         end.
  inversion H; subst q; clear H.
  cbn [Query.page Query.limit Query.sort Query.make Query.model
       Query.minPrice Query.maxPrice Query.minYear Query.maxYear
       Query.fuelType Query.transmission Query.bodyType Query.city
       Query.state Query.status].
  destruct (default_number_again 1 (Some 1) None _ _ eq_refl E)
    as [I1 [P [-> HP]]].
  destruct (default_number_again 10 (Some 1) (Some 100) _ _ eq_refl E0)
    as [I2 [N [-> HN]]].
  destruct (default_choice_again "-createdAt" sorts _ _ eq_refl E1)
    as [I3 [so [-> Hso]]].
  destruct (default_choice_again "available" Schema.statuses _ _ eq_refl E13)
    as [I4 [sta [-> Hsta]]].
  assert (Hin : forall (l : list string) s,
            Schema.oneOf l s = true -> In s l).
  { intros l s Hs. unfold Schema.oneOf in Hs. apply existsb_exists in Hs.
    destruct Hs as [x [Hx Hs]]. apply String.eqb_eq in Hs. now subst. }
  unfold Spec.within in HP, HN. simpl in HP, HN.
  apply andb_prop in HP. destruct HP as [HP _]. apply Z.leb_le in HP.
  apply andb_prop in HN. destruct HN as [HN1 HN2].
  apply Z.leb_le in HN1. apply Z.leb_le in HN2.
  split; [exists P; split; [reflexivity | lia]|].
  split; [exists N; split; [reflexivity | lia]|].
  split; [exists so; split; [reflexivity | exact (Hin sorts so Hso)]|].
  split; [exists sta; split;
            [reflexivity | exact (Hin Schema.statuses sta Hsta)]|].
  split.
  { intros v s [<-|[<-|[<-|[<-|[]]]]] Hv.
    - exact (proj2 (text_spec _ _ E2) s Hv).
    - exact (proj2 (text_spec _ _ E3) s Hv).
    - exact (proj2 (text_spec _ _ E11) s Hv).
    - exact (proj2 (text_spec _ _ E12) s Hv). }
  split.
  { intros v n [<-|[<-|[]]] Hv.
    - destruct (number_spec _ _ _ _ E4) as [Hw Hb].
      rewrite Hv in Hw. specialize (Hb n (eq_sym Hw)).
      unfold Spec.within in Hb. simpl in Hb.
      apply andb_prop in Hb. destruct Hb as [Hb _]. now apply Z.leb_le in Hb.
    - destruct (number_spec _ _ _ _ E5) as [Hw Hb].
      rewrite Hv in Hw. specialize (Hb n (eq_sym Hw)).
      unfold Spec.within in Hb. simpl in Hb.
      apply andb_prop in Hb. destruct Hb as [Hb _]. now apply Z.leb_le in Hb. }
  unfold carQuerySchema.
  cbn [Query.page Query.limit Query.sort Query.make Query.model
       Query.minPrice Query.maxPrice Query.minYear Query.maxYear
       Query.fuelType Query.transmission Query.bodyType Query.city
       Query.state Query.status].
  rewrite I1, I2, I3, I4.
  rewrite (text_again _ _ E2), (text_again _ _ E3), (text_again _ _ E11),
    (text_again _ _ E12).
  rewrite (number_again _ _ _ _ E4), (number_again _ _ _ _ E5),
    (number_again _ _ _ _ E6), (number_again _ _ _ _ E7).
  rewrite (choice_again _ _ _ E8), (choice_again _ _ _ E9),
    (choice_again _ _ _ E10).
  reflexivity.
Qed.

Variable engine : RegExpEngine.

Lemma buildFilter_Throw (q : Query.t) (e : Error) :
  CarController.buildFilter engine q = Throw e -> e = RegExpSyntaxError.
Proof.
  assert (S : forall p v f e', CarController.setRegExp engine p v f = Throw e' ->
                e' = RegExpSyntaxError).
  { intros p v f e'. unfold CarController.setRegExp.
    destruct v as [s|]; [|discriminate].
    destruct (JS.truthyString (Some s)); [|discriminate].
    destruct (engine s); [discriminate|]. intros H. now inversion H. }
  unfold CarController.buildFilter, bind. intros H.
  destruct (CarController.setRegExp engine "make" _ _) eqn:E1;
    [|inversion H; subst; exact (S _ _ _ _ E1)].
  destruct (CarController.setRegExp engine "model" _ _) eqn:E2;
    [|inversion H; subst; exact (S _ _ _ _ E2)].
  destruct (CarController.setRegExp engine "location.city" _ _) eqn:E3;
    [|inversion H; subst; exact (S _ _ _ _ E3)].
  destruct (CarController.setRegExp engine "location.state" _ _) eqn:E4;
    [discriminate | inversion H; subst; exact (S _ _ _ _ E4)].
Qed.

(** X23.  The search route answers in one of three ways only: 400 "Query
    validation error" (always so for a page below 1 or a limit outside
    1..100), the forwarded SyntaxError of a text option, or 200 with a
    page of at most [limit <= 100] listings and consistent paging data.
    Out-of-range paging never reaches the store. *)
Theorem searchRoute_replies (raw : Query.t) (st : Store.t) :
  (searchRoute engine nextYear raw st
   = Json 400 false (Some "Query validation error"%string) None
   \/ searchRoute engine nextYear raw st = Next RegExpSyntaxError
   \/ exists body,
        searchRoute engine nextYear raw st = Json 200 true None (Some body)
        /\ 1 <= Pagination.page (Listing.pagination body)
        /\ 1 <= Pagination.limit (Listing.pagination body) <= 100
        /\ 0 <= Listing.count body <= Pagination.limit (Listing.pagination body)
        /\ (Pagination.hasNext (Listing.pagination body) = true
            <-> Pagination.page (Listing.pagination body)
                * Pagination.limit (Listing.pagination body)
                < Pagination.total (Listing.pagination body)))
  /\ ((exists P, Query.page raw = Some P /\ P < 1)
      \/ (exists N, Query.limit raw = Some N /\ (N < 1 \/ 100 < N)) ->
      searchRoute engine nextYear raw st
      = Json 400 false (Some "Query validation error"%string) None).
Proof.
  split.
  - unfold searchRoute.
    destruct (carQuerySchema nextYear raw) as [q|] eqn:V; [|now left].
    right.
    destruct (carQuerySchema_paging raw q V)
      as [[P [HP HP1]] [N [HN HN1]]].
    destruct (CarController.buildFilter engine q) as [f|e] eqn:Hf.
    + right.
      assert (Hskip : 0 <= (JS.orDefault (Query.page q) 1 - 1)
                            * JS.orDefault (Query.limit q) 10)
        by (rewrite HP, HN; simpl; nia).
      pose proof (getCars_reply engine q st f Hf Hskip) as R. simpl in R.
      rewrite HP, HN in R. simpl in R.
      eexists. split; [exact R|]. simpl.
      pose proof (ceilDiv_bounds (Store.countDocuments f st) N ltac:(lia)) as B.
      pose proof (limit_length N
                    (skipn (Z.to_nat ((P - 1) * N))
                       (Store.sort (JS.orDefault (Query.sort q) "-createdAt"%string)
                          (Store.find f st))) ltac:(lia)) as L.
      split; [lia|]. split; [lia|]. split; [lia|].
      rewrite Z.ltb_lt. split; intros H; nia.
    + left. unfold CarController.getCars. rewrite Hf. simpl.
      now rewrite (buildFilter_Throw q e Hf).
  - unfold searchRoute, carQuerySchema.
    intros [[P [HP Hlt]] | [N [HN Hout]]].
    + rewrite HP. unfold number at 1. unfold Spec.within. simpl.
      destruct (1 <=? P) eqn:E; [apply Z.leb_le in E; lia|]. reflexivity.
    + rewrite HN. unfold number at 2. unfold Spec.within. simpl.
      assert (E : (1 <=? N) && (N <=? 100) = false).
      { destruct Hout.
        - destruct (1 <=? N) eqn:E; [apply Z.leb_le in E; lia | reflexivity].
        - destruct (N <=? 100) eqn:E; [apply Z.leb_le in E; lia|].
          apply andb_false_r. }
      rewrite E. simpl.
      destruct (orElse 1 (number (Some 1) None (Query.page raw))); reflexivity.
Qed.

End QuerySchema.

Lemma carQuerySchema_valid_witness :
  Validation.carQuerySchema Sample.nextYear
    (Query.mk None (Some 5) None (Some "  maruti "%string) None None
       (Some 700000) None None None None None None None None)
  = Some (Query.mk (Some 1) (Some 5) (Some "-createdAt"%string)
            (Some "maruti"%string) None None (Some 700000) None None None None
            None None None (Some "available"%string))
  /\ exists N,
       Query.limit
         (Query.mk (Some 1) (Some 5) (Some "-createdAt"%string)
            (Some "maruti"%string) None None (Some 700000) None None None None
            None None None (Some "available"%string)) = Some N
       /\ 1 <= N <= 100.
Proof.
  assert (V : Validation.carQuerySchema Sample.nextYear
                (Query.mk None (Some 5) None (Some "  maruti "%string) None None
                   (Some 700000) None None None None None None None None)
              = Some (Query.mk (Some 1) (Some 5) (Some "-createdAt"%string)
                        (Some "maruti"%string) None None (Some 700000) None None
                        None None None None None (Some "available"%string)))
    by (vm_compute; reflexivity).
  split; [exact V|].
  exact (proj1 (proj2 (carQuerySchema_valid Sample.nextYear _ _ V))).
Defined.

(* ================================================================== *)
(** * The schema's validators as an invariant of the store *)

Lemma capitalize_length (s : string) :
  String.length (Schema.capitalize s) = String.length s.
Proof.
  destruct s as [|a r]; [reflexivity|].
  rewrite capitalize_cons. simpl. f_equal.
  induction r as [|x r IH]; simpl; [reflexivity | now f_equal].
Qed.

Lemma hook_keeps_valid (n : nat) (s : string) :
  Schema.nonEmpty s && Schema.maxlength n s = true ->
  Schema.nonEmpty
    (if JS.truthyString (Some s) then Schema.capitalize s else s)
  && Schema.maxlength n
       (if JS.truthyString (Some s) then Schema.capitalize s else s) = true.
Proof.
  destruct s as [|a r]; [discriminate|].
  change (JS.truthyString (Some (String a r))) with true. cbv iota.
  unfold Schema.maxlength. rewrite capitalize_length.
  rewrite capitalize_cons. intros H. exact H.
Qed.

Lemma In_modify (id : ObjectId) (f : Car -> Car) (st : Store.t) (c' : Car) :
  In c' (Store.modify id f st) ->
  In c' st \/ exists c, In c st /\ c' = f c.
Proof.
  induction st as [|d r IH]; simpl; [tauto|].
  destruct (N.eqb (_id d) id); simpl.
  - intros [<-|H]; [right; exists d; auto | auto].
  - intros [<-|H]; [auto|].
    destruct (IH H) as [H'|[c [Hc E]]]; [auto|].
    right. exists c. auto.
Qed.

Ltac split_valid H :=
  repeat match type of H with
         | _ && _ = true =>
             let H' := fresh "V" in
             apply andb_prop in H; destruct H as [H H']
         end.

Ltac split_goal :=
  repeat match goal with
         | |- _ && _ = true => apply andb_true_intro; split
         end.

Lemma validLocation_default (l : Location) :
  Schema.validLocation l = true ->
  Schema.validLocation (Schema.withCountryDefault l) = true.
Proof.
  unfold Schema.validLocation, Schema.withCountryDefault.
  cbn [city state country].
  intros H. split_valid H. split_goal; try assumption.
  destruct (country l); [assumption | reflexivity].
Qed.

Section ValidStore.
Variable nextYear : Z.

Lemma valid_stamp (now : Z) (c : Car) :
  Stored.valid nextYear c = true ->
  Stored.valid nextYear (Schema.stampUpdated now c) = true.
Proof. intros H. exact H. Qed.

Lemma valid_view (now : Z) (c : Car) :
  Stored.valid nextYear c = true ->
  Stored.valid nextYear (Schema.stampUpdated now (Schema.incViewCount c)) = true.
Proof.
  unfold Stored.valid. intros H. apply andb_prop in H. destruct H as [H V].
  apply andb_true_intro. split; [exact H|].
  apply Z.leb_le in V. apply Z.leb_le. simpl. lia.
Qed.

Lemma valid_deactivate (now : Z) (c : Car) :
  Stored.valid nextYear c = true ->
  Stored.valid nextYear (Schema.stampUpdated now (Schema.setInactive c)) = true.
Proof. intros H. exact H. Qed.

Lemma valid_set (now : Z) (b : Body.t) (c : Car) :
  Schema.validPaths nextYear b = true ->
  Stored.valid nextYear c = true ->
  Stored.valid nextYear (Schema.stampUpdated now (Schema.applySet b c)) = true.
Proof.
  unfold Stored.valid. intros Hb Hc.
  apply andb_prop in Hc. destruct Hc as [Hc Hv].
  apply andb_true_intro. split; [|exact Hv].
  destruct b as [mk md yr pr mi fu tr bt co de fe im lo se stt].
  unfold Schema.validPaths, Stored.asObject in *.
  cbn [Body.make Body.model Body.year Body.price Body.mileage Body.fuelType
       Body.transmission Body.bodyType Body.color Body.description
       Body.features Body.images Body.location Body.seller Body.status
       Schema.stampUpdated Schema.applySet
       _id make model year price mileage fuelType transmission bodyType
       color description features images location seller status isActive
       viewCount createdAt updatedAt] in *.
  split_valid Hb. split_valid Hc.
  split_goal.
  - destruct mk; assumption.
  - destruct md; assumption.
  - destruct yr; assumption.
  - destruct pr; assumption.
  - destruct mi; assumption.
  - destruct fu; assumption.
  - destruct tr; assumption.
  - destruct bt; assumption.
  - destruct co; assumption.
  - destruct de; assumption.
  - destruct fe; assumption.
  - destruct im; assumption.
  - destruct lo; assumption.
  - destruct se; assumption.
  - destruct stt; assumption.
Qed.

Lemma valid_create (oid : ObjectId) (now : Z) (b : Body.t) :
  Schema.requiredPaths b = true ->
  Schema.validPaths nextYear b = true ->
  Stored.valid nextYear
    (Schema.stampCreated now (Schema.preSave (Schema.newDocument oid b))) = true.
Proof.
  unfold Stored.valid. intros R Hb.
  apply andb_true_intro. split; [|reflexivity].
  destruct b as [mk md yr pr mi fu tr bt co de fe im lo se stt].
  unfold Schema.requiredPaths in R.
  cbn [Body.make Body.model Body.year Body.price Body.mileage Body.fuelType
       Body.transmission Body.bodyType Body.color Body.description
       Body.features Body.images Body.location Body.seller Body.status] in R.
  destruct mk as [mk|]; [|simpl in R; discriminate R].
  destruct md as [md|]; [|simpl in R; discriminate R].
  destruct yr as [yr|]; [|simpl in R; discriminate R].
  destruct pr as [pr|]; [|simpl in R; discriminate R].
  destruct mi as [mi|]; [|simpl in R; discriminate R].
  destruct fu as [fu|]; [|simpl in R; discriminate R].
  destruct tr as [tr|]; [|simpl in R; discriminate R].
  destruct bt as [bt|]; [|simpl in R; discriminate R].
  destruct co as [co|]; [|simpl in R; discriminate R].
  destruct lo as [lo|]; [|simpl in R; discriminate R].
  destruct se as [se|].
  2:{ apply andb_prop in R. destruct R as [R _].
      apply andb_prop in R. destruct R as [_ R]. discriminate R. }
  clear R.
  unfold Schema.validPaths, Stored.asObject in *.
  cbn [Body.make Body.model Body.year Body.price Body.mileage Body.fuelType
       Body.transmission Body.bodyType Body.color Body.description
       Body.features Body.images Body.location Body.seller Body.status
       Schema.stampCreated Schema.preSave Schema.newDocument JS.orDefault
       _id make model year price mileage fuelType transmission bodyType
       color description features images location seller status isActive
       viewCount createdAt updatedAt] in *.
  split_valid Hb.
  split_goal; try assumption.
  - apply (hook_keeps_valid 50). assumption.
  - apply (hook_keeps_valid 50). assumption.
  - destruct fe; [assumption | reflexivity].
  - destruct im; [assumption | reflexivity].
  - apply validLocation_default. assumption.
  - destruct stt; [assumption | reflexivity].
Qed.

Lemma step_keeps_valid (st : Store.t) (request : Api.Call * Z) :
  (forall c, In c st -> Stored.valid nextYear c = true) ->
  forall c, In c (Api.step nextYear st request) ->
            Stored.valid nextYear c = true.
Proof.
  intros Hst c.
  destruct request as [[id | user body oid | user id body | user id] now];
    simpl.
  - unfold CarController.getCar.
    destruct (Store.findById id st) as [d|]; [|apply Hst].
    destruct (isActive d); simpl; [|apply Hst].
    unfold Model.incrementViews. intros H. apply In_modify in H.
    destruct H as [H|[x [Hx ->]]]; [now apply Hst|].
    apply valid_view. now apply Hst.
  - unfold CarController.createCar, Model.create.
    destruct (Schema.requiredPaths _ && Schema.validPaths _ _) eqn:E;
      [|apply Hst].
    destruct (Store.findById oid st); [apply Hst|].
    simpl. intros H. apply in_app_or in H.
    destruct H as [H|[<-|[]]]; [now apply Hst|].
    apply andb_prop in E. destruct E as [R V].
    now apply valid_create.
  - unfold CarController.updateCar, Model.findByIdAndUpdate.
    destruct (Store.findById id st) as [d|]; [|apply Hst].
    destruct (Schema.validPaths _ _) eqn:E; [|apply Hst].
    simpl. intros H. apply In_modify in H.
    destruct H as [H|[x [Hx ->]]]; [now apply Hst|].
    apply valid_set; [exact E | now apply Hst].
  - unfold CarController.deleteCar.
    destruct (Store.findById id st) as [d|]; [|apply Hst].
    simpl. unfold Model.deactivate. intros H. apply In_modify in H.
    destruct H as [H|[x [Hx ->]]]; [now apply Hst|].
    apply valid_deactivate. now apply Hst.
Qed.

(** X24.  The handlers keep the store within the schema: if every
    document passes the schema's validators, so does every document
    after any sequence of view, create, update and delete requests.  In a
    store that the handlers have built from the empty collection, every
    listing therefore has a price between 0 and 10,000,000, a year between
    1900 and next year, a mileage between 0 and 1,000,000, a non-empty
    make of at most 50 characters, a fuel type and a status from the
    enumerations and a view counter that is not negative. *)
Theorem run_keeps_valid (requests : list (Api.Call * Z)) (st : Store.t) :
  (forall c, In c st -> Stored.valid nextYear c = true) ->
  forall c, In c (Api.run nextYear requests st) ->
    Stored.valid nextYear c = true
    /\ 0 <= price c <= 10000000
    /\ 1900 <= year c <= nextYear
    /\ 0 <= mileage c <= 1000000
    /\ make c <> EmptyString
    /\ (String.length (make c) <= 50)%nat
    /\ In (fuelType c) Schema.fuelTypes
    /\ In (status c) Schema.statuses
    /\ 0 <= viewCount c.
Proof.
  intros Hst c Hin.
  assert (Hv : Stored.valid nextYear c = true).
  { revert st Hst Hin. induction requests as [|r rest IH]; intros st Hst Hin.
    - now apply Hst.
    - simpl in Hin. apply (IH (Api.step nextYear st r)); [|exact Hin].
      apply step_keeps_valid. exact Hst. }
  split; [exact Hv|].
  assert (Hin' : forall (l : list string) s,
            Schema.oneOf l s = true -> In s l).
  { intros l s Hs. unfold Schema.oneOf in Hs. apply existsb_exists in Hs.
    destruct Hs as [x [Hx Hs]]. apply String.eqb_eq in Hs. now subst. }
  unfold Stored.valid in Hv. apply andb_prop in Hv. destruct Hv as [Hv Hc].
  unfold Schema.validPaths, Stored.asObject in Hv.
  cbn [Body.make Body.model Body.year Body.price Body.mileage Body.fuelType
       Body.transmission Body.bodyType Body.color Body.description
       Body.features Body.images Body.location Body.seller Body.status
       Schema.whenPresent] in Hv.
  split_valid Hv.
  repeat match goal with
         | H : Schema.inRange _ _ _ = true |- _ =>
             unfold Schema.inRange in H; apply andb_prop in H; destruct H
         end.
  repeat match goal with
         | H : (_ <=? _) = true |- _ => apply Z.leb_le in H
         end.
  split; [lia|]. split; [lia|]. split; [lia|].
  split.
  { match goal with
    | H : Schema.nonEmpty (make c) = true |- _ =>
        unfold Schema.nonEmpty in H; apply negb_true_iff in H;
        now apply String.eqb_neq in H
    end. }
  split.
  { match goal with
    | H : Schema.maxlength 50 (make c) = true |- _ =>
        unfold Schema.maxlength in H; now apply Nat.leb_le in H
    end. }
  split; [apply Hin'; assumption|].
  split; [apply Hin'; assumption|].
  lia.
Qed.

End ValidStore.

Lemma run_keeps_valid_witness :
  exists c,
    In c (Api.run Sample.nextYear
            [(Api.Create Sample.testuser Sample.camry 7%N, 5000);
             (Api.View 7%N, 5001);
             (Api.Update Sample.testuser 7%N Sample.repaint, 5002)] [])
    /\ price c = 450000
    /\ 0 <= price c <= 10000000.
Proof.
  eexists. split; [vm_compute; left; reflexivity|].
  split; [reflexivity|].
  refine (proj1 (proj2 (run_keeps_valid Sample.nextYear
                          [(Api.Create Sample.testuser Sample.camry 7%N, 5000);
                           (Api.View 7%N, 5001);
                           (Api.Update Sample.testuser 7%N Sample.repaint, 5002)]
                          [] _ _ _))).
  - intros c [].
  - vm_compute. left. reflexivity.
Defined.

(* ================================================================== *)
(** * The figures of getCarStats *)







Lemma sumTallies_tally (gs : list Group.t) :
  Figures.sumTallies (map CarController.tally gs) = Spec.sumCounts gs.
Proof.
  unfold Figures.sumTallies, Spec.sumCounts. rewrite map_map. reflexivity.
Qed.

(** X25.  The fuel-type distribution of getCarStats, over the active
    listings [L] with status "available": one entry per fuel type that
    occurs in [L] and none for any other, each with the number of listings
    of that fuel type (at least 1), in descending order of count, and the
    counts add up to [|L|] (the distribution has no limit stage).  When
    all fuel types of [L] are of the schema's enumeration, there are at
    most six entries. *)
Theorem getCarStats_fuelTypes (st : Store.t) :
  let L := filter (Spec.visible "available") st in
  exists s,
    CarController.getCarStats st = Json 200 true None (Some s)
    /\ Sorted (fun a b => Tally.count b <= Tally.count a)
         (Stats.fuelTypeDistribution s)
    /\ NoDup (map Tally._id (Stats.fuelTypeDistribution s))
    /\ (forall f, In f (map Tally._id (Stats.fuelTypeDistribution s))
                  <-> exists c, In c L /\ fuelType c = f)
    /\ (forall t, In t (Stats.fuelTypeDistribution s) ->
          Tally.count t
          = Z.of_nat (List.length (Figures.ofFuel (Tally._id t) L))
          /\ 0 < Tally.count t)
    /\ Figures.sumTallies (Stats.fuelTypeDistribution s)
       = Z.of_nat (List.length L)
    /\ ((forall c, In c L -> In (fuelType c) Schema.fuelTypes) ->
        (List.length (Stats.fuelTypeDistribution s) <= 6)%nat).
Proof.
  intros L. unfold CarController.getCarStats.
  rewrite find_matchStage. fold L. clearbody L.
  eexists. split; [reflexivity|].
  cbn [Stats.overview Stats.topMakes Stats.fuelTypeDistribution].
  destruct (accumulateAll_spec fuelType (fun _ => 0) L)
    as [Hnd [Hkeys [Hacc Hsum]]].
  set (groups := Aggregate.groupBy fuelType (fun _ => 0) L).
  set (sorted := Aggregate.sortByCountDesc groups).
  assert (Hperm : Permutation sorted groups) by apply sortBy_perm.
  assert (Hids : map Group._id groups
                 = map Aggregate.key
                     (Aggregate.accumulateAll fuelType (fun _ => 0) L)).
  { unfold groups, Aggregate.groupBy. rewrite map_map. reflexivity. }
  assert (Hnames : map Tally._id (map CarController.tally sorted)
                   = map Group._id sorted).
  { rewrite map_map. reflexivity. }
  assert (Hpk : Permutation (map Group._id sorted)
                  (map Aggregate.key
                     (Aggregate.accumulateAll fuelType (fun _ => 0) L))).
  { rewrite <- Hids. apply Permutation_map. exact Hperm. }
  assert (Hndk : NoDup (map Group._id sorted)).
  { apply (Permutation_NoDup (Permutation_sym Hpk)). exact Hnd. }
  split.
  { assert (Hs : Sorted (fun a b => Group.count b <= Group.count a) sorted).
    { apply Sorted_impl
        with (R := fun a b => (Group.count b <=? Group.count a) = true).
      - intros a b H. now apply Z.leb_le.
      - apply sortBy_sorted. intros a b.
        destruct (Z.leb_spec (Group.count b) (Group.count a)); [now left|].
        right. apply Z.leb_le. lia. }
    clear - Hs. induction Hs as [|g r Hr IH Hg]; simpl; constructor.
    - exact IH.
    - destruct Hg; simpl; constructor. assumption. }
  split; [rewrite Hnames; exact Hndk|].
  split.
  { intros f. rewrite Hnames. split.
    - intros Hf. apply (Permutation_in _ Hpk) in Hf.
      apply Hkeys in Hf. apply in_map_iff in Hf.
      destruct Hf as [c [E Hc]]. exists c. auto.
    - intros [c [Hc <-]].
      apply (Permutation_in _ (Permutation_sym Hpk)).
      apply Hkeys. now apply in_map. }
  split.
  { intros t Ht. apply in_map_iff in Ht. destruct Ht as [g [<- Hg]].
    apply (Permutation_in _ Hperm) in Hg.
    unfold groups, Aggregate.groupBy in Hg. apply in_map_iff in Hg.
    destruct Hg as [a [<- Ha]]. simpl.
    destruct (Hacc a Ha) as [Hs _].
    unfold Figures.ofFuel. fold (Spec.keyed fuelType (Aggregate.key a) L).
    split; [exact Hs|].
    rewrite Hs. apply keyed_nonempty. apply Hkeys. now apply in_map. }
  split.
  { rewrite sumTallies_tally. rewrite (sumCounts_perm _ _ Hperm).
    apply sumCounts_groupBy. }
  intros Henum. rewrite length_map. rewrite <- (length_map Group._id).
  change 6%nat with (List.length Schema.fuelTypes).
  apply NoDup_incl_length; [exact Hndk|].
  intros f Hf. apply (Permutation_in _ Hpk) in Hf.
  apply Hkeys in Hf. apply in_map_iff in Hf.
  destruct Hf as [c [<- Hc]]. now apply Henum.
Qed.

